(** * Chat subsystem of pets-backend: a shallow embedding.

    The development follows the layering of the TypeScript sources:

    - [utils/encryption.ts]              : the codec, validation, sanitization
    - [entities/Conversation.ts],
      [entities/MessageMetadata.ts],
      [model/messageSchema.ts]           : the records and the [Store]
    - [repository/ConversationRepository.ts],
      [repository/MessageRepository.ts]  : the repository operations
    - [service/chat.service.ts]          : the [ChatService] operations
    - [socket/handlers/chatHandler.ts],
      [socket/handlers/statusHandler.ts],
      [socket/handlers/typingHandler.ts] : the socket handlers, over the
                                           service and the Redis cache

    JavaScript strings are sequences of UTF-16 code units, timestamps are
    integers (milliseconds), generated identifiers (Postgres uuid, Mongo
    ObjectId) are drawn from a counter kept in the store.  Every [await] on
    a repository or model call may reject: the world carries the schedule of
    such rejections, so that the [catch] blocks of the source can be
    exercised. *)

From Stdlib Require Import String Ascii.
From Stdlib Require Import List NArith ZArith Bool Arith Lia.
Import ListNotations.

Set Implicit Arguments.

(* ================================================================= *)
(** ** JavaScript strings *)

Definition jsstring := list N.

(** An ASCII literal as a JavaScript string. *)
Definition js (s : string) : jsstring :=
  map N_of_ascii (list_ascii_of_string s).

Fixpoint str_eqb (a b : jsstring) : bool :=
  match a, b with
  | [], [] => true
  | x :: a', y :: b' => N.eqb x y && str_eqb a' b'
  | _, _ => false
  end.

(** [a < b] on strings: code units compared left to right. *)
Fixpoint str_ltb (a b : jsstring) : bool :=
  match a, b with
  | [], [] => false
  | [], _ :: _ => true
  | _ :: _, [] => false
  | x :: a', y :: b' =>
      if N.ltb x y then true
      else if N.ltb y x then false
      else str_ltb a' b'
  end.

(** [[a, b].sort()]: the default comparator orders strings by [<]. *)
Definition sort2 (a b : jsstring) : jsstring * jsstring :=
  if str_ltb b a then (b, a) else (a, b).

(** Truthiness of a [string] and of a [string | undefined]. *)
Definition truthy (s : jsstring) : bool :=
  match s with [] => false | _ :: _ => true end.

Definition truthy_opt (o : option jsstring) : bool :=
  match o with Some s => truthy s | None => false end.

(** [s.substring(0, n)] *)
Definition substring0 (n : nat) (s : jsstring) : jsstring := firstn n s.

(** White space and line terminators removed by [String.prototype.trim]. *)
Definition is_whitespace (c : N) : bool :=
  existsb (N.eqb c)
    [9; 10; 11; 12; 13; 32; 160; 5760; 8232; 8233; 8239; 8287; 12288; 65279]%N
  || (N.leb 8192 c && N.leb c 8202).

Fixpoint trimStart (s : jsstring) : jsstring :=
  match s with
  | [] => []
  | c :: s' => if is_whitespace c then trimStart s' else s
  end.

Definition trimEnd (s : jsstring) : jsstring := rev (trimStart (rev s)).

Definition trim (s : jsstring) : jsstring := trimEnd (trimStart s).

(** [s.replace(/c/g, r)] for a single code unit [c]. *)
Definition replaceAll (c : N) (r : jsstring) (s : jsstring) : jsstring :=
  flat_map (fun x => if N.eqb x c then r else [x]) s.

(** [WordArray.random(n).toString()]: [2 * n] lower-case hex digits. *)
Definition hex_digit (d : N) : N :=
  if N.ltb d 10 then (48 + d)%N else (87 + d)%N.

Fixpoint to_hex (digits : nat) (n : N) : jsstring :=
  match digits with
  | O => []
  | S k => to_hex k (N.div n 16) ++ [hex_digit (N.modulo n 16)]
  end.

(* ================================================================= *)
(** ** Errors and results *)

Inductive Error : Type :=
| StorageError          (* a rejected repository / model call *)
| UniqueViolation       (* the unique index on the participant pair *)
| ConversationBlocked   (* "Cannot send message to blocked conversation" *)
| MessageNotFound       (* "Message not found" *)
| Unauthorized          (* "Unauthorized to delete this message" *)
| EmptyContent          (* "Message content cannot be empty" *)
| TooLong               (* "Message exceeds maximum length of 5000 characters" *)
| EncryptFailed         (* "Failed to encrypt message" *)
| DecryptFailed         (* "Failed to decrypt message" *)
| ValidationError.      (* a document rejected by its Mongoose schema *)

Inductive Result (A : Type) : Type :=
| Ok (a : A)
| Throw (e : Error).

Arguments Ok {A} a.
Arguments Throw {A} e.

Definition is_ok {A} (r : Result A) : bool :=
  match r with Ok _ => true | Throw _ => false end.

(* ================================================================= *)
(** ** utils/encryption.ts *)

(** The CryptoJS primitives the module calls.  [aes_encrypt p k salt] is
    [CryptoJS.AES.encrypt(p, k).toString()] with the random salt made
    explicit, [aes_decrypt c k] is
    [CryptoJS.AES.decrypt(c, k).toString(CryptoJS.enc.Utf8)]; [None] is a
    thrown exception.  [aes_accepts p] holds of the plaintexts the library
    can encode. *)
Class AES : Type := {
  aes_encrypt : jsstring -> jsstring -> N -> option jsstring;
  aes_decrypt : jsstring -> jsstring -> option jsstring;
  aes_accepts : jsstring -> bool
}.

(** What is assumed of the library when a claim needs it. *)
Class AESCorrect (codec : AES) : Prop := {
  aes_encrypt_total : forall p k salt,
      aes_accepts p = true -> aes_encrypt p k salt <> None;
  aes_decrypt_encrypt : forall p k salt c,
      aes_encrypt p k salt = Some c -> aes_decrypt c k = Some p
}.

Record EncryptedData : Type := {
  encrypted : jsstring;
  iv : jsstring
}.

Definition MAX_MESSAGE_LENGTH : nat := 5000.

(** [validateMessageContent] *)
Definition validateMessageContent (content : jsstring) : Result bool :=
  if negb (truthy content) || Nat.eqb (length (trim content)) 0 then
    Throw EmptyContent
  else if Nat.ltb MAX_MESSAGE_LENGTH (length content) then
    Throw TooLong
  else Ok true.

(** [sanitizeMessageContent] *)
Definition sanitizeMessageContent (content : jsstring) : jsstring :=
  replaceAll 47 (js "&#x2F;")
    (replaceAll 39 (js "&#x27;")
       (replaceAll 34 (js "&quot;")
          (replaceAll 62 (js "&gt;")
             (replaceAll 60 (js "&lt;") content)))).

Section Encryption.
Context {codec : AES}.
Variable ENCRYPTION_KEY : jsstring.

(** [encryptMessage]; [salt] and [ivrand] are the two random draws. *)
Definition encryptMessage (salt ivrand : N) (plaintext : jsstring)
  : Result EncryptedData :=
  match aes_encrypt plaintext ENCRYPTION_KEY salt with
  | Some c => Ok {| encrypted := c; iv := to_hex 32 ivrand |}
  | None => Throw EncryptFailed
  end.

(** [decryptMessage]: an empty plaintext is rejected inside the [try],
    and every exception leaves as "Failed to decrypt message". *)
Definition decryptMessage (enc : jsstring) : Result jsstring :=
  match aes_decrypt enc ENCRYPTION_KEY with
  | Some decrypted =>
      if negb (truthy decrypted) then Throw DecryptFailed
      else Ok decrypted
  | None => Throw DecryptFailed
  end.

End Encryption.

(* ================================================================= *)
(** ** Entities and documents *)

Inductive MessageType : Type := TEXT | IMAGE | VIDEO | FILE.

Definition MessageType_eqb (a b : MessageType) : bool :=
  match a, b with
  | TEXT, TEXT | IMAGE, IMAGE | VIDEO, VIDEO | FILE, FILE => true
  | _, _ => false
  end.

(** [entities/Conversation.ts] ([createdAt] and [updatedAt] are read by no
    chat operation and are left out). *)
Module Conversation.
Record t : Type := mk {
  id : nat;
  participant1Id : jsstring;
  participant2Id : jsstring;
  lastMessageAt : option Z;
  lastMessagePreview : option jsstring;
  isBlocked : bool;
  blockedBy : option jsstring
}.
End Conversation.

(** [entities/MessageMetadata.ts] *)
Module MessageMetadata.
Record t : Type := mk {
  id : nat;
  conversationId : nat;
  mongoMessageId : nat;
  senderId : jsstring;
  receiverId : jsstring;
  messageType : MessageType;
  isDelivered : bool;
  isRead : bool;
  deliveredAt : option Z;
  readAt : option Z;
  isDeleted : bool;
  createdAt : Z
}.
End MessageMetadata.

(** [model/messageSchema.ts]: the [IMessage] document. *)
Module IMessage.
Record t : Type := mk {
  _id : nat;
  conversationId : nat;
  senderId : jsstring;
  receiverId : jsstring;
  messageType : MessageType;
  encryptedContent : option jsstring;
  mediaUrl : option jsstring;
  mediaType : option jsstring;
  mediaSize : option N;
  fileName : option jsstring;
  thumbnailUrl : option jsstring;
  replyToMessageId : option jsstring;
  createdAt : Z;
  updatedAt : Z
}.
End IMessage.

(** [CreateMessageData] of the message repository. *)
Module CreateMessageData.
Record t : Type := mk {
  conversationId : nat;
  senderId : jsstring;
  receiverId : jsstring;
  messageType : MessageType;
  encryptedContent : option jsstring;
  mediaUrl : option jsstring;
  mediaType : option jsstring;
  mediaSize : option N;
  fileName : option jsstring;
  thumbnailUrl : option jsstring;
  replyToMessageId : option jsstring
}.

(** [data.encryptedContent = e] *)
Definition set_encryptedContent (e : jsstring) (d : t) : t :=
  mk (conversationId d) (senderId d) (receiverId d) (messageType d)
     (Some e) (mediaUrl d) (mediaType d) (mediaSize d) (fileName d)
     (thumbnailUrl d) (replyToMessageId d).
End CreateMessageData.

(** [SendMessageParams] of the chat service. *)
Module SendMessageParams.
Record t : Type := mk {
  senderId : jsstring;
  receiverId : jsstring;
  messageType : MessageType;
  content : option jsstring;
  mediaUrl : option jsstring;
  mediaType : option jsstring;
  mediaSize : option N;
  fileName : option jsstring;
  thumbnailUrl : option jsstring;
  replyToMessageId : option jsstring
}.
End SendMessageParams.

(** [MessageWithMetadata] of the chat service. *)
Module MessageWithMetadata.
Record t : Type := mk {
  id : nat;
  conversationId : nat;
  senderId : jsstring;
  receiverId : jsstring;
  messageType : MessageType;
  content : option jsstring;
  mediaUrl : option jsstring;
  mediaType : option jsstring;
  mediaSize : option N;
  fileName : option jsstring;
  thumbnailUrl : option jsstring;
  replyToMessageId : option jsstring;
  isDelivered : bool;
  isRead : bool;
  deliveredAt : option Z;
  readAt : option Z;
  createdAt : Z
}.
End MessageWithMetadata.

(* ================================================================= *)
(** ** The world: two stores, a clock, and the environment's choices *)

Record Store : Type := mkStore {
  conversations : list Conversation.t;     (* Postgres table conversations *)
  metadata : list MessageMetadata.t;       (* Postgres table message_metadata *)
  messages : list IMessage.t;              (* Mongo collection messages *)
  nextId : nat                             (* next generated identifier *)
}.

Record World : Type := mkWorld {
  store : Store;
  clock : Z;               (* what [new Date()] and the databases read *)
  faults : list bool;      (* for each coming storage call: does it reject? *)
  entropy : list N         (* coming random draws *)
}.

Definition empty_store : Store := mkStore [] [] [] 0.

Definition with_store (s : Store) (w : World) : World :=
  mkWorld s (clock w) (faults w) (entropy w).

(** The environment between two operations: time passes, and the coming
    rejections and random draws are chosen afresh. *)
Definition with_env (t : Z) (fs : list bool) (rs : list N) (w : World) : World :=
  mkWorld (store w) t fs rs.

(** Computations: a result or a thrown error, and the world after. *)
Definition M (A : Type) : Type := World -> Result A * World.

Definition ret {A} (a : A) : M A := fun w => (Ok a, w).

Definition throw {A} (e : Error) : M A := fun w => (Throw e, w).

Definition bind {A B} (m : M A) (k : A -> M B) : M B :=
  fun w =>
    match m w with
    | (Ok a, w') => k a w'
    | (Throw e, w') => (Throw e, w')
    end.

(** [try { m } catch (e) { h e }] *)
Definition try_catch {A} (m : M A) (h : Error -> M A) : M A :=
  fun w =>
    match m w with
    | (Ok a, w') => (Ok a, w')
    | (Throw e, w') => h e w'
    end.

(** [catch (error) { logger.error(...); throw error; }] *)
Definition logged {A} (m : M A) : M A := try_catch m (fun e => throw e).

Declare Scope chat_scope.
Delimit Scope chat_scope with chat.
Notation "x <- m ;; k" := (bind m (fun x => k))
  (at level 61, m at next level, right associativity) : chat_scope.
Notation "m ;;; k" := (bind m (fun _ => k))
  (at level 61, right associativity) : chat_scope.
Notation "' pat <- m ;; k" := (bind m (fun x => match x with pat => k end))
  (at level 61, pat pattern, m at next level, right associativity) : chat_scope.
Open Scope chat_scope.

Definition get_store : M Store := fun w => (Ok (store w), w).

Definition put_store (s : Store) : M unit := fun w => (Ok tt, with_store s w).

(** [new Date()] *)
Definition now : M Z := fun w => (Ok (clock w), w).

(** One random draw. *)
Definition random : M N :=
  fun w =>
    (Ok (hd 0%N (entropy w)),
     mkWorld (store w) (clock w) (faults w) (tl (entropy w))).

(** The [await] of a storage call: it rejects when the schedule says so,
    before it has had any effect; an exhausted schedule rejects nothing. *)
Definition after_await (w : World) : World :=
  mkWorld (store w) (clock w) (tl (faults w)) (entropy w).

Definition await_storage : M unit :=
  fun w =>
    if hd false (faults w) then (Throw StorageError, after_await w)
    else (Ok tt, after_await w).

Definition lift {A} (r : Result A) : M A := fun w => (r, w).

(* ================================================================= *)
(** ** repository/ConversationRepository.ts *)

Module ConversationRepository.
Import Conversation.

(** The TypeORM calls on [AppDataSource.getRepository(Conversation)]. *)

(** [repository.findOne({ where })] *)
Definition findOne (where_ : Conversation.t -> bool) : M (option Conversation.t) :=
  await_storage ;;;
  s <- get_store ;;
  ret (find where_ (conversations s)).

(** [repository.save(repository.create({ participant1Id, participant2Id }))]:
    the row gets a generated id and the column defaults; the unique index
    on (participant1Id, participant2Id) rejects a second row for the pair. *)
Definition save (p1 p2 : jsstring) : M Conversation.t :=
  await_storage ;;;
  s <- get_store ;;
  if existsb (fun c => str_eqb (participant1Id c) p1 && str_eqb (participant2Id c) p2)
       (conversations s)
  then throw UniqueViolation
  else
    let c := mk (nextId s) p1 p2 None None false None in
    put_store (mkStore (conversations s ++ [c]) (metadata s) (messages s)
                 (S (nextId s))) ;;;
    ret c.

(** [repository.update(id, partial)] *)
Definition update (cid : nat) (partial : Conversation.t -> Conversation.t) : M unit :=
  await_storage ;;;
  s <- get_store ;;
  put_store (mkStore
               (map (fun c => if Nat.eqb (id c) cid then partial c else c)
                  (conversations s))
               (metadata s) (messages s) (nextId s)).

Definition pair_matches (a b : jsstring) (c : Conversation.t) : bool :=
  (str_eqb (participant1Id c) a && str_eqb (participant2Id c) b)
  || (str_eqb (participant1Id c) b && str_eqb (participant2Id c) a).

Definition findOrCreateConversation (user1Id user2Id : jsstring) : M Conversation.t :=
  logged (
    let '(participantA, participantB) := sort2 user1Id user2Id in
    conversation <- findOne (pair_matches participantA participantB) ;;
    match conversation with
    | Some c => ret c
    | None => save participantA participantB
    end).

Definition getConversationById (conversationId : nat) : M (option Conversation.t) :=
  logged (findOne (fun c => Nat.eqb (id c) conversationId)).

Definition updateLastMessage (conversationId : nat) (preview : jsstring)
  (timestamp : Z) : M unit :=
  logged (
    update conversationId (fun c =>
      mk (id c) (participant1Id c) (participant2Id c)
         (Some timestamp) (Some (substring0 500 preview))
         (isBlocked c) (blockedBy c))).

Definition blockConversation (conversationId : nat) (userId : jsstring) : M unit :=
  logged (
    update conversationId (fun c =>
      mk (id c) (participant1Id c) (participant2Id c)
         (lastMessageAt c) (lastMessagePreview c)
         true (Some userId))).

(** [blockedBy: undefined] is no part of the update: the column keeps its
    value. *)
Definition unblockConversation (conversationId : nat) : M unit :=
  logged (
    update conversationId (fun c =>
      mk (id c) (participant1Id c) (participant2Id c)
         (lastMessageAt c) (lastMessagePreview c)
         false (blockedBy c))).

(** The [catch] of this one returns [false] instead of rethrowing. *)
Definition isConversationBlocked (conversationId : nat) : M bool :=
  try_catch
    (conversation <- findOne (fun c => Nat.eqb (id c) conversationId) ;;
     ret (match conversation with
          | Some c => isBlocked c || false
          | None => false
          end))
    (fun _ => ret false).

(** [order: { lastMessageAt: "DESC" }]: in descending order Postgres puts
    the rows without a date first; rows of equal date in table order. *)
Definition date_le (x y : option Z) : bool :=
  match x, y with
  | _, None => true
  | None, Some _ => false
  | Some a, Some b => Z.leb a b
  end.

Fixpoint insert_latest (c : Conversation.t) (l : list Conversation.t)
  : list Conversation.t :=
  match l with
  | [] => [c]
  | x :: l' =>
      if date_le (lastMessageAt x) (lastMessageAt c) then c :: l
      else x :: insert_latest c l'
  end.

Definition order_lastMessageAt_desc (l : list Conversation.t)
  : list Conversation.t :=
  fold_right insert_latest [] l.

(** [repository.findAndCount({ where, order, skip, take })] *)
Definition findAndCount (where_ : Conversation.t -> bool) (skip take : nat)
  : M (list Conversation.t * nat) :=
  await_storage ;;;
  s <- get_store ;;
  let rows := order_lastMessageAt_desc (filter where_ (conversations s)) in
  ret (firstn take (skipn skip rows), length rows).

(** [page] counts from 1. *)
Definition getUserConversations (userId : jsstring) (page limit : nat)
  : M (list Conversation.t * nat) :=
  logged (
    let skip := (page - 1) * limit in
    '(conversations_, total) <-
      findAndCount (fun c => str_eqb (participant1Id c) userId
                             || str_eqb (participant2Id c) userId)
        skip limit ;;
    ret (conversations_, total)).

End ConversationRepository.

(* ================================================================= *)
(** ** repository/MessageRepository.ts *)

Module MessageRepository.
Import MessageMetadata.

(** [order: { createdAt: "DESC" }], rows of equal date in table order. *)
Fixpoint insert_desc (m : MessageMetadata.t) (l : list MessageMetadata.t)
  : list MessageMetadata.t :=
  match l with
  | [] => [m]
  | x :: l' =>
      if Z.leb (createdAt x) (createdAt m) then m :: l
      else x :: insert_desc m l'
  end.

Definition order_createdAt_desc (l : list MessageMetadata.t) : list MessageMetadata.t :=
  fold_right insert_desc [] l.

(** [new Message({...}).save()]: the schema requires [senderId] and
    [receiverId] (an empty string does not pass [required]) and validation
    comes before the insert; the document gets a generated [_id] and the
    two timestamps. *)
Definition Message_save (data : CreateMessageData.t) : M IMessage.t :=
  if negb (truthy (CreateMessageData.senderId data))
     || negb (truthy (CreateMessageData.receiverId data))
  then throw ValidationError
  else
    await_storage ;;;
    t <- now ;;
    s <- get_store ;;
    let m := IMessage.mk (nextId s)
               (CreateMessageData.conversationId data)
               (CreateMessageData.senderId data)
               (CreateMessageData.receiverId data)
               (CreateMessageData.messageType data)
               (CreateMessageData.encryptedContent data)
               (CreateMessageData.mediaUrl data)
               (CreateMessageData.mediaType data)
               (CreateMessageData.mediaSize data)
               (CreateMessageData.fileName data)
               (CreateMessageData.thumbnailUrl data)
               (CreateMessageData.replyToMessageId data)
               t t in
    put_store (mkStore (conversations s) (metadata s) (messages s ++ [m])
                 (S (nextId s))) ;;;
    ret m.

(** [Message.find({ _id: { $in: ids } })] *)
Definition Message_find_in (ids : list nat) : M (list IMessage.t) :=
  await_storage ;;;
  s <- get_store ;;
  ret (filter (fun m => existsb (Nat.eqb (IMessage._id m)) ids) (messages s)).

(** [metadataRepository.save(metadataRepository.create({...}))] *)
Definition metadata_save (conversationId_ mongoMessageId_ : nat)
  (senderId_ receiverId_ : jsstring) (messageType_ : MessageType)
  : M MessageMetadata.t :=
  await_storage ;;;
  t <- now ;;
  s <- get_store ;;
  let md := mk (nextId s) conversationId_ mongoMessageId_ senderId_ receiverId_
              messageType_ false false None None false t in
  put_store (mkStore (conversations s) (metadata s ++ [md]) (messages s)
               (S (nextId s))) ;;;
  ret md.

(** [metadataRepository.findOne({ where: { id } })] *)
Definition metadata_findOne (messageId : nat) : M (option MessageMetadata.t) :=
  await_storage ;;;
  s <- get_store ;;
  ret (find (fun m => Nat.eqb (id m) messageId) (metadata s)).

(** [metadataRepository.update(ids, partial)] *)
Definition metadata_update (ids : list nat)
  (partial : MessageMetadata.t -> MessageMetadata.t) : M unit :=
  await_storage ;;;
  s <- get_store ;;
  put_store (mkStore (conversations s)
               (map (fun m => if existsb (Nat.eqb (id m)) ids then partial m else m)
                  (metadata s))
               (messages s) (nextId s)).

(** [metadataRepository.count({ where })] *)
Definition metadata_count (where_ : MessageMetadata.t -> bool) : M nat :=
  await_storage ;;;
  s <- get_store ;;
  ret (length (filter where_ (metadata s))).

(** [metadataRepository.findAndCount({ where, order, skip, take })] *)
Definition metadata_findAndCount (where_ : MessageMetadata.t -> bool)
  (skip take : nat) : M (list MessageMetadata.t * nat) :=
  await_storage ;;;
  s <- get_store ;;
  let rows := order_createdAt_desc (filter where_ (metadata s)) in
  ret (firstn take (skipn skip rows), length rows).

Definition createMessage (data : CreateMessageData.t)
  : M (IMessage.t * MessageMetadata.t) :=
  logged (
    savedMessage <- Message_save data ;;
    savedMetadata <-
      metadata_save (CreateMessageData.conversationId data)
        (IMessage._id savedMessage)
        (CreateMessageData.senderId data)
        (CreateMessageData.receiverId data)
        (CreateMessageData.messageType data) ;;
    ret (savedMessage, savedMetadata)).

(** [page] counts from 1. *)
Definition getMessagesByConversation (conversationId_ : nat) (page limit : nat)
  : M (list (IMessage.t * MessageMetadata.t) * nat) :=
  logged (
    let skip := (page - 1) * limit in
    '(metadataList, total) <-
      metadata_findAndCount
        (fun m => Nat.eqb (conversationId m) conversationId_ && negb (isDeleted m))
        skip limit ;;
    let mongoMessageIds := map mongoMessageId metadataList in
    mongoMessages <- Message_find_in mongoMessageIds ;;
    let messagesWithMetadata :=
      flat_map (fun md =>
          match find (fun m => Nat.eqb (IMessage._id m) (mongoMessageId md))
                  mongoMessages with
          | Some message => [(message, md)]
          | None => []
          end) metadataList in
    ret (messagesWithMetadata, total)).

(** The partial entities of the three updates. *)
Definition set_delivered (t : Z) (m : MessageMetadata.t) : MessageMetadata.t :=
  mk (id m) (conversationId m) (mongoMessageId m) (senderId m) (receiverId m)
     (messageType m) true (isRead m) (Some t) (readAt m)
     (isDeleted m) (createdAt m).

Definition set_read (t : Z) (m : MessageMetadata.t) : MessageMetadata.t :=
  mk (id m) (conversationId m) (mongoMessageId m) (senderId m) (receiverId m)
     (messageType m) (isDelivered m) true (deliveredAt m) (Some t)
     (isDeleted m) (createdAt m).

Definition set_deleted (m : MessageMetadata.t) : MessageMetadata.t :=
  mk (id m) (conversationId m) (mongoMessageId m) (senderId m) (receiverId m)
     (messageType m) (isDelivered m) (isRead m) (deliveredAt m) (readAt m)
     true (createdAt m).

Definition markAsDelivered (messageId : nat) : M unit :=
  logged (
    t <- now ;;
    metadata_update [messageId] (set_delivered t)).

Definition markAsRead (messageIds : list nat) : M unit :=
  logged (
    t <- now ;;
    metadata_update messageIds (set_read t)).

Definition deleteMessage (messageId : nat) (userId : jsstring) : M unit :=
  logged (
    found <- metadata_findOne messageId ;;
    match found with
    | None => throw MessageNotFound
    | Some m =>
        if negb (str_eqb (senderId m) userId) then throw Unauthorized
        else metadata_update [messageId] set_deleted
    end).

(** The [where] object of [getUnreadCount]; a conversation id is a uuid,
    never the empty string, so [if (conversationId)] tests its presence. *)
Definition unread_where (userId : jsstring) (conversationId_ : option nat)
  (m : MessageMetadata.t) : bool :=
  str_eqb (receiverId m) userId && negb (isRead m) && negb (isDeleted m)
  && match conversationId_ with
     | Some c => Nat.eqb (conversationId m) c
     | None => true
     end.

(** The [catch] of this one returns [0] instead of rethrowing. *)
Definition getUnreadCount (userId : jsstring) (conversationId_ : option nat) : M nat :=
  try_catch
    (metadata_count (unread_where userId conversationId_))
    (fun _ => ret 0).

(** [metadataRepository.find({ where, select: ["id"] })] *)
Definition metadata_find (where_ : MessageMetadata.t -> bool)
  : M (list MessageMetadata.t) :=
  await_storage ;;;
  s <- get_store ;;
  ret (filter where_ (metadata s)).

(** The [catch] of this one returns the empty array. *)
Definition getUnreadMessages (userId : jsstring) (conversationId_ : nat)
  : M (list nat) :=
  try_catch
    (unreadMetadata <-
       metadata_find (fun m =>
         str_eqb (receiverId m) userId
         && Nat.eqb (conversationId m) conversationId_
         && negb (isRead m) && negb (isDeleted m)) ;;
     ret (map id unreadMetadata))
    (fun _ => ret []).

End MessageRepository.

(* ================================================================= *)
(** ** service/chat.service.ts *)

Module ChatService.

(** The preview labels, with the code units the source file has. *)
Definition IMAGE_PREVIEW : jsstring := [63743; 252; 236; 8721]%N ++ js " Image".
Definition VIDEO_PREVIEW : jsstring := [63743; 252; 233; 8226]%N ++ js " Video".
Definition FILE_PREVIEW_PREFIX : jsstring := [63743; 252; 236; 233; 32]%N.

Definition generateMessagePreview (params : SendMessageParams.t) : jsstring :=
  match SendMessageParams.messageType params with
  | TEXT =>
      match SendMessageParams.content params with
      | Some c => substring0 100 c
      | None => []
      end
  | IMAGE => IMAGE_PREVIEW
  | VIDEO => VIDEO_PREVIEW
  | FILE =>
      FILE_PREVIEW_PREFIX ++
      match SendMessageParams.fileName params with
      | Some f => if truthy f then f else js "File"
      | None => js "File"
      end
  end.

Definition ENCRYPTED_PLACEHOLDER : jsstring := js "[Encrypted message]".

Section WithCodec.
Context {codec : AES}.
Variable ENCRYPTION_KEY : jsstring.

Definition formatMessage (message : IMessage.t) (metadata_ : MessageMetadata.t)
  : MessageWithMetadata.t :=
  let content :=
    match IMessage.encryptedContent message with
    | Some enc =>
        if truthy enc && MessageType_eqb (IMessage.messageType message) TEXT then
          match decryptMessage ENCRYPTION_KEY enc with
          | Ok plain => Some plain
          | Throw _ => Some ENCRYPTED_PLACEHOLDER
          end
        else None
    | None => None
    end in
  MessageWithMetadata.mk
    (MessageMetadata.id metadata_)
    (MessageMetadata.conversationId metadata_)
    (MessageMetadata.senderId metadata_)
    (MessageMetadata.receiverId metadata_)
    (MessageMetadata.messageType metadata_)
    content
    (IMessage.mediaUrl message)
    (IMessage.mediaType message)
    (IMessage.mediaSize message)
    (IMessage.fileName message)
    (IMessage.thumbnailUrl message)
    (IMessage.replyToMessageId message)
    (MessageMetadata.isDelivered metadata_)
    (MessageMetadata.isRead metadata_)
    (MessageMetadata.deliveredAt metadata_)
    (MessageMetadata.readAt metadata_)
    (MessageMetadata.createdAt metadata_).

(** The text branch of [sendMessage]: validate, sanitize, encrypt. *)
Definition prepareText (content : jsstring) (messageData : CreateMessageData.t)
  : M CreateMessageData.t :=
  lift (validateMessageContent content) ;;;
  let sanitized := sanitizeMessageContent content in
  salt <- random ;;
  ivrand <- random ;;
  enc <- lift (encryptMessage ENCRYPTION_KEY salt ivrand sanitized) ;;
  ret (CreateMessageData.set_encryptedContent (encrypted enc) messageData).

(** "Prepare message data": the object literal of [sendMessage]. *)
Definition prepareMessageData (params : SendMessageParams.t)
  (conversation : Conversation.t) : CreateMessageData.t :=
  CreateMessageData.mk
    (Conversation.id conversation)
    (SendMessageParams.senderId params)
    (SendMessageParams.receiverId params)
    (SendMessageParams.messageType params)
    None
    (SendMessageParams.mediaUrl params)
    (SendMessageParams.mediaType params)
    (SendMessageParams.mediaSize params)
    (SendMessageParams.fileName params)
    (SendMessageParams.thumbnailUrl params)
    (SendMessageParams.replyToMessageId params).

(** "Encrypt text content if provided":
    [if (params.content && params.messageType === MessageType.TEXT)]. *)
Definition encryptContent (params : SendMessageParams.t)
  (messageData : CreateMessageData.t) : M CreateMessageData.t :=
  match SendMessageParams.content params with
  | Some content =>
      if truthy content
         && MessageType_eqb (SendMessageParams.messageType params) TEXT
      then prepareText content messageData
      else ret messageData
  | None => ret messageData
  end.

Definition sendMessage (params : SendMessageParams.t) : M MessageWithMetadata.t :=
  logged (
    conversation <-
      ConversationRepository.findOrCreateConversation
        (SendMessageParams.senderId params)
        (SendMessageParams.receiverId params) ;;
    isBlocked <-
      ConversationRepository.isConversationBlocked (Conversation.id conversation) ;;
    if isBlocked then throw ConversationBlocked
    else
      messageData <-
        encryptContent params (prepareMessageData params conversation) ;;
      '(message, metadata_) <- MessageRepository.createMessage messageData ;;
      let preview := generateMessagePreview params in
      ConversationRepository.updateLastMessage
        (Conversation.id conversation) preview
        (MessageMetadata.createdAt metadata_) ;;;
      ret (formatMessage message metadata_)).

Definition getConversationHistory (conversationId : nat) (page limit : nat)
  : M (list MessageWithMetadata.t * nat) :=
  logged (
    '(messages_, total) <-
      MessageRepository.getMessagesByConversation conversationId page limit ;;
    let formattedMessages :=
      map (fun '(message, metadata_) => formatMessage message metadata_) messages_ in
    ret (formattedMessages, total)).

End WithCodec.

Definition markMessagesAsRead (messageIds : list nat) (userId : jsstring) : M unit :=
  logged (MessageRepository.markAsRead messageIds).

Definition markMessageAsDelivered (messageId : nat) : M unit :=
  logged (MessageRepository.markAsDelivered messageId).

Definition deleteMessage (messageId : nat) (userId : jsstring) : M unit :=
  logged (MessageRepository.deleteMessage messageId userId).

Definition getUnreadCount (userId : jsstring) : M nat :=
  try_catch (MessageRepository.getUnreadCount userId None) (fun _ => ret 0).

Definition blockConversation (conversationId : nat) (userId : jsstring) : M unit :=
  logged (ConversationRepository.blockConversation conversationId userId).

Definition unblockConversation (conversationId : nat) : M unit :=
  logged (ConversationRepository.unblockConversation conversationId).

(** An entry of the list [getUserConversations] returns. *)
Record ConversationWithUnread : Type := mkConversationWithUnread {
  cu_id : nat;
  cu_participant1Id : jsstring;
  cu_participant2Id : jsstring;
  cu_lastMessageAt : option Z;
  cu_lastMessagePreview : option jsstring;
  cu_isBlocked : bool;
  cu_unreadCount : nat
}.

(** [Promise.all(list.map(async (x) => f x))]: the calls are issued in the
    order of the list, and the promise rejects with the first rejection. *)
Fixpoint Promise_all_map {A B} (f : A -> M B) (l : list A) : M (list B) :=
  match l with
  | [] => ret []
  | x :: l' =>
      y <- f x ;;
      ys <- Promise_all_map f l' ;;
      ret (y :: ys)
  end.

Definition getUserConversations (userId : jsstring) (page limit : nat)
  : M (list ConversationWithUnread * nat) :=
  logged (
    '(conversations_, total) <-
      ConversationRepository.getUserConversations userId page limit ;;
    conversationsWithUnread <-
      Promise_all_map (fun conv =>
          unreadCount <-
            MessageRepository.getUnreadCount userId (Some (Conversation.id conv)) ;;
          ret (mkConversationWithUnread
                 (Conversation.id conv)
                 (Conversation.participant1Id conv)
                 (Conversation.participant2Id conv)
                 (Conversation.lastMessageAt conv)
                 (Conversation.lastMessagePreview conv)
                 (Conversation.isBlocked conv)
                 unreadCount))
        conversations_ ;;
    ret (conversationsWithUnread, total)).

End ChatService.

(* ================================================================= *)
(** ** The service as a transition system *)

(** The state-changing entry points of [ChatService]; the socket handlers
    and resolvers reach the stores through these only. *)
Inductive Command : Type :=
| SendMessage (params : SendMessageParams.t)
| MarkMessagesAsRead (messageIds : list nat) (userId : jsstring)
| MarkMessageAsDelivered (messageId : nat)
| DeleteMessage (messageId : nat) (userId : jsstring)
| BlockConversation (conversationId : nat) (userId : jsstring)
| UnblockConversation (conversationId : nat).

(** What the environment fixes before a command runs. *)
Record Env : Type := mkEnv {
  env_clock : Z;
  env_faults : list bool;
  env_entropy : list N
}.

Definition enter (e : Env) (w : World) : World :=
  with_env (env_clock e) (env_faults e) (env_entropy e) w.

(** The world a deployment starts in. *)
Definition initial_world : World := mkWorld empty_store 0 [] [].

Section Transitions.
Context {codec : AES}.
Variable ENCRYPTION_KEY : jsstring.

Definition exec (c : Command) (w : World) : World :=
  match c with
  | SendMessage params => snd (ChatService.sendMessage ENCRYPTION_KEY params w)
  | MarkMessagesAsRead ids u => snd (ChatService.markMessagesAsRead ids u w)
  | MarkMessageAsDelivered i => snd (ChatService.markMessageAsDelivered i w)
  | DeleteMessage i u => snd (ChatService.deleteMessage i u w)
  | BlockConversation c u => snd (ChatService.blockConversation c u w)
  | UnblockConversation c => snd (ChatService.unblockConversation c w)
  end.

(** A run: each command in the environment chosen for it. *)
Fixpoint run (cs : list (Env * Command)) (w : World) : World :=
  match cs with
  | [] => w
  | (e, c) :: cs' => run cs' (exec c (enter e w))
  end.

(** The worlds a deployment started on empty stores can be in. *)
Definition reachable (w : World) : Prop :=
  exists cs e, w = enter e (run cs initial_world).

End Transitions.

(* ================================================================= *)
(** ** Properties of stores *)

(** At most one conversation row per unordered pair of participants. *)
Definition one_per_pair (table : list Conversation.t) : Prop :=
  forall a b,
    length (filter (ConversationRepository.pair_matches a b) table) <= 1.

(** The primary key of [conversations]. *)
Definition conversation_ids_unique (s : Store) : Prop :=
  NoDup (map Conversation.id (conversations s)).

(** Generated identifiers are fresh. *)
Definition conversation_ids_fresh (s : Store) : Prop :=
  Forall (fun c => Conversation.id c < nextId s) (conversations s).

(** The next [n] storage calls are answered. *)
Definition answered (n : nat) (w : World) : Prop :=
  forallb negb (firstn n (faults w)) = true.

(** [count P rows n]: exactly [n] of the rows satisfy [P]. *)
Inductive count {A : Type} (P : A -> Prop) : list A -> nat -> Prop :=
| count_nil : count P [] 0
| count_in x rows n : P x -> count P rows n -> count P (x :: rows) (S n)
| count_out x rows n : ~ P x -> count P rows n -> count P (x :: rows) n.


(** A stored message carries no media fields. *)
Definition no_media (m : IMessage.t) : Prop :=
  IMessage.mediaUrl m = None /\ IMessage.mediaType m = None
  /\ IMessage.mediaSize m = None /\ IMessage.fileName m = None
  /\ IMessage.thumbnailUrl m = None.

(** A stored message carries the media fields of the send that made it. *)
Definition media_of (params : SendMessageParams.t) (m : IMessage.t) : Prop :=
  IMessage.mediaUrl m = SendMessageParams.mediaUrl params
  /\ IMessage.mediaType m = SendMessageParams.mediaType params
  /\ IMessage.mediaSize m = SendMessageParams.mediaSize params
  /\ IMessage.fileName m = SendMessageParams.fileName params
  /\ IMessage.thumbnailUrl m = SendMessageParams.thumbnailUrl params.



(** The code units [sanitizeMessageContent] rewrites. *)
Definition markup (c : N) : bool :=
  existsb (N.eqb c) [60; 62; 34; 39; 47]%N.


(** [decryptMessage(encryptMessage(sanitizeMessageContent(text)).encrypted)] *)
Definition decrypt_encrypt_sanitized {codec : AES} (key : jsstring)
  (salt ivrand : N) (text : jsstring) : Result jsstring :=
  match encryptMessage key salt ivrand (sanitizeMessageContent text) with
  | Ok d => decryptMessage key (encrypted d)
  | Throw e => Throw e
  end.


(** [respects R m]: whatever [m] does to the stores is a step of [R]. *)
Definition respects {A} (R : Store -> Store -> Prop) (m : M A) : Prop :=
  forall w, R (store w) (store (snd (m w))).


(** Generated identifiers of metadata rows are fresh. *)
Definition metadata_ids_fresh (s : Store) : Prop :=
  Forall (fun m => MessageMetadata.id m < nextId s) (metadata s).

(** Every conversation row holds its pair in sorted order. *)
Definition canonical_table (table : list Conversation.t) : Prop :=
  Forall (fun c => str_ltb (Conversation.participant2Id c)
                     (Conversation.participant1Id c) = false) table.

(** What the databases, the identifier generator and the repository
    guarantee. *)
Definition store_ok (s : Store) : Prop :=
  one_per_pair (conversations s)
  /\ conversation_ids_unique s
  /\ conversation_ids_fresh s
  /\ metadata_ids_fresh s
  /\ canonical_table (conversations s).

(** [m'] is a later state of the metadata row [m]: the same message, and
    no flag taken back. *)
Definition later_version (m m' : MessageMetadata.t) : Prop :=
  MessageMetadata.id m' = MessageMetadata.id m
  /\ MessageMetadata.conversationId m' = MessageMetadata.conversationId m
  /\ MessageMetadata.mongoMessageId m' = MessageMetadata.mongoMessageId m
  /\ MessageMetadata.senderId m' = MessageMetadata.senderId m
  /\ MessageMetadata.receiverId m' = MessageMetadata.receiverId m
  /\ (MessageMetadata.isDelivered m = true -> MessageMetadata.isDelivered m' = true)
  /\ (MessageMetadata.isRead m = true -> MessageMetadata.isRead m' = true)
  /\ (MessageMetadata.isDeleted m = true -> MessageMetadata.isDeleted m' = true).

(** [evolves s s']: from [s] to [s'] no document and no row was removed,
    rows only moved to later versions, and what was added carries
    identifiers generated since. *)
Definition evolves (s s' : Store) : Prop :=
  nextId s <= nextId s'
  /\ (forall i x, nth_error (messages s) i = Some x ->
                  nth_error (messages s') i = Some x)
  /\ (forall i m, nth_error (metadata s) i = Some m ->
        exists m', nth_error (metadata s') i = Some m' /\ later_version m m')
  /\ (forall i m', nth_error (metadata s') i = Some m' ->
        nth_error (metadata s) i = None -> nextId s <= MessageMetadata.id m').




(** [c'] is the row [c] after an update that leaves its key columns. *)
Definition same_conversation (c c' : Conversation.t) : Prop :=
  Conversation.id c' = Conversation.id c
  /\ Conversation.participant1Id c' = Conversation.participant1Id c
  /\ Conversation.participant2Id c' = Conversation.participant2Id c.

(** A step of the stores that keeps what the databases guarantee. *)
Definition keeps_ok (s s' : Store) : Prop := store_ok s -> store_ok s'.

(** What a document written by a send with [params] looks like: the type
    and the media fields are those of [params], and only a text carries an
    encrypted body. *)
Definition written_by (params : SendMessageParams.t) (m : IMessage.t) : Prop :=
  IMessage.messageType m = SendMessageParams.messageType params
  /\ media_of params m
  /\ (IMessage.messageType m <> TEXT -> IMessage.encryptedContent m = None).

(* ================================================================= *)
(** ** A small cipher, to run the service on concrete inputs *)

Module XorCodec.

Definition pad (k : jsstring) (salt : N) : N := N.of_nat (length k) + salt.

Definition codec : AES := {|
  aes_encrypt p k salt :=
    if forallb (fun c => N.ltb c 65536) p
    then Some (salt :: map (N.lxor (pad k salt)) p)
    else None;
  aes_decrypt c k :=
    match c with
    | [] => None
    | salt :: body => Some (map (N.lxor (pad k salt)) body)
    end;
  aes_accepts p := forallb (fun c => N.ltb c 65536) p
|}.

Definition key : jsstring := js "default-secret-key-change-in-production".

End XorCodec.

(* ================================================================= *)
(** ** A scenario: two users and a first message *)

Module Scenario.

Definition alice : jsstring := js "alice".
Definition bob : jsstring := js "bob".

Definition at_time (t : Z) : Env := mkEnv t [] [7; 9]%N.

Definition hello : SendMessageParams.t :=
  SendMessageParams.mk alice bob TEXT (Some (js "Hello"))
    None None None None None None.

(** Bob's answers: a text, and a picture. *)
Definition reply : SendMessageParams.t :=
  SendMessageParams.mk bob alice TEXT (Some (js "Hi"))
    None None None None None None.

Definition photo : SendMessageParams.t :=
  SendMessageParams.mk bob alice IMAGE None
    (Some (js "https://cdn/p.jpg")) (Some (js "image/jpeg")) (Some 512%N)
    (Some (js "p.jpg")) None None.

(** A text message whose content is the empty string. *)
Definition blank : SendMessageParams.t :=
  SendMessageParams.mk alice bob TEXT (Some [])
    None None None None None None.

(** A text message that also names a media file. *)
Definition captioned : SendMessageParams.t :=
  SendMessageParams.mk alice bob TEXT (Some (js "look"))
    (Some (js "https://cdn/p.jpg")) (Some (js "image/jpeg")) (Some 512%N)
    (Some (js "p.jpg")) (Some (js "https://cdn/t.jpg")) None.

(** Alice has sent "Hello" to Bob: conversation 0, document 1, row 2. *)
Definition after_hello : World :=
  run (codec := XorCodec.codec) XorCodec.key [(at_time 1000, SendMessage hello)] initial_world.

(** Then Alice has blocked the conversation. *)
Definition after_block : World :=
  run (codec := XorCodec.codec) XorCodec.key [(at_time 1500, BlockConversation 0 alice)] after_hello.

(** Bob has answered; then the cipher text of Alice's message (document 1)
    has been damaged in the collection. *)
Definition after_reply : World :=
  run (codec := XorCodec.codec) XorCodec.key
    [(at_time 1100, SendMessage reply)] after_hello.

Definition damage (m : IMessage.t) : IMessage.t :=
  if Nat.eqb (IMessage._id m) 1 then
    IMessage.mk (IMessage._id m) (IMessage.conversationId m)
      (IMessage.senderId m) (IMessage.receiverId m) (IMessage.messageType m)
      (Some [5%N]) (IMessage.mediaUrl m) (IMessage.mediaType m)
      (IMessage.mediaSize m) (IMessage.fileName m) (IMessage.thumbnailUrl m)
      (IMessage.replyToMessageId m) (IMessage.createdAt m)
      (IMessage.updatedAt m)
  else m.

Definition after_damage : World :=
  with_store
    (mkStore (conversations (store after_reply)) (metadata (store after_reply))
       (map damage (messages (store after_reply))) (nextId (store after_reply)))
    (enter (at_time 2000) after_reply).

End Scenario.

(* ================================================================= *)
(** ** socket/handlers/chatHandler.ts *)

Module ChatHandler.

(** What a failed acknowledgement carries: the handler's own message, or
    the message of the error the service threw. *)
Inductive Reason : Type :=
| FieldsRequired            (* "receiverId and messageType are required" *)
| MessageIdsRequired        (* "messageIds array is required" *)
| ConversationIdRequired    (* "conversationId is required" *)
| MessageIdRequired         (* "messageId is required" *)
| Thrown (e : Error).

(** [callback({ success: true, ... })] and [callback({ success: false, error })] *)
Inductive Ack (A : Type) : Type :=
| Success (a : A)
| Failure (r : Reason).

Arguments Success {A} a.
Arguments Failure {A} r.

(** [io.to(room).emit(event, payload)] *)
Inductive Push : Type :=
| new_message (room : jsstring) (message : MessageWithMetadata.t)
| message_delivered (room : jsstring) (messageId : nat) (deliveredAt : Z)
| messages_read (room : jsstring) (messageIds : list nat) (readAt : Z)
    (readBy : jsstring).

(** The payload of [send_message]; a message type, when present, is one of
    the four of the enum. *)
Record SendMessageData : Type := mkSendMessageData {
  receiverId : option jsstring;
  messageType : option MessageType;
  content : option jsstring;
  mediaUrl : option jsstring;
  mediaType : option jsstring;
  mediaSize : option N;
  fileName : option jsstring;
  thumbnailUrl : option jsstring;
  replyToMessageId : option jsstring
}.

Section WithCodec.
Context {codec : AES}.
Variable ENCRYPTION_KEY : jsstring.

(** [socket.on("send_message", ...)] for the socket of [userId]: the
    acknowledgement, the pushes, and the world after. *)
Definition send_message (userId : jsstring) (data : SendMessageData) (w : World)
  : (Ack MessageWithMetadata.t * list Push) * World :=
  match receiverId data, messageType data with
  | Some receiver, Some type =>
      if truthy receiver then
        match ChatService.sendMessage ENCRYPTION_KEY
                (SendMessageParams.mk userId receiver type (content data)
                   (mediaUrl data) (mediaType data) (mediaSize data)
                   (fileName data) (thumbnailUrl data) (replyToMessageId data))
                w with
        | (Ok message, w') =>
            ((Success message, [new_message receiver message]), w')
        | (Throw e, w') => ((Failure (Thrown e), []), w')
        end
      else ((Failure FieldsRequired, []), w)
  | _, _ => ((Failure FieldsRequired, []), w)
  end.

End WithCodec.




(** [socket.on("get_unread_count", ...)] *)
Definition get_unread_count (userId : jsstring) (w : World) : Ack nat * World :=
  match ChatService.getUnreadCount userId w with
  | (Ok count, w') => (Success count, w')
  | (Throw e, w') => (Failure (Thrown e), w')
  end.

End ChatHandler.

(* ================================================================= *)
(** ** config/redis.ts: the cache the presence and typing handlers use *)

Module Redis.

Record Entry : Type := mkEntry {
  value : jsstring;
  expiresAt : Z            (* milliseconds *)
}.

Record t : Type := mk {
  entries : list (jsstring * Entry);
  time : Z;                (* what [Date.now()] and the server read *)
  rejections : list bool   (* for each coming command: does it reject? *)
}.

Definition empty : t := mk [] 0 [].

(** Time passes and the coming rejections are chosen. *)
Definition at_time (now : Z) (rs : list bool) (r : t) : t := mk (entries r) now rs.

Definition after_command (r : t) : t :=
  mk (entries r) (time r) (tl (rejections r)).

(** The entry of a key, when it has one that has not expired. *)
Definition lookup (key : jsstring) (r : t) : option Entry :=
  match find (fun kv => str_eqb (fst kv) key) (entries r) with
  | Some (_, e) => if Z.leb (time r) (expiresAt e) then Some e else None
  | None => None
  end.

Definition without (key : jsstring) (l : list (jsstring * Entry))
  : list (jsstring * Entry) :=
  filter (fun kv => negb (str_eqb (fst kv) key)) l.

(** [redisClient.setex(key, seconds, value)] *)
Definition setex (key : jsstring) (seconds : Z) (v : jsstring) (r : t)
  : Result unit * t :=
  if hd false (rejections r) then (Throw StorageError, after_command r)
  else
    (Ok tt,
     mk ((key, mkEntry v (time r + seconds * 1000)) :: without key (entries r))
        (time r) (tl (rejections r))).

(** [redisClient.get(key)] *)
Definition get (key : jsstring) (r : t) : Result (option jsstring) * t :=
  if hd false (rejections r) then (Throw StorageError, after_command r)
  else (Ok (option_map value (lookup key r)), after_command r).

(** [redisClient.del(key)] *)
Definition del (key : jsstring) (r : t) : Result unit * t :=
  if hd false (rejections r) then (Throw StorageError, after_command r)
  else (Ok tt, mk (without key (entries r)) (time r) (tl (rejections r))).

(** [redisClient.exists(key)] *)
Definition exists_ (key : jsstring) (r : t) : Result N * t :=
  if hd false (rejections r) then (Throw StorageError, after_command r)
  else (Ok (match lookup key r with Some _ => 1%N | None => 0%N end),
        after_command r).

End Redis.

(* ================================================================= *)
(** ** socket/handlers/statusHandler.ts *)

Module StatusHandler.

Record UserStatus : Type := mkUserStatus {
  online : bool;
  lastSeen : Z;
  socketId : jsstring
}.

(** [JSON.stringify] and [JSON.parse] on a [UserStatus]; [None] is a
    thrown [SyntaxError]. *)
Class JSON : Type := {
  stringify : UserStatus -> jsstring;
  parse : jsstring -> option UserStatus
}.

Class JSONCorrect (json : JSON) : Prop := {
  parse_stringify : forall s, parse (stringify s) = Some s;
  stringify_truthy : forall s, truthy (stringify s) = true
}.

Definition USER_STATUS_PREFIX : jsstring := js "user:status:".
Definition USER_STATUS_TTL : Z := 300.

Definition status_key (userId : jsstring) : jsstring :=
  USER_STATUS_PREFIX ++ userId.

Section WithJSON.
Context {json : JSON}.

(** The [catch] of each of the four only logs. *)
Definition setUserOnline (userId socketId_ : jsstring) (r : Redis.t) : Redis.t :=
  let status := mkUserStatus true (Redis.time r) socketId_ in
  snd (Redis.setex (status_key userId) USER_STATUS_TTL (stringify status) r).

Definition setUserOffline (userId : jsstring) (r : Redis.t) : Redis.t :=
  let status := mkUserStatus false (Redis.time r) [] in
  snd (Redis.setex (status_key userId) USER_STATUS_TTL (stringify status) r).

Definition getUserStatus (userId : jsstring) (r : Redis.t)
  : option UserStatus * Redis.t :=
  match Redis.get (status_key userId) r with
  | (Ok (Some statusStr), r') =>
      if negb (truthy statusStr) then (None, r') else (parse statusStr, r')
  | (Ok None, r') => (None, r')
  | (Throw _, r') => (None, r')
  end.

Definition refreshUserStatus (userId : jsstring) (r : Redis.t) : Redis.t :=
  match getUserStatus userId r with
  | (Some status, r') =>
      if online status then
        snd (Redis.setex (status_key userId) USER_STATUS_TTL
               (stringify (mkUserStatus (online status) (Redis.time r')
                             (socketId status)))
               r')
      else r'
  | (None, r') => r'
  end.

End WithJSON.

End StatusHandler.

(* ================================================================= *)
(** ** socket/handlers/typingHandler.ts *)

Module TypingHandler.

Definition TYPING_PREFIX : jsstring := js "typing:".
Definition TYPING_TTL : Z := 5.

(** [`${TYPING_PREFIX}${conversationId}:${userId}`] *)
Definition typing_key (conversationId userId : jsstring) : jsstring :=
  TYPING_PREFIX ++ conversationId ++ js ":" ++ userId.

(** [io.to(room).emit(event, { conversationId, userId, timestamp })] *)
Inductive Push : Type :=
| user_typing (room conversationId userId : jsstring) (timestamp : Z)
| user_stopped_typing (room conversationId userId : jsstring) (timestamp : Z).

(** [socket.on("typing_start", ...)] for the socket of [userId]. *)
Definition typing_start (userId conversationId receiverId : jsstring)
  (r : Redis.t) : list Push * Redis.t :=
  match Redis.setex (typing_key conversationId userId) TYPING_TTL (js "1") r with
  | (Ok _, r') =>
      ([user_typing receiverId conversationId userId (Redis.time r')], r')
  | (Throw _, r') => ([], r')
  end.

(** [socket.on("typing_stop", ...)] *)
Definition typing_stop (userId conversationId receiverId : jsstring)
  (r : Redis.t) : list Push * Redis.t :=
  match Redis.del (typing_key conversationId userId) r with
  | (Ok _, r') =>
      ([user_stopped_typing receiverId conversationId userId (Redis.time r')], r')
  | (Throw _, r') => ([], r')
  end.

(** [socket.on("check_typing", ...)]: the acknowledgement. *)
Definition check_typing (conversationId userId : jsstring) (r : Redis.t)
  : Result bool * Redis.t :=
  match Redis.exists_ (typing_key conversationId userId) r with
  | (Ok isTyping, r') => (Ok (N.eqb isTyping 1), r')
  | (Throw e, r') => (Throw e, r')
  end.

End TypingHandler.

(** A serializer of [UserStatus], to run the presence functions on
    concrete inputs. *)
Module FlatJSON.

Definition json : StatusHandler.JSON := {|
  StatusHandler.stringify s :=
    (if StatusHandler.online s then 1%N else 0%N)
    :: (if Z.ltb (StatusHandler.lastSeen s) 0 then 1%N else 0%N)
    :: Z.abs_N (StatusHandler.lastSeen s)
    :: StatusHandler.socketId s;
  StatusHandler.parse l :=
    match l with
    | o :: sg :: mag :: sid =>
        Some (StatusHandler.mkUserStatus (N.eqb o 1)
                (if N.eqb sg 1 then Z.opp (Z.of_N mag) else Z.of_N mag) sid)
    | _ => None
    end
|}.

End FlatJSON.

(* ================================================================= *)
(** ** Further properties of stores *)

(** The primary key of [message_metadata]. *)
Definition metadata_ids_unique (s : Store) : Prop :=
  NoDup (map MessageMetadata.id (metadata s)).

(** Every metadata row refers to a stored document. *)
Definition payloads_present (s : Store) : Prop :=
  forall md, In md (metadata s) ->
    exists m, In m (messages s)
              /\ IMessage._id m = MessageMetadata.mongoMessageId md.

(** The previews fit their column, [varchar(500)]. *)
Definition previews_bounded (s : Store) : Prop :=
  Forall (fun c => match Conversation.lastMessagePreview c with
                   | Some p => length p <= 500
                   | None => True
                   end) (conversations s).

(** No row refers to a document identifier not generated yet. *)
Definition payload_refs_fresh (s : Store) : Prop :=
  Forall (fun md => MessageMetadata.mongoMessageId md < nextId s) (metadata s).

Definition store_sound (s : Store) : Prop :=
  store_ok s /\ metadata_ids_unique s /\ payloads_present s
  /\ previews_bounded s /\ payload_refs_fresh s.

Definition keeps_sound (s s' : Store) : Prop := store_sound s -> store_sound s'.

(** Rows from the newest to the oldest. *)
Fixpoint newest_first (l : list MessageMetadata.t) : Prop :=
  match l with
  | [] => True
  | x :: l' =>
      Forall (fun y => (MessageMetadata.createdAt y <= MessageMetadata.createdAt x)%Z) l'
      /\ newest_first l'
  end.

(** The live rows of a conversation: what its history is made of. *)
Definition live_in (conversationId : nat) (m : MessageMetadata.t) : bool :=
  Nat.eqb (MessageMetadata.conversationId m) conversationId
  && negb (MessageMetadata.isDeleted m).

(** A conversation of a user. *)
Definition participant (userId : jsstring) (c : Conversation.t) : Prop :=
  Conversation.participant1Id c = userId \/ Conversation.participant2Id c = userId.

(** The items of a page: one for each row whose document was fetched. *)
Definition page_items (docs : list IMessage.t) (rows : list MessageMetadata.t)
  : list (IMessage.t * MessageMetadata.t) :=
  flat_map (fun md =>
      match find (fun m => Nat.eqb (IMessage._id m)
                             (MessageMetadata.mongoMessageId md)) docs with
      | Some message => [(message, md)]
      | None => []
      end) rows.




(** The entry [ChatService.getUserConversations] makes of a row and a
    count. *)
Definition with_unread (c : Conversation.t) (unreadCount : nat)
  : ChatService.ConversationWithUnread :=
  ChatService.mkConversationWithUnread (Conversation.id c)
    (Conversation.participant1Id c) (Conversation.participant2Id c)
    (Conversation.lastMessageAt c) (Conversation.lastMessagePreview c)
    (Conversation.isBlocked c) unreadCount.

(** The unread messages of a user in a conversation. *)
Definition unread_in (userId : jsstring) (s : Store) (c : Conversation.t) : nat :=
  length (filter (MessageRepository.unread_where userId (Some (Conversation.id c)))
            (metadata s)).


(** Generated identifiers of documents are fresh, hence distinct. *)
Definition documents_unique (s : Store) : Prop :=
  NoDup (map IMessage._id (messages s))
  /\ Forall (fun m => IMessage._id m < nextId s) (messages s).

Definition keeps_documents (s s' : Store) : Prop :=
  documents_unique s -> documents_unique s'.


(** Every metadata row belongs to a conversation between its sender and
    its receiver. *)
Definition rows_have_conversation (s : Store) : Prop :=
  forall md, In md (metadata s) ->
    exists c, In c (conversations s)
              /\ Conversation.id c = MessageMetadata.conversationId md
              /\ ConversationRepository.pair_matches (MessageMetadata.senderId md)
                   (MessageMetadata.receiverId md) c = true.

(** No conversation row is removed, and none changes its key columns. *)
Definition conversations_kept (s s' : Store) : Prop :=
  forall c, In c (conversations s) ->
    exists c', In c' (conversations s') /\ same_conversation c c'.


(* ================================================================= *)
(** * Theorems *)

(** ** Strings *)

Lemma str_eqb_eq (a b : jsstring) : str_eqb a b = true <-> a = b.
Proof.
  revert b; induction a as [|x a IH]; intros [|y b]; simpl;
    try (split; (reflexivity || discriminate)).
  rewrite andb_true_iff, N.eqb_eq, IH.
  split; [intros [-> ->]; reflexivity | intros H; inversion H; auto].
Qed.

Lemma str_eqb_refl (a : jsstring) : str_eqb a a = true.
Proof. apply str_eqb_eq; reflexivity. Qed.

Lemma str_eqb_neq (a b : jsstring) : str_eqb a b = false <-> a <> b.
Proof.
  rewrite <- str_eqb_eq. destruct (str_eqb a b); split; congruence.
Qed.

Lemma str_eqb_sym (a b : jsstring) : str_eqb a b = str_eqb b a.
Proof.
  destruct (str_eqb a b) eqn:E.
  - apply str_eqb_eq in E; subst; symmetry; apply str_eqb_refl.
  - symmetry; apply str_eqb_neq; apply str_eqb_neq in E; congruence.
Qed.

Lemma str_ltb_asym (a b : jsstring) : str_ltb a b = true -> str_ltb b a = false.
Proof.
  revert b; induction a as [|x a IH]; intros [|y b]; simpl; try congruence.
  destruct (N.ltb_spec x y), (N.ltb_spec y x); try congruence; try lia.
  apply IH.
Qed.


Lemma sort2_sorted (a b : jsstring) :
  str_ltb (snd (sort2 a b)) (fst (sort2 a b)) = false.
Proof.
  unfold sort2. destruct (str_ltb b a) eqn:L; simpl;
    [apply str_ltb_asym; exact L | exact L].
Qed.


Lemma trimStart_nil_iff (s : jsstring) :
  trimStart s = [] <-> forallb is_whitespace s = true.
Proof.
  induction s as [|c s IH]; simpl; [tauto|].
  destruct (is_whitespace c); simpl; [exact IH | split; discriminate].
Qed.

(** [trim] leaves nothing exactly of the strings made of white space. *)
Lemma trim_nil_iff (s : jsstring) :
  trim s = [] <-> forallb is_whitespace s = true.
Proof.
  unfold trim, trimEnd. split.
  - intros H. apply trimStart_nil_iff.
    destruct (trimStart s) as [|c r] eqn:E; [reflexivity|].
    assert (Hr : trimStart (rev (c :: r)) = []).
    { apply (f_equal (@rev N)) in H. rewrite rev_involutive in H. exact H. }
    apply trimStart_nil_iff in Hr.
    rewrite forallb_forall in Hr.
    assert (Hc : is_whitespace c = false).
    { clear -E. induction s as [|x s IH]; simpl in E; [discriminate|].
      destruct (is_whitespace x) eqn:Hx; [auto | congruence]. }
    specialize (Hr c). rewrite <- in_rev in Hr.
    rewrite Hr in Hc; [discriminate | left; reflexivity].
  - intros H. apply trimStart_nil_iff in H. rewrite H. reflexivity.
Qed.

(** ** Sanitization *)

Lemma replaceAll_plain (c : N) (r s : jsstring) :
  Forall (fun x => x <> c) s -> replaceAll c r s = s.
Proof.
  induction 1 as [|x s Hx _ IH]; simpl; [reflexivity|].
  apply N.eqb_neq in Hx. rewrite Hx. simpl. f_equal. exact IH.
Qed.

Lemma replaceAll_clean (P : N -> Prop) (c : N) (r s : jsstring) :
  Forall P r -> (forall x, In x s -> x <> c -> P x) ->
  Forall P (replaceAll c r s).
Proof.
  intros Hr. induction s as [|x s IH]; simpl; intros Hs; [constructor|].
  apply Forall_app; split.
  - destruct (N.eqb_spec x c); [exact Hr|].
    constructor; [apply Hs; auto | constructor].
  - apply IH. intros y Hy. apply Hs; auto.
Qed.

Lemma sanitize_no_markup (s : jsstring) :
  Forall (fun x => markup x = false) (sanitizeMessageContent s).
Proof.
  unfold sanitizeMessageContent.
  assert (step : forall (l : list N) c r s0,
             In c l ->
             Forall (fun x => markup x = false) r ->
             Forall (fun x => existsb (N.eqb x) l = false -> markup x = false) s0 ->
             Forall (fun x => existsb (N.eqb x) (List.remove N.eq_dec c l) = false
                              -> markup x = false)
               (replaceAll c r s0)).
  { intros l c r s0 Hc Hr Hs. apply replaceAll_clean.
    - eapply Forall_impl; [|exact Hr]. auto.
    - intros x Hx Hne Hrem. rewrite Forall_forall in Hs. apply Hs; [exact Hx|].
      clear -Hne Hrem. induction l as [|y l IH]; simpl in *; [reflexivity|].
      destruct (N.eq_dec c y) as [->|Hcy].
      + apply N.eqb_neq in Hne. rewrite Hne. simpl. auto.
      + simpl in Hrem. apply orb_false_iff in Hrem as [-> Hrem]. simpl. auto. }
  assert (H0 : Forall (fun x => existsb (N.eqb x) [60; 62; 34; 39; 47]%N = false
                                -> markup x = false) s).
  { apply Forall_forall. intros x _ H. exact H. }
  assert (plain : forall r, forallb (fun x => negb (markup x)) r = true ->
                            Forall (fun x => markup x = false) r).
  { intros r Hr. rewrite forallb_forall in Hr. apply Forall_forall.
    intros x Hx. apply Hr in Hx. destruct (markup x); [discriminate|reflexivity]. }
  apply (step _ 60%N (js "&lt;")) in H0; [|simpl; tauto|apply plain; reflexivity].
  apply (step _ 62%N (js "&gt;")) in H0; [|simpl; tauto|apply plain; reflexivity].
  apply (step _ 34%N (js "&quot;")) in H0; [|simpl; tauto|apply plain; reflexivity].
  apply (step _ 39%N (js "&#x27;")) in H0; [|simpl; tauto|apply plain; reflexivity].
  apply (step _ 47%N (js "&#x2F;")) in H0; [|simpl; tauto|apply plain; reflexivity].
  eapply Forall_impl; [|exact H0]. simpl. auto.
Qed.

Lemma sanitize_plain (s : jsstring) :
  Forall (fun x => markup x = false) s -> sanitizeMessageContent s = s.
Proof.
  intros H. unfold sanitizeMessageContent.
  assert (E : forall c r, markup c = true -> replaceAll c r s = s).
  { intros c r Hc. apply replaceAll_plain. eapply Forall_impl; [|exact H].
    simpl. intros x Hx ->. congruence. }
  rewrite (E 60%N), (E 62%N), (E 34%N), (E 39%N), (E 47%N); reflexivity.
Qed.

Lemma sanitize_idempotent (x : jsstring) :
  sanitizeMessageContent (sanitizeMessageContent x) = sanitizeMessageContent x.
Proof. apply sanitize_plain, sanitize_no_markup. Qed.

Lemma replaceAll_nil_iff (c : N) (r s : jsstring) :
  r <> [] -> (replaceAll c r s = [] <-> s = []).
Proof.
  intros Hr. destruct s as [|x s]; simpl; [tauto|].
  split; [|discriminate].
  destruct (N.eqb x c); [|discriminate].
  destruct r; [congruence | discriminate].
Qed.

(** Only the empty string sanitizes to the empty string. *)
Lemma sanitize_nil_iff (s : jsstring) : sanitizeMessageContent s = [] <-> s = [].
Proof.
  unfold sanitizeMessageContent.
  rewrite !replaceAll_nil_iff by discriminate. tauto.
Qed.

(** ** The codec *)

(** Whatever the cipher, [decryptMessage] never returns the empty string. *)
Lemma decryptMessage_not_empty {codec : AES} (key enc : jsstring) :
  decryptMessage key enc <> Ok [].
Proof.
  unfold decryptMessage.
  destruct (aes_decrypt enc key) as [[|c p]|]; simpl; discriminate.
Qed.

Lemma XorCodec_lawful : AESCorrect XorCodec.codec.
Proof.
  split.
  - intros p k salt H. simpl in *. rewrite H. discriminate.
  - intros p k salt c. simpl.
    destruct (forallb _ p); [|discriminate].
    intros H; inversion H; subst; clear H. f_equal.
    rewrite map_map. rewrite <- (map_id p) at 2. apply map_ext.
    intros x. rewrite <- N.lxor_assoc, N.lxor_nilpotent, N.lxor_0_l. reflexivity.
Qed.

(** C6 (amended).  Sanitization is idempotent on every string; and for every
    text that is not empty and that the cipher can encode, encrypting the
    sanitized text succeeds and decrypting the result gives the sanitized
    text back. *)
Theorem sanitize_idempotent_and_roundtrip :
  (forall x : jsstring,
      sanitizeMessageContent (sanitizeMessageContent x) = sanitizeMessageContent x)
  /\
  (forall (codec : AES) (lawful : AESCorrect codec) (key : jsstring)
          (salt ivrand : N) (text : jsstring),
      text <> [] ->
      aes_accepts (sanitizeMessageContent text) = true ->
      decrypt_encrypt_sanitized key salt ivrand text
      = Ok (sanitizeMessageContent text)).
Proof.
  split; [exact sanitize_idempotent|].
  intros codec lawful key salt ivrand text Hne Hacc.
  unfold decrypt_encrypt_sanitized, encryptMessage.
  destruct (aes_encrypt (sanitizeMessageContent text) key salt) as [c|] eqn:E.
  - simpl. unfold decryptMessage.
    rewrite (aes_decrypt_encrypt _ _ _ E).
    destruct (sanitizeMessageContent text) eqn:S; [|reflexivity].
    apply (proj1 (sanitize_nil_iff text)) in S. contradiction.
  - exfalso. exact (aes_encrypt_total _ key salt Hacc E).
Qed.

Lemma sanitize_idempotent_and_roundtrip_witness :
  decrypt_encrypt_sanitized (codec := XorCodec.codec) XorCodec.key 7 9
    (js "<b>it's</b>")
  = Ok (sanitizeMessageContent (js "<b>it's</b>")).
Proof.
  apply (proj2 sanitize_idempotent_and_roundtrip XorCodec.codec XorCodec_lawful).
  - discriminate.
  - reflexivity.
Defined.

(** C6, as first stated, fails at the empty text: its encryption decrypts
    to the empty string, which [decryptMessage] rejects. *)
Lemma roundtrip_fails_on_empty_text :
  decrypt_encrypt_sanitized (codec := XorCodec.codec) XorCodec.key 7 9 []
  = Throw DecryptFailed
  /\ decrypt_encrypt_sanitized (codec := XorCodec.codec) XorCodec.key 7 9 []
     <> Ok (sanitizeMessageContent []).
Proof. split; [reflexivity | discriminate]. Qed.

(** ** Validation *)

Lemma validate_cases (content : jsstring) :
  validateMessageContent content =
  if forallb is_whitespace content then Throw EmptyContent
  else if Nat.ltb MAX_MESSAGE_LENGTH (length content) then Throw TooLong
  else Ok true.
Proof.
  unfold validateMessageContent.
  set (long := Nat.ltb MAX_MESSAGE_LENGTH (length content)).
  destruct (forallb is_whitespace content) eqn:W.
  - apply trim_nil_iff in W. rewrite W. simpl. rewrite orb_true_r. reflexivity.
  - destruct content as [|c r]; [discriminate|].
    destruct (trim (c :: r)) eqn:T; [|reflexivity].
    apply trim_nil_iff in T. congruence.
Qed.

Lemma validate_blank (content : jsstring) :
  forallb is_whitespace content = true ->
  validateMessageContent content = Throw EmptyContent.
Proof. intros H. rewrite validate_cases, H. reflexivity. Qed.

Lemma validate_too_long (content : jsstring) :
  forallb is_whitespace content = false ->
  MAX_MESSAGE_LENGTH < length content ->
  validateMessageContent content = Throw TooLong.
Proof.
  intros H L. rewrite validate_cases, H.
  apply Nat.ltb_lt in L. rewrite L. reflexivity.
Qed.

Lemma validate_ok (content : jsstring) :
  forallb is_whitespace content = false ->
  length content <= MAX_MESSAGE_LENGTH ->
  validateMessageContent content = Ok true.
Proof.
  intros H L. rewrite validate_cases, H.
  apply Nat.ltb_ge in L. rewrite L. reflexivity.
Qed.

(** ** Running computations *)

Lemma logged_run {A} (m : M A) (w : World) : logged m w = m w.
Proof.
  unfold logged, try_catch, throw. destruct (m w) as [[a|e] w']; reflexivity.
Qed.

Lemma store_after_await (w : World) : store (after_await w) = store w.
Proof. reflexivity. Qed.

Section Respects.
Variable R : Store -> Store -> Prop.
Hypothesis R_refl : forall s, R s s.
Hypothesis R_trans : forall s1 s2 s3, R s1 s2 -> R s2 s3 -> R s1 s3.

Lemma respects_ret {A} (a : A) : respects R (ret a).
Proof. intros w. apply R_refl. Qed.

Lemma respects_throw {A} (e : Error) : respects R (@throw A e).
Proof. intros w. apply R_refl. Qed.

Lemma respects_lift {A} (r : Result A) : respects R (lift r).
Proof. intros w. apply R_refl. Qed.

Lemma respects_now : respects R now.
Proof. intros w. apply R_refl. Qed.

Lemma respects_random : respects R random.
Proof. intros w. apply R_refl. Qed.

Lemma respects_get_store : respects R get_store.
Proof. intros w. apply R_refl. Qed.

Lemma respects_await : respects R await_storage.
Proof.
  intros w. unfold await_storage. destruct (hd false (faults w)); apply R_refl.
Qed.

Lemma respects_bind {A B} (m : M A) (k : A -> M B) :
  respects R m -> (forall a, respects R (k a)) -> respects R (bind m k).
Proof.
  intros Hm Hk w. unfold bind. specialize (Hm w).
  destruct (m w) as [[a|e] w']; simpl in *; [|exact Hm].
  eapply R_trans; [exact Hm | apply Hk].
Qed.

Lemma respects_try_catch {A} (m : M A) (h : Error -> M A) :
  respects R m -> (forall e, respects R (h e)) -> respects R (try_catch m h).
Proof.
  intros Hm Hh w. unfold try_catch. specialize (Hm w).
  destruct (m w) as [[a|e] w']; simpl in *; [exact Hm|].
  eapply R_trans; [exact Hm | apply Hh].
Qed.

Lemma respects_logged {A} (m : M A) : respects R m -> respects R (logged m).
Proof. intros Hm w. rewrite logged_run. apply Hm. Qed.

(** A storage call that rewrites the stores by [f] when it is answered. *)
Lemma respects_write (f : Store -> Store) :
  (forall s, R s (f s)) ->
  respects R (await_storage ;;; s <- get_store ;; put_store (f s)).
Proof.
  intros Hf w. unfold bind, await_storage, get_store, put_store.
  destruct (hd false (faults w)); simpl; [apply R_refl | apply Hf].
Qed.

End Respects.

(** Reads leave the stores as they are. *)
Lemma conversation_findOne_run (p : Conversation.t -> bool) (w : World) :
  ConversationRepository.findOne p w =
  (if hd false (faults w) then Throw StorageError
   else Ok (find p (conversations (store w))),
   after_await w).
Proof.
  unfold ConversationRepository.findOne, bind, await_storage, get_store, ret.
  destruct (hd false (faults w)); reflexivity.
Qed.

Lemma isConversationBlocked_run (cid : nat) (w : World) :
  ConversationRepository.isConversationBlocked cid w =
  (Ok (if hd false (faults w) then false
       else match find (fun c => Nat.eqb (Conversation.id c) cid)
                    (conversations (store w)) with
            | Some c => Conversation.isBlocked c
            | None => false
            end),
   after_await w).
Proof.
  unfold ConversationRepository.isConversationBlocked, try_catch, bind.
  rewrite conversation_findOne_run.
  destruct (hd false (faults w)); [reflexivity|].
  unfold ret. destruct (find _ _); [rewrite orb_false_r|]; reflexivity.
Qed.

Lemma conversation_save_run (p1 p2 : jsstring) (w : World) :
  ConversationRepository.save p1 p2 w =
  if hd false (faults w) then (Throw StorageError, after_await w)
  else if existsb (fun c => str_eqb (Conversation.participant1Id c) p1
                            && str_eqb (Conversation.participant2Id c) p2)
            (conversations (store w))
  then (Throw UniqueViolation, after_await w)
  else
    let c := Conversation.mk (nextId (store w)) p1 p2 None None false None in
    (Ok c,
     with_store (mkStore (conversations (store w) ++ [c]) (metadata (store w))
                   (messages (store w)) (S (nextId (store w))))
       (after_await w)).
Proof.
  unfold ConversationRepository.save, bind, await_storage, get_store.
  destruct (hd false (faults w)); [reflexivity|]. simpl.
  destruct (existsb _ _); reflexivity.
Qed.

Lemma findOrCreateConversation_run (u1 u2 : jsstring) (w : World) :
  ConversationRepository.findOrCreateConversation u1 u2 w =
  if hd false (faults w) then (Throw StorageError, after_await w)
  else
    match find (ConversationRepository.pair_matches (fst (sort2 u1 u2))
                  (snd (sort2 u1 u2)))
            (conversations (store w)) with
    | Some c => (Ok c, after_await w)
    | None =>
        ConversationRepository.save (fst (sort2 u1 u2)) (snd (sort2 u1 u2))
          (after_await w)
    end.
Proof.
  unfold ConversationRepository.findOrCreateConversation.
  rewrite logged_run. destruct (sort2 u1 u2) as [a b]. simpl fst; simpl snd.
  unfold bind. rewrite conversation_findOne_run.
  destruct (hd false (faults w)); [reflexivity|].
  destruct (find _ _); reflexivity.
Qed.

(** ** Every entry point is a sequence of storage steps *)

Section Steps.
Context {codec : AES}.
Variable key : jsstring.
Variable R : Store -> Store -> Prop.
Hypothesis R_refl : forall s, R s s.
Hypothesis R_trans : forall s1 s2 s3, R s1 s2 -> R s2 s3 -> R s1 s3.
Hypothesis R_findOrCreate :
  forall a b, respects R (ConversationRepository.findOrCreateConversation a b).
Hypothesis R_conversation_update :
  forall cid f, (forall c, same_conversation c (f c)) ->
                respects R (ConversationRepository.update cid f).
Hypothesis R_Message_save :
  forall d, respects R (MessageRepository.Message_save d).
Hypothesis R_metadata_save :
  forall c i s r t, respects R (MessageRepository.metadata_save c i s r t).
Hypothesis R_metadata_update :
  forall ids f, (forall m, later_version m (f m)) ->
                respects R (MessageRepository.metadata_update ids f).

Ltac step :=
  first
    [ apply R_findOrCreate
    | apply R_Message_save
    | apply R_metadata_save
    | apply respects_logged
    | apply respects_bind; [assumption | |intros]
    | apply respects_try_catch; [assumption | |intros]
    | apply respects_ret; assumption
    | apply respects_throw; assumption
    | apply respects_lift; assumption
    | apply respects_now; assumption
    | apply respects_random; assumption
    | apply respects_get_store; assumption
    | apply respects_await; assumption ].

Lemma respects_conversation_findOne p :
  respects R (ConversationRepository.findOne p).
Proof. unfold ConversationRepository.findOne. repeat step. Qed.

Lemma respects_isConversationBlocked cid :
  respects R (ConversationRepository.isConversationBlocked cid).
Proof.
  unfold ConversationRepository.isConversationBlocked.
  repeat (apply respects_conversation_findOne || step).
Qed.

Lemma respects_updateLastMessage cid preview t :
  respects R (ConversationRepository.updateLastMessage cid preview t).
Proof.
  unfold ConversationRepository.updateLastMessage. step.
  apply R_conversation_update. intros c. repeat split.
Qed.

Lemma respects_blockConversation cid u :
  respects R (ConversationRepository.blockConversation cid u).
Proof.
  unfold ConversationRepository.blockConversation. step.
  apply R_conversation_update. intros c. repeat split.
Qed.

Lemma respects_unblockConversation cid :
  respects R (ConversationRepository.unblockConversation cid).
Proof.
  unfold ConversationRepository.unblockConversation. step.
  apply R_conversation_update. intros c. repeat split.
Qed.

Lemma respects_createMessage d : respects R (MessageRepository.createMessage d).
Proof. unfold MessageRepository.createMessage. repeat step. Qed.

Lemma respects_markAsDelivered i : respects R (MessageRepository.markAsDelivered i).
Proof.
  unfold MessageRepository.markAsDelivered. step. step; [step|].
  apply R_metadata_update. intros m. repeat split; auto.
Qed.

Lemma respects_markAsRead ids : respects R (MessageRepository.markAsRead ids).
Proof.
  unfold MessageRepository.markAsRead. step. step; [step|].
  apply R_metadata_update. intros m. repeat split; auto.
Qed.

Lemma respects_metadata_findOne i : respects R (MessageRepository.metadata_findOne i).
Proof. unfold MessageRepository.metadata_findOne. repeat step. Qed.

Lemma respects_deleteMessage i u : respects R (MessageRepository.deleteMessage i u).
Proof.
  unfold MessageRepository.deleteMessage. step.
  step; [apply respects_metadata_findOne|].
  destruct a as [m|]; [|step].
  destruct (negb _); [step|].
  apply R_metadata_update. intros m'. repeat split; auto.
Qed.

Lemma respects_prepareText content d :
  respects R (ChatService.prepareText key content d).
Proof. unfold ChatService.prepareText. repeat step. Qed.

Lemma respects_encryptContent params d :
  respects R (ChatService.encryptContent key params d).
Proof.
  unfold ChatService.encryptContent.
  destruct (SendMessageParams.content params) as [c|]; [|step].
  destruct (_ && _); [apply respects_prepareText | step].
Qed.

Lemma respects_sendMessage params : respects R (ChatService.sendMessage key params).
Proof.
  unfold ChatService.sendMessage. step. step; [step|].
  step; [apply respects_isConversationBlocked|].
  match goal with b : bool |- _ => destruct b end; [step|].
  step; [apply respects_encryptContent|].
  step; [apply respects_createMessage|].
  match goal with p : (_ * _)%type |- _ => destruct p as [message md] end.
  step; [apply respects_updateLastMessage | step].
Qed.

Lemma respects_exec c : respects R (fun w => (Ok tt, exec key c w)).
Proof.
  intros w. simpl. destruct c; simpl.
  - apply respects_sendMessage.
  - unfold ChatService.markMessagesAsRead. rewrite logged_run.
    apply respects_markAsRead.
  - unfold ChatService.markMessageAsDelivered. rewrite logged_run.
    apply respects_markAsDelivered.
  - unfold ChatService.deleteMessage. rewrite logged_run.
    apply respects_deleteMessage.
  - unfold ChatService.blockConversation. rewrite logged_run.
    apply respects_blockConversation.
  - unfold ChatService.unblockConversation. rewrite logged_run.
    apply respects_unblockConversation.
Qed.

Lemma run_steps cs w : R (store w) (store (run key cs w)).
Proof.
  revert w. induction cs as [|[e c] cs IH]; intros w; simpl; [apply R_refl|].
  eapply R_trans; [|apply IH].
  exact (respects_exec c (enter e w)).
Qed.

End Steps.

(** ** The conversation table *)

Lemma find_app {A} (p : A -> bool) (l1 l2 : list A) :
  find p (l1 ++ l2) = match find p l1 with Some x => Some x | None => find p l2 end.
Proof.
  induction l1 as [|x l1 IH]; simpl; [reflexivity|].
  destruct (p x); [reflexivity | exact IH].
Qed.

Lemma find_none_filter {A} (p : A -> bool) (l : list A) :
  find p l = None -> filter p l = [].
Proof.
  induction l as [|x l IH]; simpl; [reflexivity|].
  destruct (p x); [discriminate | exact IH].
Qed.

Lemma filter_map_length {A} (p : A -> bool) (g : A -> A) (l : list A) :
  (forall x, p (g x) = p x) ->
  length (filter p (map g l)) = length (filter p l).
Proof.
  intros H. induction l as [|x l IH]; simpl; [reflexivity|].
  rewrite H. destruct (p x); simpl; congruence.
Qed.

Lemma pair_matches_sym (a b : jsstring) (c : Conversation.t) :
  ConversationRepository.pair_matches a b c
  = ConversationRepository.pair_matches b a c.
Proof. unfold ConversationRepository.pair_matches. apply orb_comm. Qed.

Lemma pair_matches_sort2 (a b : jsstring) (c : Conversation.t) :
  ConversationRepository.pair_matches (fst (sort2 a b)) (snd (sort2 a b)) c
  = ConversationRepository.pair_matches a b c.
Proof.
  unfold sort2. destruct (str_ltb b a); simpl;
    [apply pair_matches_sym | reflexivity].
Qed.

Lemma pair_matches_created (n : nat) (a b : jsstring) :
  ConversationRepository.pair_matches a b
    (Conversation.mk n a b None None false None) = true.
Proof.
  unfold ConversationRepository.pair_matches. simpl.
  rewrite !str_eqb_refl. reflexivity.
Qed.

(** Two pairs that match one row match the same rows. *)
Lemma pair_matches_same_rows (a b x y : jsstring) (c : Conversation.t) :
  ConversationRepository.pair_matches a b c = true ->
  ConversationRepository.pair_matches x y c = true ->
  forall c', ConversationRepository.pair_matches x y c'
             = ConversationRepository.pair_matches a b c'.
Proof.
  unfold ConversationRepository.pair_matches.
  rewrite !orb_true_iff, !andb_true_iff, !str_eqb_eq.
  intros [[A1 A2]|[A1 A2]] [[X1 X2]|[X1 X2]] c'; subst;
    rewrite <- ?X1, <- ?X2; try reflexivity; apply orb_comm.
Qed.

Lemma one_per_pair_nil : one_per_pair [].
Proof. intros a b. simpl. lia. Qed.

Lemma one_per_pair_add (table : list Conversation.t) (n : nat) (a b : jsstring) :
  one_per_pair table ->
  find (ConversationRepository.pair_matches a b) table = None ->
  one_per_pair (table ++ [Conversation.mk n a b None None false None]).
Proof.
  intros H Hnone x y. rewrite filter_app, length_app. simpl.
  destruct (ConversationRepository.pair_matches x y _) eqn:E; simpl.
  - rewrite (filter_ext _ _ (pair_matches_same_rows _ _ _ _ _
                               (pair_matches_created n a b) E)).
    rewrite (find_none_filter _ _ Hnone). simpl. lia.
  - specialize (H x y). lia.
Qed.

Lemma one_per_pair_update (table : list Conversation.t)
  (g : Conversation.t -> Conversation.t) :
  (forall c, same_conversation c (g c)) ->
  one_per_pair table -> one_per_pair (map g table).
Proof.
  intros Hg H a b. rewrite filter_map_length; [apply H|].
  intros c. destruct (Hg c) as (_ & H1 & H2).
  unfold ConversationRepository.pair_matches. rewrite H1, H2. reflexivity.
Qed.

Lemma keeps_ok_refl (s : Store) : keeps_ok s s.
Proof. intros H; exact H. Qed.

Lemma keeps_ok_trans (s1 s2 s3 : Store) :
  keeps_ok s1 s2 -> keeps_ok s2 s3 -> keeps_ok s1 s3.
Proof. unfold keeps_ok; auto. Qed.

Lemma Forall_lt_S {A} (f : A -> nat) (n : nat) (l : list A) :
  Forall (fun x => f x < n) l -> Forall (fun x => f x < S n) l.
Proof. apply Forall_impl. intros; lia. Qed.

Lemma keeps_ok_findOrCreate (a b : jsstring) :
  respects keeps_ok (ConversationRepository.findOrCreateConversation a b).
Proof.
  intros w. rewrite findOrCreateConversation_run.
  destruct (hd false (faults w)); [apply keeps_ok_refl|].
  destruct (find _ _) eqn:F; [apply keeps_ok_refl|].
  rewrite conversation_save_run.
  destruct (hd false (faults (after_await w))); [apply keeps_ok_refl|].
  destruct (existsb _ _); [apply keeps_ok_refl|].
  cbn [snd fst store with_store after_await conversations metadata messages nextId].
  intros (H1 & H2 & H3 & H4 & H5).
  unfold store_ok, conversation_ids_unique, conversation_ids_fresh,
    metadata_ids_fresh, canonical_table in *. simpl.
  repeat split.
  - apply one_per_pair_add; assumption.
  - rewrite map_app. simpl. apply NoDup_app; repeat split; auto.
    + constructor; [simpl; tauto | constructor].
    + intros n Hn [<-|[]]. apply in_map_iff in Hn as (c & Hc & Hin).
      rewrite Forall_forall in H3. specialize (H3 c Hin). lia.
  - apply Forall_app; split; [apply Forall_lt_S; exact H3|].
    constructor; [simpl; lia | constructor].
  - apply Forall_lt_S; exact H4.
  - apply Forall_app; split; [exact H5|].
    constructor; [apply sort2_sorted | constructor].
Qed.

Lemma keeps_ok_conversation_update cid f :
  (forall c, same_conversation c (f c)) ->
  respects keeps_ok (ConversationRepository.update cid f).
Proof.
  intros Hf. unfold ConversationRepository.update.
  apply respects_write; [exact keeps_ok_refl|].
  intros s (H1 & H2 & H3 & H4 & H5).
  set (g := fun c => if Nat.eqb (Conversation.id c) cid then f c else c).
  assert (Hg : forall c, same_conversation c (g c)).
  { intros c. unfold g. destruct (Nat.eqb _ _); [apply Hf | repeat split]. }
  unfold store_ok, conversation_ids_unique, conversation_ids_fresh,
    metadata_ids_fresh, canonical_table in *. simpl.
  assert (Hid : map Conversation.id (map g (conversations s))
                = map Conversation.id (conversations s)).
  { rewrite map_map. apply map_ext. intros c. apply (Hg c). }
  repeat split.
  - apply one_per_pair_update; assumption.
  - rewrite Hid. exact H2.
  - apply Forall_forall. intros c Hc. apply in_map_iff in Hc as (c0 & <- & Hin).
    rewrite Forall_forall in H3. destruct (Hg c0) as (-> & _). auto.
  - exact H4.
  - apply Forall_forall. intros c Hc. apply in_map_iff in Hc as (c0 & <- & Hin).
    rewrite Forall_forall in H5. destruct (Hg c0) as (_ & -> & ->). auto.
Qed.

Lemma store_ok_next (s : Store) (ms : list IMessage.t) (mds : list MessageMetadata.t) :
  store_ok s ->
  Forall (fun m => MessageMetadata.id m < S (nextId s)) mds ->
  store_ok (mkStore (conversations s) mds ms (S (nextId s))).
Proof.
  intros (H1 & H2 & H3 & H4 & H5) Hm.
  unfold store_ok, conversation_ids_unique, conversation_ids_fresh,
    metadata_ids_fresh, canonical_table in *. simpl.
  repeat split; auto using Forall_lt_S.
Qed.

Lemma keeps_ok_Message_save d :
  respects keeps_ok (MessageRepository.Message_save d).
Proof.
  intros w. unfold MessageRepository.Message_save.
  destruct (_ || _); [apply keeps_ok_refl|].
  unfold bind, await_storage.
  destruct (hd false (faults w)); [apply keeps_ok_refl|].
  cbn. intros H. apply store_ok_next; [exact H|].
  apply Forall_lt_S. apply H.
Qed.

Lemma keeps_ok_metadata_save c i s r t :
  respects keeps_ok (MessageRepository.metadata_save c i s r t).
Proof.
  intros w. unfold MessageRepository.metadata_save, bind, await_storage.
  destruct (hd false (faults w)); [apply keeps_ok_refl|].
  cbn. intros H. apply store_ok_next; [exact H|].
  apply Forall_app; split; [apply Forall_lt_S; apply H|].
  constructor; [simpl; lia | constructor].
Qed.

Lemma keeps_ok_metadata_update ids f :
  (forall m, later_version m (f m)) ->
  respects keeps_ok (MessageRepository.metadata_update ids f).
Proof.
  intros Hf. unfold MessageRepository.metadata_update.
  apply respects_write; [exact keeps_ok_refl|].
  intros s (H1 & H2 & H3 & H4 & H5).
  unfold store_ok, conversation_ids_unique, conversation_ids_fresh,
    metadata_ids_fresh, canonical_table in *. simpl.
  repeat split; auto.
  apply Forall_forall. intros m Hm. apply in_map_iff in Hm as (m0 & <- & Hin).
  rewrite Forall_forall in H4. specialize (H4 m0 Hin).
  destruct (existsb _ ids); [|exact H4].
  destruct (Hf m0) as (-> & _). exact H4.
Qed.

Lemma store_ok_empty : store_ok empty_store.
Proof.
  unfold store_ok, conversation_ids_unique, conversation_ids_fresh,
    metadata_ids_fresh, canonical_table. simpl.
  split; [apply one_per_pair_nil|]. repeat split; constructor.
Qed.

(** Every entry point of the service keeps the guarantees of the stores. *)
Lemma run_keeps_ok {codec : AES} (key : jsstring) cs w :
  store_ok (store w) -> store_ok (store (run key cs w)).
Proof.
  apply (run_steps key keeps_ok_refl keeps_ok_trans keeps_ok_findOrCreate
           keeps_ok_conversation_update keeps_ok_Message_save
           keeps_ok_metadata_save keeps_ok_metadata_update).
Qed.

Lemma reachable_store_ok {codec : AES} (key : jsstring) (w : World) :
  reachable key w -> store_ok (store w).
Proof.
  intros (cs & e & ->). simpl. apply run_keeps_ok. exact store_ok_empty.
Qed.


(** ** C1: one conversation per pair *)



(** ** Stores only grow *)

Lemma later_version_refl (m : MessageMetadata.t) : later_version m m.
Proof. repeat split; auto. Qed.

Lemma later_version_trans (m1 m2 m3 : MessageMetadata.t) :
  later_version m1 m2 -> later_version m2 m3 -> later_version m1 m3.
Proof.
  intros (A1 & A2 & A3 & A4 & A5 & A6 & A7 & A8)
         (B1 & B2 & B3 & B4 & B5 & B6 & B7 & B8).
  repeat split; try congruence; auto.
Qed.

Lemma evolves_refl (s : Store) : evolves s s.
Proof.
  repeat split; auto.
  - intros i m H. exists m. split; [exact H | apply later_version_refl].
  - intros i m' H1 H2. congruence.
Qed.

Lemma evolves_trans (s1 s2 s3 : Store) :
  evolves s1 s2 -> evolves s2 s3 -> evolves s1 s3.
Proof.
  intros (A1 & A2 & A3 & A4) (B1 & B2 & B3 & B4).
  split; [lia|]. split; [auto|]. split.
  - intros i m H. destruct (A3 i m H) as (m2 & H2 & L2).
    destruct (B3 i m2 H2) as (m3 & H3 & L3).
    exists m3. split; [exact H3 | eapply later_version_trans; eauto].
  - intros i m' H3 H1.
    destruct (nth_error (metadata s2) i) as [m2|] eqn:H2.
    + destruct (B3 i m2 H2) as (m3 & H3' & L3).
      assert (m3 = m') by congruence. subst m3.
      destruct L3 as (-> & _). apply (A4 i m2 H2 H1).
    + specialize (B4 i m' H3 H2). lia.
Qed.

Lemma evolves_same_rows (s s' : Store) :
  nextId s <= nextId s' ->
  messages s' = messages s -> metadata s' = metadata s -> evolves s s'.
Proof.
  intros Hn Hm Hd. split; [exact Hn|]. rewrite Hm, Hd.
  split; [auto|]. split.
  - intros i m H. exists m. split; [exact H | apply later_version_refl].
  - intros i m' H1 H2. congruence.
Qed.

Lemma evolves_findOrCreate (a b : jsstring) :
  respects evolves (ConversationRepository.findOrCreateConversation a b).
Proof.
  intros w. rewrite findOrCreateConversation_run.
  destruct (hd false (faults w)); [apply evolves_refl|].
  destruct (find _ _); [apply evolves_refl|].
  rewrite conversation_save_run.
  destruct (hd false (faults (after_await w))); [apply evolves_refl|].
  destruct (existsb _ _); [apply evolves_refl|].
  apply evolves_same_rows; simpl; auto.
Qed.

Lemma evolves_conversation_update cid f :
  (forall c, same_conversation c (f c)) ->
  respects evolves (ConversationRepository.update cid f).
Proof.
  intros _. unfold ConversationRepository.update.
  apply respects_write; [exact evolves_refl|].
  intros s. apply evolves_same_rows; simpl; auto.
Qed.

Lemma evolves_Message_save d :
  respects evolves (MessageRepository.Message_save d).
Proof.
  intros w. unfold MessageRepository.Message_save.
  destruct (_ || _); [apply evolves_refl|].
  unfold bind, await_storage.
  destruct (hd false (faults w)); [apply evolves_refl|].
  cbn. split; [simpl; lia|]. simpl. split; [|split].
  - intros i x H. rewrite nth_error_app1; [exact H|].
    apply nth_error_Some. congruence.
  - intros i m H. exists m. split; [exact H | apply later_version_refl].
  - intros i m' H1 H2. congruence.
Qed.

Lemma evolves_metadata_save c i s r t :
  respects evolves (MessageRepository.metadata_save c i s r t).
Proof.
  intros w. unfold MessageRepository.metadata_save, bind, await_storage.
  destruct (hd false (faults w)); [apply evolves_refl|].
  cbn. split; [simpl; lia|]. simpl. split; [auto|]. split.
  - intros j m H. exists m. split; [|apply later_version_refl].
    rewrite nth_error_app1; [exact H|]. apply nth_error_Some. congruence.
  - intros j m' H1 H2. apply nth_error_None in H2.
    rewrite nth_error_app2 in H1 by exact H2.
    destruct (j - length (metadata (store w))) as [|k]; simpl in H1.
    + inversion H1; subst. simpl. lia.
    + destruct k; discriminate.
Qed.

Lemma evolves_metadata_update ids f :
  (forall m, later_version m (f m)) ->
  respects evolves (MessageRepository.metadata_update ids f).
Proof.
  intros Hf. unfold MessageRepository.metadata_update.
  apply respects_write; [exact evolves_refl|].
  intros s. split; [simpl; lia|]. simpl. split; [auto|]. split.
  - intros j m H. rewrite nth_error_map, H. simpl.
    eexists; split; [reflexivity|].
    destruct (existsb _ ids); [apply Hf | apply later_version_refl].
  - intros j m' H1 H2. rewrite nth_error_map, H2 in H1. discriminate.
Qed.

(** No run of the service removes a document or a row, or takes a flag
    back. *)
Lemma run_evolves {codec : AES} (key : jsstring) cs w :
  evolves (store w) (store (run key cs w)).
Proof.
  apply (run_steps key evolves_refl evolves_trans evolves_findOrCreate
           evolves_conversation_update evolves_Message_save
           evolves_metadata_save evolves_metadata_update).
Qed.

(** ** C3: receipts *)

Lemma metadata_update_run ids f (w : World) :
  MessageRepository.metadata_update ids f w =
  if hd false (faults w) then (Throw StorageError, after_await w)
  else
    (Ok tt,
     with_store
       (mkStore (conversations (store w))
          (map (fun m => if existsb (Nat.eqb (MessageMetadata.id m)) ids
                         then f m else m) (metadata (store w)))
          (messages (store w)) (nextId (store w)))
       (after_await w)).
Proof.
  unfold MessageRepository.metadata_update, bind, await_storage, get_store,
    put_store.
  destruct (hd false (faults w)); reflexivity.
Qed.

Lemma markAsDelivered_run i (w : World) :
  MessageRepository.markAsDelivered i w =
  MessageRepository.metadata_update [i]
    (MessageRepository.set_delivered (clock w)) w.
Proof.
  unfold MessageRepository.markAsDelivered. rewrite logged_run. reflexivity.
Qed.

Lemma markAsRead_run ids (w : World) :
  MessageRepository.markAsRead ids w =
  MessageRepository.metadata_update ids (MessageRepository.set_read (clock w)) w.
Proof.
  unfold MessageRepository.markAsRead. rewrite logged_run. reflexivity.
Qed.







(** ** C2 and C10: the block check *)

Lemma answered_next n (w : World) :
  answered (S n) w ->
  hd false (faults w) = false /\ answered n (after_await w).
Proof.
  unfold answered, after_await. simpl. destruct (faults w) as [|f fs]; simpl.
  - intros _. split; [reflexivity|]. destruct n; reflexivity.
  - rewrite andb_true_iff. intros [Hf H]. destruct f; [discriminate|]. auto.
Qed.

Lemma find_by_id {c : Conversation.t} {table : list Conversation.t} :
  NoDup (map Conversation.id table) -> In c table ->
  find (fun c' => Nat.eqb (Conversation.id c') (Conversation.id c)) table = Some c.
Proof.
  induction table as [|x table IH]; simpl; [tauto|].
  intros Hnd [->|Hin].
  - rewrite Nat.eqb_refl. reflexivity.
  - inversion Hnd as [|? ? Hx Hnd']; subst.
    destruct (Nat.eqb_spec (Conversation.id x) (Conversation.id c)) as [E|_].
    + exfalso. apply Hx. rewrite E. apply in_map. exact Hin.
    + apply IH; assumption.
Qed.

Lemma find_pair_sort2 (a b : jsstring) (table : list Conversation.t) :
  find (ConversationRepository.pair_matches (fst (sort2 a b)) (snd (sort2 a b)))
    table
  = find (ConversationRepository.pair_matches a b) table.
Proof.
  induction table as [|x table IH]; simpl; [reflexivity|].
  rewrite pair_matches_sort2, IH. reflexivity.
Qed.

(** The first two steps of [sendMessage] on a pair that has its row. *)
Lemma send_resolves_and_checks {codec : AES} (key : jsstring)
  (params : SendMessageParams.t) (w : World) (c : Conversation.t) :
  conversation_ids_unique (store w) ->
  find (ConversationRepository.pair_matches (SendMessageParams.senderId params)
          (SendMessageParams.receiverId params)) (conversations (store w))
  = Some c ->
  hd false (faults w) = false ->
  ConversationRepository.findOrCreateConversation
    (SendMessageParams.senderId params) (SendMessageParams.receiverId params) w
  = (Ok c, after_await w)
  /\ ConversationRepository.isConversationBlocked (Conversation.id c) (after_await w)
     = (Ok (if hd false (faults (after_await w)) then false
            else Conversation.isBlocked c),
        after_await (after_await w)).
Proof.
  intros Hu F H0. split.
  - rewrite findOrCreateConversation_run, H0, find_pair_sort2, F. reflexivity.
  - rewrite isConversationBlocked_run. f_equal. f_equal.
    destruct (hd false (faults (after_await w))); [reflexivity|].
    change (store (after_await w)) with (store w).
    rewrite (find_by_id Hu); [reflexivity|].
    apply (find_some _ _ F).
Qed.

(** C2 (amended).  For every send into a conversation whose blocked flag is
    set, when the lookup of the conversation and the read of its blocked
    flag are both answered, [sendMessage] fails with the
    blocked-conversation error and leaves the conversations, the metadata
    rows and the message documents as they were. *)
Theorem blocked_send_rejected_without_writes :
  forall (codec : AES) (key : jsstring) (params : SendMessageParams.t)
         (w : World) (c : Conversation.t),
    conversation_ids_unique (store w) ->
    find (ConversationRepository.pair_matches (SendMessageParams.senderId params)
            (SendMessageParams.receiverId params)) (conversations (store w))
    = Some c ->
    Conversation.isBlocked c = true ->
    answered 2 w ->
    fst (ChatService.sendMessage key params w) = Throw ConversationBlocked
    /\ store (snd (ChatService.sendMessage key params w)) = store w.
Proof.
  intros codec key params w c Hu F Hb Ha.
  apply answered_next in Ha as [H0 Ha]. apply answered_next in Ha as [H1 _].
  destruct (send_resolves_and_checks key params w Hu F H0) as [E1 E2].
  assert (E : ChatService.sendMessage key params w
              = (Throw ConversationBlocked, after_await (after_await w))).
  { unfold ChatService.sendMessage. rewrite logged_run.
    unfold bind at 1. rewrite E1. unfold bind at 1. rewrite E2, H1, Hb.
    reflexivity. }
  rewrite E. split; reflexivity.
Qed.

Lemma blocked_send_rejected_without_writes_witness :
  fst (ChatService.sendMessage (codec := XorCodec.codec) XorCodec.key
         Scenario.reply (enter (Scenario.at_time 2000) Scenario.after_block))
  = Throw ConversationBlocked
  /\ store (snd (ChatService.sendMessage (codec := XorCodec.codec) XorCodec.key
         Scenario.reply (enter (Scenario.at_time 2000) Scenario.after_block)))
     = store (enter (Scenario.at_time 2000) Scenario.after_block).
Proof.
  apply (@blocked_send_rejected_without_writes XorCodec.codec XorCodec.key
           Scenario.reply (enter (Scenario.at_time 2000) Scenario.after_block)
           (Conversation.mk 0 Scenario.alice Scenario.bob (Some 1000%Z)
              (Some (js "Hello")) true (Some Scenario.alice))).
  - unfold conversation_ids_unique. vm_compute.
    constructor; [intros [] | constructor].
  - vm_compute. reflexivity.
  - reflexivity.
  - vm_compute. reflexivity.
Defined.

(** C2, as first stated, fails when the read of the blocked flag is
    rejected: Bob's text into the conversation Alice has blocked is then
    stored, document and metadata row. *)
Lemma blocked_send_stored_when_flag_read_fails :
  option_map Conversation.isBlocked
    (find (ConversationRepository.pair_matches Scenario.bob Scenario.alice)
       (conversations (store Scenario.after_block))) = Some true
  /\ is_ok (fst (ChatService.sendMessage (codec := XorCodec.codec) XorCodec.key
              Scenario.reply
              (enter (mkEnv 2000 [false; true] [7; 9]%N) Scenario.after_block)))
     = true
  /\ length (messages (store Scenario.after_block)) = 1
  /\ length (messages (store (snd
       (ChatService.sendMessage (codec := XorCodec.codec) XorCodec.key
          Scenario.reply
          (enter (mkEnv 2000 [false; true] [7; 9]%N) Scenario.after_block)))))
     = 2
  /\ length (metadata (store (snd
       (ChatService.sendMessage (codec := XorCodec.codec) XorCodec.key
          Scenario.reply
          (enter (mkEnv 2000 [false; true] [7; 9]%N) Scenario.after_block)))))
     = 2.
Proof. repeat split; vm_compute; reflexivity. Qed.

Lemma Message_save_run (d : CreateMessageData.t) (w : World) :
  MessageRepository.Message_save d w =
  if negb (truthy (CreateMessageData.senderId d))
     || negb (truthy (CreateMessageData.receiverId d))
  then (Throw ValidationError, w)
  else if hd false (faults w) then (Throw StorageError, after_await w)
  else
    let m := IMessage.mk (nextId (store w))
               (CreateMessageData.conversationId d)
               (CreateMessageData.senderId d)
               (CreateMessageData.receiverId d)
               (CreateMessageData.messageType d)
               (CreateMessageData.encryptedContent d)
               (CreateMessageData.mediaUrl d)
               (CreateMessageData.mediaType d)
               (CreateMessageData.mediaSize d)
               (CreateMessageData.fileName d)
               (CreateMessageData.thumbnailUrl d)
               (CreateMessageData.replyToMessageId d)
               (clock w) (clock w) in
    (Ok m,
     with_store (mkStore (conversations (store w)) (metadata (store w))
                   (messages (store w) ++ [m]) (S (nextId (store w))))
       (after_await w)).
Proof.
  unfold MessageRepository.Message_save.
  destruct (_ || _); [reflexivity|].
  unfold bind, await_storage.
  destruct (hd false (faults w)); reflexivity.
Qed.

Lemma metadata_save_run c i s r t (w : World) :
  MessageRepository.metadata_save c i s r t w =
  if hd false (faults w) then (Throw StorageError, after_await w)
  else
    let md := MessageMetadata.mk (nextId (store w)) c i s r t
                false false None None false (clock w) in
    (Ok md,
     with_store (mkStore (conversations (store w)) (metadata (store w) ++ [md])
                   (messages (store w)) (S (nextId (store w))))
       (after_await w)).
Proof.
  unfold MessageRepository.metadata_save, bind, await_storage.
  destruct (hd false (faults w)); reflexivity.
Qed.

Lemma createMessage_run (d : CreateMessageData.t) (w : World) :
  MessageRepository.createMessage d w =
  match MessageRepository.Message_save d w with
  | (Ok m, w1) =>
      match MessageRepository.metadata_save
              (CreateMessageData.conversationId d) (IMessage._id m)
              (CreateMessageData.senderId d) (CreateMessageData.receiverId d)
              (CreateMessageData.messageType d) w1 with
      | (Ok md, w2) => (Ok (m, md), w2)
      | (Throw e, w2) => (Throw e, w2)
      end
  | (Throw e, w1) => (Throw e, w1)
  end.
Proof.
  unfold MessageRepository.createMessage. rewrite logged_run. unfold bind.
  destruct (MessageRepository.Message_save d w) as [[m|e] w1]; [|reflexivity].
  destruct (MessageRepository.metadata_save _ _ _ _ _ w1) as [[md|e] w2];
    reflexivity.
Qed.

Lemma conversation_update_run cid f (w : World) :
  ConversationRepository.update cid f w =
  if hd false (faults w) then (Throw StorageError, after_await w)
  else
    (Ok tt,
     with_store
       (mkStore
          (map (fun c => if Nat.eqb (Conversation.id c) cid then f c else c)
             (conversations (store w)))
          (metadata (store w)) (messages (store w)) (nextId (store w)))
       (after_await w)).
Proof.
  unfold ConversationRepository.update, bind, await_storage, get_store, put_store.
  destruct (hd false (faults w)); reflexivity.
Qed.

(** ** The steps of [sendMessage] *)

Lemma sendMessage_run {codec : AES} (key : jsstring)
  (params : SendMessageParams.t) (w : World) :
  ChatService.sendMessage key params w =
  match ConversationRepository.findOrCreateConversation
          (SendMessageParams.senderId params)
          (SendMessageParams.receiverId params) w with
  | (Throw e, w1) => (Throw e, w1)
  | (Ok c, w1) =>
    match ConversationRepository.isConversationBlocked (Conversation.id c) w1 with
    | (Throw e, w2) => (Throw e, w2)
    | (Ok true, w2) => (Throw ConversationBlocked, w2)
    | (Ok false, w2) =>
      match ChatService.encryptContent key params
              (ChatService.prepareMessageData params c) w2 with
      | (Throw e, w3) => (Throw e, w3)
      | (Ok d, w3) =>
        match MessageRepository.createMessage d w3 with
        | (Throw e, w4) => (Throw e, w4)
        | (Ok (m, md), w4) =>
          match ConversationRepository.updateLastMessage (Conversation.id c)
                  (ChatService.generateMessagePreview params)
                  (MessageMetadata.createdAt md) w4 with
          | (Throw e, w5) => (Throw e, w5)
          | (Ok _, w5) => (Ok (ChatService.formatMessage key m md), w5)
          end
        end
      end
    end
  end.
Proof.
  unfold ChatService.sendMessage. rewrite logged_run. unfold bind.
  destruct (ConversationRepository.findOrCreateConversation _ _ w)
    as [[c|e] w1]; [|reflexivity].
  destruct (ConversationRepository.isConversationBlocked _ w1)
    as [[[|]|e] w2]; try reflexivity.
  destruct (ChatService.encryptContent _ _ _ w2) as [[d|e] w3]; [|reflexivity].
  destruct (MessageRepository.createMessage d w3) as [[[m md]|e] w4];
    [|reflexivity].
  destruct (ConversationRepository.updateLastMessage _ _ _ w4) as [[u|e] w5];
    reflexivity.
Qed.

(** The documents and rows of messages are left alone by a step. *)
Lemma findOrCreate_keeps_messages a b (w : World) :
  let w1 := snd (ConversationRepository.findOrCreateConversation a b w) in
  messages (store w1) = messages (store w)
  /\ metadata (store w1) = metadata (store w).
Proof.
  simpl. rewrite findOrCreateConversation_run.
  destruct (hd false (faults w)); [split; reflexivity|].
  destruct (find _ _); [split; reflexivity|].
  rewrite conversation_save_run.
  destruct (hd false (faults (after_await w))); [split; reflexivity|].
  destruct (existsb _ _); split; reflexivity.
Qed.

Lemma isConversationBlocked_keeps_store cid (w : World) :
  store (snd (ConversationRepository.isConversationBlocked cid w)) = store w.
Proof. rewrite isConversationBlocked_run. reflexivity. Qed.

Lemma updateLastMessage_keeps_messages cid p t (w : World) :
  let w1 := snd (ConversationRepository.updateLastMessage cid p t w) in
  messages (store w1) = messages (store w)
  /\ metadata (store w1) = metadata (store w).
Proof.
  simpl. unfold ConversationRepository.updateLastMessage.
  rewrite logged_run, conversation_update_run.
  destruct (hd false (faults w)); split; reflexivity.
Qed.

(** What [encryptContent] returns: the data as prepared, or, for a text
    with a validated body, the data with the cipher text of the sanitized
    body; it never touches the stores. *)
Lemma encryptContent_cases {codec : AES} (key : jsstring)
  (params : SendMessageParams.t) (d : CreateMessageData.t) (w : World) :
  store (snd (ChatService.encryptContent key params d w)) = store w
  /\ match fst (ChatService.encryptContent key params d w) with
     | Ok d' =>
         d' = d
         \/ (SendMessageParams.messageType params = TEXT
             /\ exists content enc,
                 SendMessageParams.content params = Some content
                 /\ validateMessageContent content = Ok true
                 /\ d' = CreateMessageData.set_encryptedContent enc d)
     | Throw e =>
         SendMessageParams.messageType params = TEXT
         /\ exists content,
             SendMessageParams.content params = Some content
             /\ truthy content = true
             /\ (validateMessageContent content = Throw e \/ e = EncryptFailed)
     end.
Proof.
  unfold ChatService.encryptContent.
  destruct (SendMessageParams.content params) as [content|];
    [|simpl; auto].
  destruct (truthy content) eqn:T; [|simpl; auto].
  destruct (SendMessageParams.messageType params) eqn:Ty; simpl; auto.
  unfold ChatService.prepareText, bind, lift, random, ret.
  destruct (validateMessageContent content) as [[|]|e] eqn:V; simpl.
  - destruct (encryptMessage _ _ _ _) as [enc|e] eqn:E; simpl.
    + split; [reflexivity|]. right. split; [reflexivity|].
      exists content, (encrypted enc). auto.
    + split; [reflexivity|]. split; [reflexivity|].
      exists content. repeat split; auto. right.
      unfold encryptMessage in E. destruct (aes_encrypt _ _ _); congruence.
  - exfalso. rewrite validate_cases in V.
    destruct (forallb _ _); [discriminate|]. destruct (_ <? _); discriminate.
  - split; [reflexivity|]. split; [reflexivity|]. exists content. auto.
Qed.

(** ** C5: validation of text content *)

Lemma encryptContent_invalid {codec : AES} (key : jsstring)
  (params : SendMessageParams.t) (d : CreateMessageData.t) (w : World)
  (content : jsstring) (e : Error) :
  SendMessageParams.messageType params = TEXT ->
  SendMessageParams.content params = Some content ->
  content <> [] ->
  validateMessageContent content = Throw e ->
  ChatService.encryptContent key params d w = (Throw e, w).
Proof.
  intros Ty C Hne V. unfold ChatService.encryptContent. rewrite C, Ty.
  destruct content as [|x r]; [congruence|]. simpl.
  unfold ChatService.prepareText, bind, lift. rewrite V. reflexivity.
Qed.

(** C5 (amended).  [validateMessageContent] fails with the empty-content
    error on every content made of white space only (the empty string
    included) and with the too-long error on every other content of more
    than 5000 code units.  A text send whose content is not the empty
    string and fails validation is rejected and creates neither a document
    nor a metadata row; when the conversation is resolved and not found
    blocked, the rejection is the validation error. *)
Theorem invalid_text_content_rejected :
  (forall content : jsstring,
      forallb is_whitespace content = true ->
      validateMessageContent content = Throw EmptyContent)
  /\ (forall content : jsstring,
      forallb is_whitespace content = false ->
      MAX_MESSAGE_LENGTH < length content ->
      validateMessageContent content = Throw TooLong)
  /\ (forall (codec : AES) (key : jsstring) (params : SendMessageParams.t)
             (w : World) (content : jsstring) (e : Error),
      SendMessageParams.messageType params = TEXT ->
      SendMessageParams.content params = Some content ->
      content <> [] ->
      validateMessageContent content = Throw e ->
      is_ok (fst (ChatService.sendMessage key params w)) = false
      /\ messages (store (snd (ChatService.sendMessage key params w)))
         = messages (store w)
      /\ metadata (store (snd (ChatService.sendMessage key params w)))
         = metadata (store w)
      /\ (forall c w1 w2,
             ConversationRepository.findOrCreateConversation
               (SendMessageParams.senderId params)
               (SendMessageParams.receiverId params) w = (Ok c, w1) ->
             ConversationRepository.isConversationBlocked (Conversation.id c) w1
             = (Ok false, w2) ->
             fst (ChatService.sendMessage key params w) = Throw e)).
Proof.
  split; [exact validate_blank|]. split; [exact validate_too_long|].
  intros codec key params w content e Ty C Hne V.
  rewrite sendMessage_run.
  pose proof (findOrCreate_keeps_messages (SendMessageParams.senderId params)
                (SendMessageParams.receiverId params) w) as K1. simpl in K1.
  destruct (ConversationRepository.findOrCreateConversation _ _ w)
    as [[c|e1] w1]; simpl in K1;
    [|repeat split; try apply K1; try reflexivity; intros; discriminate].
  pose proof (isConversationBlocked_keeps_store (Conversation.id c) w1) as K2.
  destruct (ConversationRepository.isConversationBlocked _ w1)
    as [[b|e2] w2] eqn:E2; simpl in K2; rewrite <- K2 in K1;
    [|repeat split; try apply K1; try reflexivity; intros c0 w0 w3 H1 H2;
      inversion H1; subst; congruence].
  destruct b;
    [repeat split; try apply K1; try reflexivity; intros c0 w0 w3 H1 H2;
     inversion H1; subst; congruence|].
  rewrite (encryptContent_invalid key params _ w2 Ty C Hne V). simpl.
  repeat split; try apply K1.
Qed.

Lemma invalid_text_content_rejected_witness :
  is_ok (fst (ChatService.sendMessage (codec := XorCodec.codec) XorCodec.key
                (SendMessageParams.mk Scenario.alice Scenario.bob TEXT
                   (Some (js "   ")) None None None None None None)
                (enter (Scenario.at_time 1000) initial_world))) = false.
Proof.
  apply (proj2 (proj2 invalid_text_content_rejected) XorCodec.codec XorCodec.key
           (SendMessageParams.mk Scenario.alice Scenario.bob TEXT
              (Some (js "   ")) None None None None None None)
           (enter (Scenario.at_time 1000) initial_world)
           (js "   ") EmptyContent).
  - reflexivity.
  - reflexivity.
  - discriminate.
  - apply (proj1 invalid_text_content_rejected). reflexivity.
Defined.

(** C5, as first stated, fails twice.  A content of 5001 spaces exceeds
    the cap and gets the empty-content error, not the too-long one.  And a
    text send whose content is the empty string, which the validator would
    reject, is not validated: it is stored as a text message without body. *)
Lemma blank_content_not_too_long_nor_rejected :
  length (repeat 32%N (S MAX_MESSAGE_LENGTH)) = S MAX_MESSAGE_LENGTH
  /\ validateMessageContent (repeat 32%N (S MAX_MESSAGE_LENGTH))
     = Throw EmptyContent
  /\ validateMessageContent (repeat 32%N (S MAX_MESSAGE_LENGTH))
     <> Throw TooLong
  /\ validateMessageContent [] = Throw EmptyContent
  /\ is_ok (fst (ChatService.sendMessage (codec := XorCodec.codec) XorCodec.key
              Scenario.blank (enter (Scenario.at_time 1000) initial_world)))
     = true
  /\ map (fun m => (IMessage.messageType m, IMessage.encryptedContent m))
       (messages (store (snd
          (ChatService.sendMessage (codec := XorCodec.codec) XorCodec.key
             Scenario.blank (enter (Scenario.at_time 1000) initial_world)))))
     = [(TEXT, None)]
  /\ length (metadata (store (snd
          (ChatService.sendMessage (codec := XorCodec.codec) XorCodec.key
             Scenario.blank (enter (Scenario.at_time 1000) initial_world)))))
     = 1.
Proof.
  split; [apply repeat_length|].
  assert (E : validateMessageContent (repeat 32%N (S MAX_MESSAGE_LENGTH))
              = Throw EmptyContent)
    by (vm_compute; reflexivity).
  split; [exact E|]. split; [rewrite E; discriminate|].
  repeat split; vm_compute; reflexivity.
Qed.

(** ** C4: type and payload of stored messages *)

Lemma createMessage_messages (d : CreateMessageData.t) (w : World) :
  (is_ok (fst (MessageRepository.createMessage d w)) = false
   /\ messages (store (snd (MessageRepository.createMessage d w)))
      = messages (store w))
  \/ messages (store (snd (MessageRepository.createMessage d w)))
     = messages (store w)
       ++ [IMessage.mk (nextId (store w))
             (CreateMessageData.conversationId d)
             (CreateMessageData.senderId d)
             (CreateMessageData.receiverId d)
             (CreateMessageData.messageType d)
             (CreateMessageData.encryptedContent d)
             (CreateMessageData.mediaUrl d)
             (CreateMessageData.mediaType d)
             (CreateMessageData.mediaSize d)
             (CreateMessageData.fileName d)
             (CreateMessageData.thumbnailUrl d)
             (CreateMessageData.replyToMessageId d)
             (clock w) (clock w)].
Proof.
  rewrite createMessage_run, Message_save_run.
  destruct (_ || _); [left; split; reflexivity|].
  destruct (hd false (faults w)); [left; split; reflexivity|].
  cbv beta iota zeta. rewrite metadata_save_run.
  destruct (hd false (faults _)); right; reflexivity.
Qed.

(** C4 (amended).  Whatever [sendMessage] adds to the message collection,
    on a send that succeeds or on one that fails after the payload write, is
    one document of the type asked for, carrying exactly the media fields
    the caller passed (none when the caller passes none), and carrying no
    encrypted body unless its type is text; a send that succeeds adds one
    such document. *)
Theorem sent_message_payload :
  forall (codec : AES) (key : jsstring) (params : SendMessageParams.t)
         (w : World),
  exists added : list IMessage.t,
    messages (store (snd (ChatService.sendMessage key params w)))
    = messages (store w) ++ added
    /\ length added <= 1
    /\ Forall (written_by params) added
    /\ (is_ok (fst (ChatService.sendMessage key params w)) = true ->
        length added = 1).
Proof.
  intros codec key params w.
  assert (none : forall (e' : Error) w',
            messages (store w') = messages (store w) ->
            exists added, messages (store w') = messages (store w) ++ added
                          /\ length added <= 1
                          /\ Forall (written_by params) added
                          /\ (is_ok (@Throw MessageWithMetadata.t e') = true ->
                              length added = 1)).
  { intros e' w' H. exists []. rewrite app_nil_r.
    repeat split; auto. discriminate. }
  rewrite sendMessage_run.
  pose proof (findOrCreate_keeps_messages (SendMessageParams.senderId params)
                (SendMessageParams.receiverId params) w) as [K1 _].
  destruct (ConversationRepository.findOrCreateConversation _ _ w)
    as [[c|e1] w1]; simpl in K1; [|apply none; exact K1].
  pose proof (isConversationBlocked_keeps_store (Conversation.id c) w1) as K2.
  destruct (ConversationRepository.isConversationBlocked _ w1)
    as [[b|e2] w2]; simpl in K2; rewrite <- K2 in K1;
    [|apply none; exact K1].
  destruct b; [apply none; exact K1|].
  pose proof (encryptContent_cases key params
                (ChatService.prepareMessageData params c) w2) as [K3 D].
  destruct (ChatService.encryptContent _ _ _ w2) as [[d|e3] w3];
    simpl in K3, D; rewrite <- K3 in K1; [|apply none; exact K1].
  pose proof (createMessage_messages d w3) as K4.
  set (doc := IMessage.mk (nextId (store w3)) _ _ _ _ _ _ _ _ _ _ _ _ _) in K4.
  assert (Hd : written_by params doc).
  { subst doc.
    destruct D as [->|(Ty & content & enc & _ & _ & ->)];
      unfold written_by, media_of; simpl; repeat split; auto.
    intros H. congruence. }
  rewrite K1 in K4.
  assert (some : forall (r : Result MessageWithMetadata.t) w',
            messages (store w')
            = messages (store (snd (MessageRepository.createMessage d w3))) ->
            (is_ok r = true ->
             is_ok (fst (MessageRepository.createMessage d w3)) = true) ->
            exists added, messages (store w') = messages (store w) ++ added
                          /\ length added <= 1
                          /\ Forall (written_by params) added
                          /\ (is_ok r = true -> length added = 1)).
  { intros r w' H Hr. destruct K4 as [[F K]|K].
    - exists []. rewrite app_nil_r, H, K. repeat split; auto.
      intros O. rewrite (Hr O) in F. discriminate.
    - exists [doc]. rewrite H, K. repeat split; auto. }
  clear K4.
  destruct (MessageRepository.createMessage d w3) as [[[m md]|e4] w4];
    simpl in some; [|apply some; [reflexivity | discriminate]].
  pose proof (updateLastMessage_keeps_messages (Conversation.id c)
                (ChatService.generateMessagePreview params)
                (MessageMetadata.createdAt md) w4) as [K5 _].
  destruct (ConversationRepository.updateLastMessage _ _ _ w4) as [[u|e5] w5];
    simpl in K5; apply some; auto.
Qed.

(** C4, as first stated, fails on a text message sent with media fields:
    they are stored with it. *)
Lemma text_message_stored_with_media :
  is_ok (fst (ChatService.sendMessage (codec := XorCodec.codec) XorCodec.key
           Scenario.captioned (enter (Scenario.at_time 1000) initial_world)))
  = true
  /\ map (fun m => (IMessage.messageType m, IMessage.mediaUrl m,
                    IMessage.mediaSize m))
       (messages (store (snd
          (ChatService.sendMessage (codec := XorCodec.codec) XorCodec.key
             Scenario.captioned (enter (Scenario.at_time 1000) initial_world)))))
     = [(TEXT, Some (js "https://cdn/p.jpg"), Some 512%N)]
  /\ ~ Forall (fun m => IMessage.messageType m = TEXT -> no_media m)
       (messages (store (snd
          (ChatService.sendMessage (codec := XorCodec.codec) XorCodec.key
             Scenario.captioned (enter (Scenario.at_time 1000) initial_world))))).
Proof.
  split; [vm_compute; reflexivity|]. split; [vm_compute; reflexivity|].
  intros H. vm_compute in H. inversion H as [|m l Hm _]; subst.
  destruct (Hm eq_refl) as [Hu _]. discriminate Hu.
Qed.

Lemma sent_message_payload_witness :
  exists added : list IMessage.t,
    messages (store (snd (ChatService.sendMessage (codec := XorCodec.codec)
                            XorCodec.key Scenario.photo
                            (enter (Scenario.at_time 1000) initial_world))))
    = messages (store (enter (Scenario.at_time 1000) initial_world)) ++ added
    /\ length added <= 1
    /\ Forall (written_by Scenario.photo) added
    /\ (is_ok (fst (ChatService.sendMessage (codec := XorCodec.codec)
                      XorCodec.key Scenario.photo
                      (enter (Scenario.at_time 1000) initial_world))) = true ->
        length added = 1).
Proof.
  exact (sent_message_payload XorCodec.codec XorCodec.key Scenario.photo
           (enter (Scenario.at_time 1000) initial_world)).
Defined.

(** ** C10: the block check fails open *)

Lemma encryptContent_skipped {codec : AES} (key : jsstring)
  (params : SendMessageParams.t) (d : CreateMessageData.t) (w : World) :
  truthy_opt (SendMessageParams.content params)
  && MessageType_eqb (SendMessageParams.messageType params) TEXT = false ->
  ChatService.encryptContent key params d w = (Ok d, w).
Proof.
  unfold ChatService.encryptContent.
  destruct (SendMessageParams.content params) as [c|]; simpl; [|reflexivity].
  intros ->. reflexivity.
Qed.

(** C10.  [isConversationBlocked] always returns a boolean, and returns
    [false] when its read is rejected.  So a send into a conversation whose
    stored flag is set goes through when that read is rejected: for every
    send without a text body to encrypt, from and to named users, with the
    lookup and the three later storage calls answered, the document and the
    metadata row are written and the message is returned. *)
Theorem isConversationBlocked_fails_open :
  (forall (conversationId : nat) (w : World),
      exists b : bool,
        ConversationRepository.isConversationBlocked conversationId w
        = (Ok b, after_await w)
        /\ (hd false (faults w) = true -> b = false))
  /\ (forall (codec : AES) (key : jsstring) (params : SendMessageParams.t)
             (w : World) (c : Conversation.t) (fs : list bool),
      conversation_ids_unique (store w) ->
      find (ConversationRepository.pair_matches
              (SendMessageParams.senderId params)
              (SendMessageParams.receiverId params)) (conversations (store w))
      = Some c ->
      Conversation.isBlocked c = true ->
      faults w = false :: true :: fs ->
      forallb negb (firstn 3 fs) = true ->
      truthy (SendMessageParams.senderId params) = true ->
      truthy (SendMessageParams.receiverId params) = true ->
      truthy_opt (SendMessageParams.content params)
      && MessageType_eqb (SendMessageParams.messageType params) TEXT = false ->
      exists r m md,
        fst (ChatService.sendMessage key params w) = Ok r
        /\ messages (store (snd (ChatService.sendMessage key params w)))
           = messages (store w) ++ [m]
        /\ metadata (store (snd (ChatService.sendMessage key params w)))
           = metadata (store w) ++ [md]
        /\ IMessage.conversationId m = Conversation.id c
        /\ MessageMetadata.conversationId md = Conversation.id c
        /\ MessageMetadata.mongoMessageId md = IMessage._id m
        /\ MessageWithMetadata.id r = MessageMetadata.id md).
Proof.
  split.
  - intros cid w. rewrite isConversationBlocked_run. eexists. split; [reflexivity|].
    intros ->. reflexivity.
  - intros codec key params w c fs Hu F Hb Hf Hq Hs Hr Hskip.
    assert (H0 : hd false (faults w) = false) by (rewrite Hf; reflexivity).
    destruct (send_resolves_and_checks key params w Hu F H0) as [E1 E2].
    rewrite sendMessage_run, E1, E2.
    assert (H1 : hd false (faults (after_await w)) = true)
      by (simpl; rewrite Hf; reflexivity).
    rewrite H1, (encryptContent_skipped key params _ _ Hskip).
    rewrite createMessage_run, Message_save_run.
    destruct w as [st clk fl en]. simpl in Hf. subst fl.
    destruct fs as [|f1 fs]; [|destruct fs as [|f2 fs]; [|destruct fs as [|f3 fs]]];
      simpl in Hq; repeat (apply andb_true_iff in Hq as [? Hq]);
      repeat match goal with
             | H : negb ?f = true |- _ => destruct f; [discriminate H|clear H]
             end;
      cbn [hd tl faults after_await store clock entropy with_store fst snd
             ChatService.prepareMessageData CreateMessageData.senderId
             CreateMessageData.receiverId];
      rewrite Hs, Hr; cbn [negb orb];
      cbv beta iota zeta; rewrite metadata_save_run;
      cbn [hd tl faults after_await store clock entropy with_store fst snd];
      cbv beta iota zeta;
      unfold ConversationRepository.updateLastMessage;
      rewrite logged_run, conversation_update_run;
      cbn [hd tl faults after_await store clock entropy with_store fst snd];
      do 3 eexists; repeat split.
Qed.

Lemma isConversationBlocked_fails_open_witness :
  exists r m md,
    fst (ChatService.sendMessage (codec := XorCodec.codec) XorCodec.key
           Scenario.photo
           (enter (mkEnv 2000 [false; true] []) Scenario.after_block)) = Ok r
    /\ messages (store (snd
         (ChatService.sendMessage (codec := XorCodec.codec) XorCodec.key
            Scenario.photo
            (enter (mkEnv 2000 [false; true] []) Scenario.after_block))))
       = messages (store (enter (mkEnv 2000 [false; true] [])
                            Scenario.after_block)) ++ [m]
    /\ metadata (store (snd
         (ChatService.sendMessage (codec := XorCodec.codec) XorCodec.key
            Scenario.photo
            (enter (mkEnv 2000 [false; true] []) Scenario.after_block))))
       = metadata (store (enter (mkEnv 2000 [false; true] [])
                            Scenario.after_block)) ++ [md]
    /\ IMessage.conversationId m = 0
    /\ MessageMetadata.conversationId md = 0
    /\ MessageMetadata.mongoMessageId md = IMessage._id m
    /\ MessageWithMetadata.id r = MessageMetadata.id md.
Proof.
  apply (proj2 isConversationBlocked_fails_open XorCodec.codec XorCodec.key
           Scenario.photo
           (enter (mkEnv 2000 [false; true] []) Scenario.after_block)
           (Conversation.mk 0 Scenario.alice Scenario.bob (Some 1000%Z)
              (Some (js "Hello")) true (Some Scenario.alice))
           []).
  - unfold conversation_ids_unique. vm_compute.
    constructor; [intros [] | constructor].
  - vm_compute. reflexivity.
  - reflexivity.
  - reflexivity.
  - reflexivity.
  - reflexivity.
  - reflexivity.
  - reflexivity.
Defined.

(** ** C8: the unread count *)






(** Bob has one unread message after Alice's "Hello", and none once he has
    read it. *)
Example unread_then_read :
  fst (ChatService.getUnreadCount Scenario.bob
         (enter (Scenario.at_time 2000) Scenario.after_hello)) = Ok 1
  /\ fst (ChatService.getUnreadCount Scenario.bob
            (enter (Scenario.at_time 3000)
               (run (codec := XorCodec.codec) XorCodec.key
                  [(Scenario.at_time 2500, MarkMessagesAsRead [2] Scenario.bob)]
                  Scenario.after_hello))) = Ok 0.
Proof. split; vm_compute; reflexivity. Qed.

(** ** C7: soft deletion *)

Lemma deleteMessage_run (messageId : nat) (userId : jsstring) (w : World) :
  MessageRepository.deleteMessage messageId userId w =
  if hd false (faults w) then (Throw StorageError, after_await w)
  else
    match find (fun m => Nat.eqb (MessageMetadata.id m) messageId)
            (metadata (store w)) with
    | None => (Throw MessageNotFound, after_await w)
    | Some m =>
        if negb (str_eqb (MessageMetadata.senderId m) userId)
        then (Throw Unauthorized, after_await w)
        else MessageRepository.metadata_update [messageId]
               MessageRepository.set_deleted (after_await w)
    end.
Proof.
  unfold MessageRepository.deleteMessage. rewrite logged_run.
  unfold bind, MessageRepository.metadata_findOne, bind, await_storage,
    get_store, ret.
  destruct (hd false (faults w)); [reflexivity|]. simpl.
  destruct (find _ _); [|reflexivity].
  destruct (negb _); reflexivity.
Qed.

Lemma insert_desc_in (x m : MessageMetadata.t) (l : list MessageMetadata.t) :
  In x (MessageRepository.insert_desc m l) -> x = m \/ In x l.
Proof.
  induction l as [|y l IH]; simpl.
  - intros [<-|[]]. auto.
  - destruct (Z.leb _ _); simpl.
    + intros [<-|H]; auto.
    + intros [<-|H]; auto. destruct (IH H); auto.
Qed.

Lemma order_createdAt_desc_in (x : MessageMetadata.t) (l : list MessageMetadata.t) :
  In x (MessageRepository.order_createdAt_desc l) -> In x l.
Proof.
  induction l as [|m l IH]; simpl; [tauto|].
  intros H. apply insert_desc_in in H as [->|H]; auto.
Qed.

Lemma in_firstn {A} (x : A) (n : nat) (l : list A) : In x (firstn n l) -> In x l.
Proof.
  revert l. induction n as [|n IH]; intros [|y l]; simpl; try tauto.
  intros [->|H]; auto.
Qed.

Lemma in_page {A} (x : A) (skip take : nat) (l : list A) :
  In x (firstn take (skipn skip l)) -> In x l.
Proof.
  intros H. apply in_firstn in H.
  rewrite <- (firstn_skipn skip l). apply in_or_app. right. exact H.
Qed.

Lemma metadata_findAndCount_run where_ (skip take : nat) (w : World) :
  MessageRepository.metadata_findAndCount where_ skip take w =
  if hd false (faults w) then (Throw StorageError, after_await w)
  else
    (Ok (firstn take
           (skipn skip
              (MessageRepository.order_createdAt_desc
                 (filter where_ (metadata (store w))))),
         length (MessageRepository.order_createdAt_desc
                   (filter where_ (metadata (store w))))),
     after_await w).
Proof.
  unfold MessageRepository.metadata_findAndCount, bind, await_storage,
    get_store, ret.
  destruct (hd false (faults w)); reflexivity.
Qed.

Lemma Message_find_in_run (ids : list nat) (w : World) :
  MessageRepository.Message_find_in ids w =
  if hd false (faults w) then (Throw StorageError, after_await w)
  else
    (Ok (filter (fun m => existsb (Nat.eqb (IMessage._id m)) ids)
           (messages (store w))),
     after_await w).
Proof.
  unfold MessageRepository.Message_find_in, bind, await_storage, get_store, ret.
  destruct (hd false (faults w)); reflexivity.
Qed.

Lemma getMessagesByConversation_run (cid page limit : nat) (w : World) :
  MessageRepository.getMessagesByConversation cid page limit w =
  if hd false (faults w) then (Throw StorageError, after_await w)
  else if hd false (faults (after_await w))
  then (Throw StorageError, after_await (after_await w))
  else
    let rows :=
      MessageRepository.order_createdAt_desc
        (filter (fun m => Nat.eqb (MessageMetadata.conversationId m) cid
                          && negb (MessageMetadata.isDeleted m))
           (metadata (store w))) in
    let metadataList := firstn limit (skipn ((page - 1) * limit) rows) in
    let mongoMessages :=
      filter (fun m => existsb (Nat.eqb (IMessage._id m))
                         (map MessageMetadata.mongoMessageId metadataList))
        (messages (store w)) in
    (Ok (flat_map (fun md =>
           match find (fun m => Nat.eqb (IMessage._id m)
                                   (MessageMetadata.mongoMessageId md))
                   mongoMessages with
           | Some message => [(message, md)]
           | None => []
           end) metadataList,
         length rows),
     after_await (after_await w)).
Proof.
  unfold MessageRepository.getMessagesByConversation. rewrite logged_run.
  unfold bind at 1. rewrite metadata_findAndCount_run.
  destruct (hd false (faults w)); [reflexivity|].
  unfold bind. rewrite Message_find_in_run.
  destruct (hd false (faults (after_await w))); reflexivity.
Qed.

(** What a page of history lists: live rows of the conversation, each with
    the document it refers to. *)
Lemma history_page_items (cid page limit : nat) (w w' : World)
  (items : list (IMessage.t * MessageMetadata.t)) (total : nat) :
  MessageRepository.getMessagesByConversation cid page limit w
  = (Ok (items, total), w') ->
  forall msg md, In (msg, md) items ->
    In md (metadata (store w))
    /\ MessageMetadata.isDeleted md = false
    /\ MessageMetadata.conversationId md = cid
    /\ In msg (messages (store w))
    /\ IMessage._id msg = MessageMetadata.mongoMessageId md.
Proof.
  rewrite getMessagesByConversation_run.
  destruct (hd false (faults w)); [discriminate|].
  destruct (hd false (faults (after_await w))); [discriminate|].
  cbv zeta. intros H; inversion H; subst; clear H.
  intros msg md Hin. apply in_flat_map in Hin as (md' & Hmd & Hin).
  destruct (find _ _) as [message|] eqn:F; [|destruct Hin].
  destruct Hin as [E|[]]. inversion E; subst; clear E.
  apply in_page, order_createdAt_desc_in, filter_In in Hmd as [Hmd Hw].
  apply andb_true_iff in Hw as [Hc Hd].
  apply Nat.eqb_eq in Hc. apply negb_true_iff in Hd.
  apply find_some in F as [Fin Fid]. apply filter_In in Fin as [Fin _].
  apply Nat.eqb_eq in Fid. auto.
Qed.

(** A row deleted once is deleted in every later store, and no later row
    takes its identifier. *)
Lemma deleted_stays (messageId : nat) (s1 s2 : Store) :
  evolves s1 s2 ->
  messageId < nextId s1 ->
  (forall r, In r (metadata s1) -> MessageMetadata.id r = messageId ->
             MessageMetadata.isDeleted r = true) ->
  forall r, In r (metadata s2) -> MessageMetadata.id r = messageId ->
            MessageMetadata.isDeleted r = true.
Proof.
  intros (_ & _ & E3 & E4) Hlt H1 r Hin Hid.
  apply In_nth_error in Hin as [i Hi].
  destruct (nth_error (metadata s1) i) as [r1|] eqn:H.
  - destruct (E3 i r1 H) as (r' & Hr' & L).
    assert (r' = r) by congruence. subst r'.
    destruct L as (Lid & _ & _ & _ & _ & _ & _ & Ldel).
    apply Ldel. apply (H1 r1); [eapply nth_error_In; eauto | congruence].
  - specialize (E4 i r Hi H). lia.
Qed.

(** C7.  [deleteMessage] by a requester who is not the stored sender
    fails and changes nothing, and the failure is the Unauthorized error
    whenever its lookup is answered.  By the sender, with the lookup and the update answered,
    it succeeds; from then on, through any run of the service, the metadata
    row is still stored, flagged deleted, every document stored before is
    still stored, and no page of [getMessagesByConversation] lists the
    message. *)
Theorem deleteMessage_by_sender_only_and_soft :
  (forall (messageId : nat) (userId : jsstring) (w : World)
          (m : MessageMetadata.t),
      find (fun r => Nat.eqb (MessageMetadata.id r) messageId)
        (metadata (store w)) = Some m ->
      MessageMetadata.senderId m <> userId ->
      is_ok (fst (MessageRepository.deleteMessage messageId userId w)) = false
      /\ store (snd (MessageRepository.deleteMessage messageId userId w))
         = store w
      /\ (answered 1 w ->
          fst (MessageRepository.deleteMessage messageId userId w)
          = Throw Unauthorized))
  /\ (forall (codec : AES) (key : jsstring) (messageId : nat)
             (userId : jsstring) (w : World) (m : MessageMetadata.t),
      find (fun r => Nat.eqb (MessageMetadata.id r) messageId)
        (metadata (store w)) = Some m ->
      MessageMetadata.senderId m = userId ->
      answered 2 w ->
      metadata_ids_fresh (store w) ->
      fst (MessageRepository.deleteMessage messageId userId w) = Ok tt
      /\ (forall (cs : list (Env * Command)) (e : Env),
            let later :=
              enter e (run key cs
                         (snd (MessageRepository.deleteMessage messageId
                                 userId w))) in
            (exists r, In r (metadata (store later))
                       /\ MessageMetadata.id r = messageId
                       /\ MessageMetadata.isDeleted r = true)
            /\ (forall x, In x (messages (store w)) ->
                          In x (messages (store later)))
            /\ (forall conversationId page limit items total w',
                   MessageRepository.getMessagesByConversation
                     conversationId page limit later
                   = (Ok (items, total), w') ->
                   forall msg md, In (msg, md) items ->
                                  MessageMetadata.id md <> messageId))).
Proof.
  split.
  - intros messageId userId w m F Hs.
    rewrite deleteMessage_run, F.
    apply str_eqb_neq in Hs. rewrite Hs. cbn [negb].
    destruct (hd false (faults w)) eqn:H0;
      (split; [reflexivity|]; split; [reflexivity|]).
    + intros Ha. apply answered_next in Ha as [H0' _]. congruence.
    + reflexivity.
  - intros codec key messageId userId w m F Hs Ha Hfresh.
    apply answered_next in Ha as [H0 Ha]. apply answered_next in Ha as [H1 _].
    rewrite deleteMessage_run, H0, F.
    apply str_eqb_eq in Hs. rewrite Hs. cbn [negb].
    rewrite metadata_update_run, H1. split; [reflexivity|].
    cbn [snd]. intros cs e. cbv zeta.
    set (w1 := with_store _ _).
    set (later := enter e (run key cs w1)).
    destruct (find_some _ _ F) as [Hin Hid]. apply Nat.eqb_eq in Hid.
    assert (Hlt : messageId < nextId (store w1)).
    { unfold metadata_ids_fresh in Hfresh. rewrite Forall_forall in Hfresh.
      specialize (Hfresh m Hin). simpl. lia. }
    assert (Hdel : forall r, In r (metadata (store w1)) ->
                     MessageMetadata.id r = messageId ->
                     MessageMetadata.isDeleted r = true).
    { intros r Hr Hrid. simpl in Hr.
      apply in_map_iff in Hr as (r0 & <- & _). simpl in *.
      destruct (Nat.eqb_spec (MessageMetadata.id r0) messageId);
        simpl in *; [reflexivity | congruence]. }
    pose proof (run_evolves key cs w1) as Ev.
    change (store later) with (store (run key cs w1)).
    split; [|split].
    + assert (Hin1 : In (MessageRepository.set_deleted m) (metadata (store w1))).
      { simpl. apply in_map_iff. exists m. split; [|exact Hin].
        simpl. rewrite Hid, Nat.eqb_refl. reflexivity. }
      apply In_nth_error in Hin1 as [i Hi].
      destruct Ev as (_ & _ & E3 & _).
      destruct (E3 i _ Hi) as (r & Hr & L).
      exists r. split; [eapply nth_error_In; eauto|].
      destruct L as (Lid & _ & _ & _ & _ & _ & _ & Ldel).
      split; [rewrite Lid; exact Hid | apply Ldel; reflexivity].
    + intros x Hx. apply In_nth_error in Hx as [i Hi].
      destruct Ev as (_ & E2 & _). eapply nth_error_In. apply E2. exact Hi.
    + intros cid page limit items total w' Hh msg md Hitem Hmd.
      destruct (history_page_items _ _ _ _ Hh msg md Hitem) as (Hmdin & Hlive & _).
      change (store later) with (store (run key cs w1)) in Hmdin.
      rewrite (deleted_stays Ev Hlt Hdel md Hmdin Hmd) in Hlive. discriminate.
Qed.

Lemma deleteMessage_by_sender_only_and_soft_witness :
  (is_ok (fst (MessageRepository.deleteMessage 2 Scenario.bob
                 (enter (Scenario.at_time 2000) Scenario.after_hello))) = false
   /\ store (snd (MessageRepository.deleteMessage 2 Scenario.bob
                    (enter (Scenario.at_time 2000) Scenario.after_hello)))
      = store (enter (Scenario.at_time 2000) Scenario.after_hello)
   /\ (answered 1 (enter (Scenario.at_time 2000) Scenario.after_hello) ->
       fst (MessageRepository.deleteMessage 2 Scenario.bob
              (enter (Scenario.at_time 2000) Scenario.after_hello))
       = Throw Unauthorized))
  /\ fst (MessageRepository.deleteMessage 2 Scenario.alice
            (enter (Scenario.at_time 2000) Scenario.after_hello)) = Ok tt.
Proof.
  split.
  - apply (proj1 deleteMessage_by_sender_only_and_soft 2 Scenario.bob
             (enter (Scenario.at_time 2000) Scenario.after_hello)
             (MessageMetadata.mk 2 0 1 Scenario.alice Scenario.bob TEXT
                false false None None false 1000)).
    + reflexivity.
    + discriminate.
  - apply (proj2 deleteMessage_by_sender_only_and_soft XorCodec.codec
             XorCodec.key 2 Scenario.alice
             (enter (Scenario.at_time 2000) Scenario.after_hello)
             (MessageMetadata.mk 2 0 1 Scenario.alice Scenario.bob TEXT
                false false None None false 1000)).
    + reflexivity.
    + reflexivity.
    + reflexivity.
    + unfold metadata_ids_fresh. vm_compute. repeat constructor.
Defined.

(** ** C9: a damaged message does not stop the history *)

Lemma getConversationHistory_run {codec : AES} (key : jsstring)
  (conversationId page limit : nat) (w : World) :
  ChatService.getConversationHistory key conversationId page limit w =
  match MessageRepository.getMessagesByConversation conversationId page limit w
  with
  | (Ok (items, total), w') =>
      (Ok (map (fun '(message, md) => ChatService.formatMessage key message md)
             items, total), w')
  | (Throw e, w') => (Throw e, w')
  end.
Proof.
  unfold ChatService.getConversationHistory. rewrite logged_run. unfold bind.
  destruct (MessageRepository.getMessagesByConversation _ _ _ w)
    as [[[items total]|e] w']; reflexivity.
Qed.



(** Alice's damaged message comes back as the placeholder, after Bob's
    answer, and the fetch succeeds with both. *)
Example history_with_damaged_message :
  match fst (ChatService.getConversationHistory (codec := XorCodec.codec)
               XorCodec.key 0 1 50 Scenario.after_damage) with
  | Ok (page, total) =>
      map MessageWithMetadata.content page
      = [Some (js "Hi"); Some ChatService.ENCRYPTED_PLACEHOLDER]
      /\ total = 2
  | Throw _ => False
  end.
Proof. vm_compute. split; reflexivity. Qed.

(* ================================================================= *)
(** * Further properties *)

(** ** Sanitization and validation *)

Lemma replaceAll_length (c : N) (r s : jsstring) :
  r <> [] -> length s <= length (replaceAll c r s).
Proof.
  intros Hr. induction s as [|x s IH]; simpl; [lia|].
  rewrite length_app. destruct (N.eqb x c); simpl; [|lia].
  destruct r; [congruence | simpl; lia].
Qed.

(** X1.  The output of [sanitizeMessageContent] contains none of the five
    characters it rewrites, is never shorter than its input, and is the
    input itself when the input contains none of them. *)
Theorem sanitize_output_free_of_markup :
  forall s : jsstring,
    (forall c, In c (sanitizeMessageContent s) ->
               c <> 60%N /\ c <> 62%N /\ c <> 34%N /\ c <> 39%N /\ c <> 47%N)
    /\ length s <= length (sanitizeMessageContent s)
    /\ ((forall c, In c s ->
           c <> 60%N /\ c <> 62%N /\ c <> 34%N /\ c <> 39%N /\ c <> 47%N) ->
        sanitizeMessageContent s = s).
Proof.
  intros s.
  assert (M : forall c, markup c = false <->
                c <> 60%N /\ c <> 62%N /\ c <> 34%N /\ c <> 39%N /\ c <> 47%N).
  { intros c. unfold markup. simpl.
    rewrite !orb_false_iff, !N.eqb_neq. tauto. }
  split; [|split].
  - intros c Hc. apply M.
    pose proof (sanitize_no_markup s) as H. rewrite Forall_forall in H. auto.
  - unfold sanitizeMessageContent.
    repeat (etransitivity; [|apply replaceAll_length; discriminate]). lia.
  - intros H. apply sanitize_plain. apply Forall_forall. intros c Hc.
    apply M. auto.
Qed.

Lemma sanitize_output_free_of_markup_witness :
  sanitizeMessageContent (js "plain text & more") = js "plain text & more".
Proof.
  apply (proj2 (proj2 (sanitize_output_free_of_markup (js "plain text & more")))).
  intros c Hc. vm_compute in Hc.
  repeat (destruct Hc as [<-|Hc]; [repeat split; discriminate|]).
  destruct Hc.
Defined.

(** X2.  [validateMessageContent] returns [true] exactly on the contents
    that have a code unit other than white space and at most 5000 code
    units; it returns nothing else than [true] or one of its two errors. *)
Theorem validate_accepts_exactly :
  forall content : jsstring,
    (validateMessageContent content = Ok true
     <-> (exists c, In c content /\ is_whitespace c = false)
         /\ length content <= MAX_MESSAGE_LENGTH)
    /\ (validateMessageContent content = Ok true
        \/ validateMessageContent content = Throw EmptyContent
        \/ validateMessageContent content = Throw TooLong).
Proof.
  intros content. rewrite validate_cases.
  assert (W : forallb is_whitespace content = false
              <-> exists c, In c content /\ is_whitespace c = false).
  { split.
    - intros H. induction content as [|x l IH]; simpl in H; [discriminate|].
      destruct (is_whitespace x) eqn:E.
      + destruct (IH H) as (c & Hc & Hw). exists c. simpl. auto.
      + exists x. simpl. auto.
    - intros (c & Hc & Hw). destruct (forallb _ _) eqn:E; [|reflexivity].
      rewrite forallb_forall in E. rewrite (E c Hc) in Hw. discriminate. }
  destruct (forallb is_whitespace content) eqn:E.
  - split; [|auto]. split; [discriminate|].
    intros [H _]. apply W in H. discriminate.
  - destruct (Nat.ltb_spec MAX_MESSAGE_LENGTH (length content)).
    + split; [|auto]. split; [discriminate|]. intros [_ H']. lia.
    + split; [|auto]. split; [|reflexivity]. intros _. split; [|lia].
      apply W. reflexivity.
Qed.

(** The row [findOrCreateConversation] returns is one for the pair. *)
Lemma findOrCreateConversation_same_rows (a b : jsstring) (w : World)
  (c : Conversation.t) (w1 : World) :
  ConversationRepository.findOrCreateConversation a b w = (Ok c, w1) ->
  ConversationRepository.pair_matches a b c = true.
Proof.
  rewrite findOrCreateConversation_run.
  destruct (hd false (faults w)); [discriminate|].
  destruct (find _ (conversations (store w))) as [c0|] eqn:F.
  - intros H; inversion H; subst. apply find_some in F as [_ F].
    rewrite pair_matches_sort2 in F. exact F.
  - rewrite conversation_save_run.
    destruct (hd false (faults (after_await w))); [discriminate|].
    destruct (existsb _ _); [discriminate|].
    cbv zeta. intros H; inversion H; subst.
    rewrite <- (pair_matches_sort2 a b). apply pair_matches_created.
Qed.

(** ** What a successful send has stored *)

Lemma createMessage_success (d : CreateMessageData.t) (w w' : World)
  (m : IMessage.t) (md : MessageMetadata.t) :
  MessageRepository.createMessage d w = (Ok (m, md), w') ->
  messages (store w') = messages (store w) ++ [m]
  /\ metadata (store w') = metadata (store w) ++ [md]
  /\ conversations (store w') = conversations (store w)
  /\ nextId (store w') = S (S (nextId (store w)))
  /\ IMessage._id m = nextId (store w)
  /\ m = IMessage.mk (nextId (store w))
           (CreateMessageData.conversationId d)
           (CreateMessageData.senderId d)
           (CreateMessageData.receiverId d)
           (CreateMessageData.messageType d)
           (CreateMessageData.encryptedContent d)
           (CreateMessageData.mediaUrl d)
           (CreateMessageData.mediaType d)
           (CreateMessageData.mediaSize d)
           (CreateMessageData.fileName d)
           (CreateMessageData.thumbnailUrl d)
           (CreateMessageData.replyToMessageId d)
           (clock w) (clock w)
  /\ md = MessageMetadata.mk (S (nextId (store w)))
            (CreateMessageData.conversationId d) (nextId (store w))
            (CreateMessageData.senderId d) (CreateMessageData.receiverId d)
            (CreateMessageData.messageType d)
            false false None None false (clock w).
Proof.
  rewrite createMessage_run, Message_save_run.
  destruct (_ || _); [discriminate|].
  destruct (hd false (faults w)); [discriminate|].
  cbv beta iota zeta. rewrite metadata_save_run.
  destruct (hd false (faults _)); [discriminate|].
  cbv beta iota zeta. intros H. inversion H; subst; clear H.
  repeat split.
Qed.

Lemma send_success_shape {codec : AES} (key : jsstring)
  (params : SendMessageParams.t) (w : World) (r : MessageWithMetadata.t) :
  fst (ChatService.sendMessage key params w) = Ok r ->
  exists (c : Conversation.t) (m : IMessage.t) (md : MessageMetadata.t),
    ConversationRepository.pair_matches (SendMessageParams.senderId params)
      (SendMessageParams.receiverId params) c = true
    /\ messages (store (snd (ChatService.sendMessage key params w)))
       = messages (store w) ++ [m]
    /\ metadata (store (snd (ChatService.sendMessage key params w)))
       = metadata (store w) ++ [md]
    /\ r = ChatService.formatMessage key m md
    /\ IMessage.conversationId m = Conversation.id c
    /\ IMessage.messageType m = SendMessageParams.messageType params
    /\ MessageMetadata.conversationId md = Conversation.id c
    /\ MessageMetadata.mongoMessageId md = IMessage._id m
    /\ MessageMetadata.senderId md = SendMessageParams.senderId params
    /\ MessageMetadata.receiverId md = SendMessageParams.receiverId params
    /\ MessageMetadata.messageType md = SendMessageParams.messageType params
    /\ MessageMetadata.isDelivered md = false
    /\ MessageMetadata.isRead md = false
    /\ MessageMetadata.isDeleted md = false.
Proof.
  rewrite sendMessage_run.
  pose proof (findOrCreate_keeps_messages (SendMessageParams.senderId params)
                (SendMessageParams.receiverId params) w) as K1.
  pose proof (findOrCreateConversation_same_rows
                (SendMessageParams.senderId params)
                (SendMessageParams.receiverId params) w) as P1.
  destruct (ConversationRepository.findOrCreateConversation _ _ w)
    as [[c|e1] w1]; simpl in K1; [|discriminate].
  specialize (P1 c w1 eq_refl).
  pose proof (isConversationBlocked_keeps_store (Conversation.id c) w1) as K2.
  destruct (ConversationRepository.isConversationBlocked _ w1)
    as [[b|e2] w2]; simpl in K2; [|discriminate].
  destruct b; [discriminate|].
  pose proof (encryptContent_cases key params
                (ChatService.prepareMessageData params c) w2) as [K3 D].
  destruct (ChatService.encryptContent _ _ _ w2) as [[d|e3] w3];
    simpl in K3, D; [|discriminate].
  destruct (MessageRepository.createMessage d w3) as [[[m md]|e4] w4] eqn:CM;
    [|discriminate].
  apply createMessage_success in CM
    as (C1 & C2 & _ & _ & _ & Em & Emd).
  pose proof (updateLastMessage_keeps_messages (Conversation.id c)
                (ChatService.generateMessagePreview params)
                (MessageMetadata.createdAt md) w4) as K5.
  destruct (ConversationRepository.updateLastMessage _ _ _ w4) as [[u|e5] w5];
    simpl in K5; [|discriminate].
  simpl. intros H; inversion H; subst r; clear H.
  exists c, m, md.
  destruct K1 as [K1a K1b]. destruct K5 as [K5a K5b].
  rewrite K5a, K5b, C1, C2, K3, K2, K1a, K1b.
  assert (Fd : CreateMessageData.conversationId d = Conversation.id c
               /\ CreateMessageData.senderId d = SendMessageParams.senderId params
               /\ CreateMessageData.receiverId d
                  = SendMessageParams.receiverId params
               /\ CreateMessageData.messageType d
                  = SendMessageParams.messageType params).
  { destruct D as [->|(_ & content & enc & _ & _ & ->)]; repeat split. }
  destruct Fd as (F1 & F2 & F3 & F4).
  rewrite Em, Emd. simpl. rewrite F1, F2, F3, F4.
  repeat split; auto.
Qed.

Lemma getUnreadCount_run (userId : jsstring) (conversationId : option nat)
  (w : World) :
  MessageRepository.getUnreadCount userId conversationId w =
  (Ok (if hd false (faults w) then 0
       else length (filter (MessageRepository.unread_where userId conversationId)
                      (metadata (store w)))),
   after_await w).
Proof.
  unfold MessageRepository.getUnreadCount, try_catch,
    MessageRepository.metadata_count, bind, await_storage.
  destruct (hd false (faults w)); reflexivity.
Qed.

(** X3.  A send that succeeds adds exactly one to the unread count of its
    receiver, in the conversation of the message and over all
    conversations, and leaves every other unread count as it was. *)
Theorem send_adds_one_unread :
  forall (codec : AES) (key : jsstring) (params : SendMessageParams.t)
         (w : World) (r : MessageWithMetadata.t),
    fst (ChatService.sendMessage key params w) = Ok r ->
    forall (userId : jsstring) (conversationId : option nat) (e : Env),
      answered 1 (enter e w) ->
      exists n : nat,
        fst (MessageRepository.getUnreadCount userId conversationId (enter e w))
        = Ok n
        /\ fst (MessageRepository.getUnreadCount userId conversationId
                  (enter e (snd (ChatService.sendMessage key params w))))
           = Ok (n + (if str_eqb (SendMessageParams.receiverId params) userId
                         && match conversationId with
                            | Some c =>
                                Nat.eqb (MessageWithMetadata.conversationId r) c
                            | None => true
                            end
                      then 1 else 0)).
Proof.
  intros codec key params w r Hok userId oc e Ha.
  destruct (send_success_shape key params w Hok)
    as (c & m & md & _ & _ & Hmd & Hr & _ & _ & Hc & _ & _ & Hrc & _ & _ & Hrd & Hdel).
  apply answered_next in Ha as [H0 _].
  rewrite !getUnreadCount_run.
  change (faults (enter e (snd (ChatService.sendMessage key params w))))
    with (faults (enter e w)).
  rewrite H0. eexists. split; [reflexivity|].
  change (store (enter e (snd (ChatService.sendMessage key params w))))
    with (store (snd (ChatService.sendMessage key params w))).
  rewrite Hmd, filter_app, length_app. simpl fst. f_equal. f_equal.
  simpl. unfold MessageRepository.unread_where.
  rewrite Hrc, Hrd, Hdel, Hc. subst r. simpl.
  destruct (str_eqb (SendMessageParams.receiverId params) userId); simpl;
    [|reflexivity].
  destruct oc as [c'|]; [|reflexivity].
  destruct (Nat.eqb (MessageMetadata.conversationId md) c') eqn:E;
    rewrite <- Hc, E; reflexivity.
Qed.

Lemma send_adds_one_unread_witness :
  exists n : nat,
    fst (MessageRepository.getUnreadCount Scenario.bob (Some 0)
           (enter (Scenario.at_time 2000)
              (enter (Scenario.at_time 1000) initial_world))) = Ok n
    /\ fst (MessageRepository.getUnreadCount Scenario.bob (Some 0)
              (enter (Scenario.at_time 2000)
                 (snd (ChatService.sendMessage (codec := XorCodec.codec)
                         XorCodec.key Scenario.hello
                         (enter (Scenario.at_time 1000) initial_world)))))
       = Ok (n + (if str_eqb (SendMessageParams.receiverId Scenario.hello)
                       Scenario.bob
                     && Nat.eqb
                          (MessageWithMetadata.conversationId
                             (MessageWithMetadata.mk 2 0 Scenario.alice
                                Scenario.bob TEXT (Some (js "Hello"))
                                None None None None None None
                                false false None None 1000)) 0
                  then 1 else 0)).
Proof.
  apply (@send_adds_one_unread XorCodec.codec XorCodec.key Scenario.hello
           (enter (Scenario.at_time 1000) initial_world)
           (MessageWithMetadata.mk 2 0 Scenario.alice Scenario.bob TEXT
              (Some (js "Hello")) None None None None None None
              false false None None 1000)
           eq_refl Scenario.bob (Some 0) (Scenario.at_time 2000)).
  reflexivity.
Defined.

(** ** A text send that goes through *)

Lemma find_pair_none_no_row (a b : jsstring) (table : list Conversation.t) :
  find (ConversationRepository.pair_matches a b) table = None ->
  existsb (fun c => str_eqb (Conversation.participant1Id c) a
                    && str_eqb (Conversation.participant2Id c) b) table = false.
Proof.
  induction table as [|x l IH]; simpl; [reflexivity|].
  unfold ConversationRepository.pair_matches at 1.
  destruct (str_eqb (Conversation.participant1Id x) a
            && str_eqb (Conversation.participant2Id x) b); simpl;
    [discriminate|].
  destruct (_ && _); [discriminate | exact IH].
Qed.

Lemma find_fresh_id (n : nat) (table : list Conversation.t) :
  Forall (fun c => Conversation.id c < n) table ->
  find (fun c => Nat.eqb (Conversation.id c) n) table = None.
Proof.
  induction 1 as [|x l Hx _ IH]; simpl; [reflexivity|].
  destruct (Nat.eqb_spec (Conversation.id x) n); [lia | exact IH].
Qed.

(** With no rejection, the pair gets its conversation: the row found, or a
    new one; it is found again by its identifier. *)
Lemma resolve_unrejected (a b : jsstring) (st : Store) (t : Z) (en : list N) :
  store_ok st ->
  exists c st',
    ConversationRepository.findOrCreateConversation a b (mkWorld st t [] en)
    = (Ok c, mkWorld st' t [] en)
    /\ messages st' = messages st /\ metadata st' = metadata st
    /\ nextId st <= nextId st'
    /\ In c (conversations st')
    /\ find (fun c' => Nat.eqb (Conversation.id c') (Conversation.id c))
         (conversations st') = Some c
    /\ (find (ConversationRepository.pair_matches a b) (conversations st)
        = Some c
        \/ Conversation.isBlocked c = false).
Proof.
  intros (_ & Hu & Hf & _ & _).
  rewrite findOrCreateConversation_run. cbn [hd faults store after_await tl].
  rewrite find_pair_sort2.
  destruct (find _ (conversations st)) as [c|] eqn:F.
  - exists c, st. destruct (find_some _ _ F) as [Hin _].
    repeat split; auto. apply (find_by_id Hu Hin).
  - rewrite conversation_save_run.
    cbn [hd faults store after_await tl clock entropy with_store].
    rewrite <- (find_pair_sort2 a b) in F.
    rewrite (find_pair_none_no_row _ _ _ F). cbv zeta.
    eexists. eexists. split; [reflexivity|]. simpl.
    repeat split; auto.
    + apply in_or_app. right. left. reflexivity.
    + rewrite find_app, (find_fresh_id Hf). simpl. rewrite Nat.eqb_refl.
      reflexivity.
Qed.

(** X4.  A text send with a valid content, from and to named users, into a
    conversation that is not blocked (or does not exist yet), with no
    storage call rejected and a cipher that works, succeeds: the message
    returned carries the sanitized content in clear, is neither delivered
    nor read, and the conversation of the pair shows the first 100 code
    units of the content as sent and the date of the message. *)
Theorem text_send_goes_through :
  forall (codec : AES) (lawful : AESCorrect codec) (key : jsstring)
         (params : SendMessageParams.t) (w : World) (content : jsstring),
    (forall p k salt c, aes_encrypt p k salt = Some c -> c <> []) ->
    SendMessageParams.messageType params = TEXT ->
    SendMessageParams.content params = Some content ->
    validateMessageContent content = Ok true ->
    aes_accepts (sanitizeMessageContent content) = true ->
    truthy (SendMessageParams.senderId params) = true ->
    truthy (SendMessageParams.receiverId params) = true ->
    store_ok (store w) ->
    (forall c,
        find (ConversationRepository.pair_matches
                (SendMessageParams.senderId params)
                (SendMessageParams.receiverId params)) (conversations (store w))
        = Some c -> Conversation.isBlocked c = false) ->
    faults w = [] ->
    exists (r : MessageWithMetadata.t) (conv : Conversation.t),
      fst (ChatService.sendMessage key params w) = Ok r
      /\ MessageWithMetadata.content r = Some (sanitizeMessageContent content)
      /\ MessageWithMetadata.senderId r = SendMessageParams.senderId params
      /\ MessageWithMetadata.receiverId r = SendMessageParams.receiverId params
      /\ MessageWithMetadata.messageType r = TEXT
      /\ MessageWithMetadata.isDelivered r = false
      /\ MessageWithMetadata.isRead r = false
      /\ In conv (conversations (store (snd (ChatService.sendMessage key params w))))
      /\ Conversation.id conv = MessageWithMetadata.conversationId r
      /\ ConversationRepository.pair_matches
           (SendMessageParams.senderId params)
           (SendMessageParams.receiverId params) conv = true
      /\ Conversation.lastMessagePreview conv = Some (substring0 100 content)
      /\ Conversation.lastMessageAt conv
         = Some (MessageWithMetadata.createdAt r).
Proof.
  intros codec lawful key params w content Hne Ty C V Acc Hs Hr Hok Hnb Hf.
  destruct w as [st t fl en]. simpl in Hf, Hok, Hnb. subst fl.
  destruct (resolve_unrejected (SendMessageParams.senderId params)
              (SendMessageParams.receiverId params) t en Hok)
    as (c & st1 & E1 & _ & _ & _ & Hin & Fid & Hc).
  assert (Hb : Conversation.isBlocked c = false)
    by (destruct Hc as [Hc|Hc]; [apply Hnb; exact Hc | exact Hc]).
  pose proof (findOrCreateConversation_same_rows _ _ _ E1) as Hpm.
  assert (Ct : content <> []).
  { intros ->. rewrite validate_cases in V. discriminate. }
  assert (St : truthy (sanitizeMessageContent content) = true).
  { destruct (sanitizeMessageContent content) eqn:S; [|reflexivity].
    apply (proj1 (sanitize_nil_iff content)) in S. contradiction. }
  destruct (aes_encrypt (sanitizeMessageContent content) key (hd 0%N en))
    as [cipher|] eqn:Enc;
    [|exfalso; exact (aes_encrypt_total _ key (hd 0%N en) Acc Enc)].
  assert (Tc : truthy cipher = true).
  { destruct cipher; [exfalso; exact (Hne _ _ _ _ Enc eq_refl) | reflexivity]. }
  assert (Dec : decryptMessage key cipher = Ok (sanitizeMessageContent content)).
  { unfold decryptMessage. rewrite (aes_decrypt_encrypt _ _ _ Enc), St.
    reflexivity. }
  rewrite sendMessage_run, E1, isConversationBlocked_run.
  cbn [hd faults store after_await tl clock entropy]. rewrite Fid, Hb.
  unfold ChatService.encryptContent. rewrite C, Ty.
  destruct content as [|x content']; [congruence|].
  cbn [truthy MessageType_eqb andb].
  unfold ChatService.prepareText, bind, lift, random, ret. rewrite V.
  cbn [hd faults store after_await tl clock entropy fst snd].
  unfold encryptMessage. rewrite Enc.
  cbn [encrypted].
  rewrite createMessage_run, Message_save_run.
  cbn [ChatService.prepareMessageData CreateMessageData.set_encryptedContent
         CreateMessageData.senderId CreateMessageData.receiverId].
  rewrite Hs, Hr. cbn [negb orb hd faults].
  cbv beta iota zeta. rewrite metadata_save_run.
  cbn [hd tl faults after_await store clock entropy with_store fst snd].
  cbv beta iota zeta.
  unfold ConversationRepository.updateLastMessage.
  rewrite logged_run, conversation_update_run.
  cbn [hd tl faults after_await store clock entropy with_store fst snd
         conversations MessageMetadata.createdAt].
  eexists. eexists. split; [reflexivity|].
  unfold ChatService.formatMessage, CreateMessageData.set_encryptedContent,
    ChatService.prepareMessageData.
  cbn [IMessage.encryptedContent IMessage.messageType CreateMessageData.encryptedContent
         CreateMessageData.messageType MessageWithMetadata.content
         MessageWithMetadata.senderId MessageWithMetadata.receiverId
         MessageWithMetadata.messageType MessageWithMetadata.isDelivered
         MessageWithMetadata.isRead MessageWithMetadata.conversationId
         MessageWithMetadata.createdAt MessageMetadata.senderId
         MessageMetadata.receiverId MessageMetadata.messageType
         MessageMetadata.isDelivered MessageMetadata.isRead
         MessageMetadata.conversationId MessageMetadata.createdAt
         CreateMessageData.conversationId CreateMessageData.senderId
         CreateMessageData.receiverId].
  rewrite Tc, Ty. cbn [MessageType_eqb andb]. rewrite Dec.
  split; [reflexivity|]. do 5 (split; [reflexivity|]).
  split.
  { apply in_map_iff. exists c. split; [reflexivity | exact Hin]. }
  rewrite Nat.eqb_refl.
  cbn [Conversation.id Conversation.participant1Id Conversation.participant2Id
         Conversation.lastMessagePreview Conversation.lastMessageAt].
  split; [reflexivity|]. split; [exact Hpm|]. split; [|reflexivity].
  unfold ChatService.generateMessagePreview. rewrite Ty, C.
  unfold substring0. rewrite firstn_firstn. reflexivity.
Qed.

Lemma text_send_goes_through_witness :
  exists (r : MessageWithMetadata.t) (conv : Conversation.t),
    fst (ChatService.sendMessage (codec := XorCodec.codec) XorCodec.key
           Scenario.hello (enter (Scenario.at_time 1000) initial_world)) = Ok r
    /\ MessageWithMetadata.content r = Some (sanitizeMessageContent (js "Hello"))
    /\ MessageWithMetadata.senderId r = SendMessageParams.senderId Scenario.hello
    /\ MessageWithMetadata.receiverId r
       = SendMessageParams.receiverId Scenario.hello
    /\ MessageWithMetadata.messageType r = TEXT
    /\ MessageWithMetadata.isDelivered r = false
    /\ MessageWithMetadata.isRead r = false
    /\ In conv (conversations (store (snd
         (ChatService.sendMessage (codec := XorCodec.codec) XorCodec.key
            Scenario.hello (enter (Scenario.at_time 1000) initial_world)))))
    /\ Conversation.id conv = MessageWithMetadata.conversationId r
    /\ ConversationRepository.pair_matches
         (SendMessageParams.senderId Scenario.hello)
         (SendMessageParams.receiverId Scenario.hello) conv = true
    /\ Conversation.lastMessagePreview conv = Some (substring0 100 (js "Hello"))
    /\ Conversation.lastMessageAt conv = Some (MessageWithMetadata.createdAt r).
Proof.
  apply (@text_send_goes_through XorCodec.codec XorCodec_lawful XorCodec.key
           Scenario.hello (enter (Scenario.at_time 1000) initial_world)
           (js "Hello")).
  - intros p k salt c. simpl. destruct (forallb _ p); [|discriminate].
    intros H; inversion H. discriminate.
  - reflexivity.
  - reflexivity.
  - vm_compute. reflexivity.
  - reflexivity.
  - reflexivity.
  - reflexivity.
  - exact store_ok_empty.
  - intros c H. discriminate H.
  - reflexivity.
Defined.

(** ** Identifiers nobody holds *)





(** ** Listing the unread messages and reading them *)

Lemma getUnreadMessages_run (userId : jsstring) (cid : nat) (w : World) :
  MessageRepository.getUnreadMessages userId cid w =
  (Ok (if hd false (faults w) then []
       else map MessageMetadata.id
              (filter (MessageRepository.unread_where userId (Some cid))
                 (metadata (store w)))),
   after_await w).
Proof.
  unfold MessageRepository.getUnreadMessages, try_catch, bind,
    MessageRepository.metadata_find, bind, await_storage, get_store, ret.
  destruct (hd false (faults w)); [reflexivity|]. simpl.
  f_equal. f_equal. f_equal. apply filter_ext. intros m.
  unfold MessageRepository.unread_where.
  destruct (str_eqb _ _), (Nat.eqb _ _), (MessageMetadata.isRead m),
    (MessageMetadata.isDeleted m); reflexivity.
Qed.

Lemma filter_nil {A} (p : A -> bool) (l : list A) :
  (forall x, In x l -> p x = false) -> filter p l = [].
Proof.
  induction l as [|x l IH]; simpl; intros H; [reflexivity|].
  rewrite (H x) by auto. apply IH. auto.
Qed.

(** X6.  [getUnreadMessages] never throws; when its query is answered it
    lists as many identifiers as [getUnreadCount] counts for the same user
    and conversation, and once [markAsRead] has been run on that list (its
    update answered) the count is 0 and the list is empty. *)
Theorem reading_the_unread_list_clears_it :
  forall (userId : jsstring) (conversationId : nat) (w : World),
    exists ids : list nat,
      MessageRepository.getUnreadMessages userId conversationId w
      = (Ok ids, after_await w)
      /\ (answered 1 w ->
          fst (MessageRepository.getUnreadCount userId (Some conversationId) w)
          = Ok (length ids)
          /\ forall e1 e2 : Env,
              answered 1 (enter e1 (after_await w)) ->
              answered 1
                (enter e2 (snd (MessageRepository.markAsRead ids
                                  (enter e1 (after_await w))))) ->
              fst (MessageRepository.getUnreadCount userId (Some conversationId)
                     (enter e2 (snd (MessageRepository.markAsRead ids
                                       (enter e1 (after_await w))))))
              = Ok 0
              /\ fst (MessageRepository.getUnreadMessages userId conversationId
                        (enter e2 (snd (MessageRepository.markAsRead ids
                                          (enter e1 (after_await w))))))
                 = Ok []).
Proof.
  intros userId cid w. rewrite getUnreadMessages_run.
  eexists. split; [reflexivity|].
  intros Ha. apply answered_next in Ha as [H0 _]. rewrite H0.
  rewrite getUnreadCount_run, H0, length_map. split; [reflexivity|].
  intros e1 e2 A1 A2.
  apply answered_next in A1 as [H1 _]. apply answered_next in A2 as [H2 _].
  rewrite getUnreadCount_run, getUnreadMessages_run, H2.
  set (ids := map MessageMetadata.id _) in *.
  assert (E : filter (MessageRepository.unread_where userId (Some cid))
                (metadata (store (enter e2 (snd (MessageRepository.markAsRead ids
                                                   (enter e1 (after_await w)))))))
              = []).
  { rewrite markAsRead_run, metadata_update_run, H1.
    cbn [snd store enter with_env with_store metadata after_await].
    apply filter_nil. intros m' Hm'.
    apply in_map_iff in Hm' as (m & <- & Hm).
    destruct (existsb (Nat.eqb (MessageMetadata.id m)) ids) eqn:X.
    - unfold MessageRepository.unread_where, MessageRepository.set_read. simpl.
      rewrite andb_false_r. reflexivity.
    - destruct (MessageRepository.unread_where userId (Some cid) m) eqn:U;
        [|reflexivity].
      assert (Hin : In (MessageMetadata.id m) ids).
      { unfold ids. apply in_map. apply filter_In. auto. }
      assert (existsb (Nat.eqb (MessageMetadata.id m)) ids = true).
      { apply existsb_exists. exists (MessageMetadata.id m).
        split; [exact Hin | apply Nat.eqb_refl]. }
      congruence. }
  rewrite E. split; reflexivity.
Qed.

Lemma reading_the_unread_list_clears_it_witness :
  exists ids : list nat,
    MessageRepository.getUnreadMessages Scenario.bob 0
      (enter (Scenario.at_time 2000) Scenario.after_hello)
    = (Ok ids, after_await (enter (Scenario.at_time 2000) Scenario.after_hello))
    /\ ids = [2].
Proof.
  destruct (reading_the_unread_list_clears_it Scenario.bob 0
              (enter (Scenario.at_time 2000) Scenario.after_hello))
    as (ids & E & H).
  exists ids. split; [exact E|].
  destruct (H eq_refl) as [L _].
  vm_compute in E. inversion E. reflexivity.
Defined.

(** ** What every reachable store satisfies *)

Lemma keeps_sound_refl (s : Store) : keeps_sound s s.
Proof. intros H; exact H. Qed.

Lemma keeps_sound_trans (s1 s2 s3 : Store) :
  keeps_sound s1 s2 -> keeps_sound s2 s3 -> keeps_sound s1 s3.
Proof. unfold keeps_sound; auto. Qed.

Lemma substring0_length (n : nat) (s : jsstring) : length (substring0 n s) <= n.
Proof. unfold substring0. apply firstn_le_length. Qed.

(** A row for a new conversation, and identifiers drawn. *)
Lemma store_sound_new_conversation (s : Store) (cs : list Conversation.t) (n : nat) :
  store_sound s ->
  store_ok (mkStore (conversations s ++ cs) (metadata s) (messages s) n) ->
  Forall (fun c => Conversation.lastMessagePreview c = None) cs ->
  nextId s <= n ->
  store_sound (mkStore (conversations s ++ cs) (metadata s) (messages s) n).
Proof.
  intros (_ & Hu & Hp & Hb & Hf) Hok Hcs Hn.
  split; [exact Hok|]. split; [exact Hu|]. split; [exact Hp|]. split.
  - unfold previews_bounded in *. simpl. apply Forall_app. split; [exact Hb|].
    eapply Forall_impl; [|exact Hcs]. simpl. intros c ->. exact I.
  - unfold payload_refs_fresh in *. simpl.
    eapply Forall_impl; [|exact Hf]. simpl. intros; lia.
Qed.

Lemma sound_findOrCreate (a b : jsstring) :
  respects keeps_sound (ConversationRepository.findOrCreateConversation a b).
Proof.
  intros w Hs. pose proof (keeps_ok_findOrCreate a b w (proj1 Hs)) as Hok.
  revert Hok. rewrite findOrCreateConversation_run.
  destruct (hd false (faults w)); [intros _; exact Hs|].
  destruct (find _ _) eqn:F; [intros _; exact Hs|].
  rewrite conversation_save_run.
  destruct (hd false (faults (after_await w))); [intros _; exact Hs|].
  destruct (existsb _ _); [intros _; exact Hs|].
  cbn [snd fst store with_store after_await conversations metadata messages nextId].
  intros Hok. apply store_sound_new_conversation; auto.
Qed.

(** An update of conversation rows that keeps the keys and the bound of
    the preview. *)
Lemma sound_conversation_update (cid : nat) (f : Conversation.t -> Conversation.t) :
  (forall c, same_conversation c (f c)) ->
  (forall c, match Conversation.lastMessagePreview c with
             | Some p => length p <= 500
             | None => True
             end ->
             match Conversation.lastMessagePreview (f c) with
             | Some p => length p <= 500
             | None => True
             end) ->
  respects keeps_sound (ConversationRepository.update cid f).
Proof.
  intros Hf Hb w Hs.
  pose proof (@keeps_ok_conversation_update cid f Hf w (proj1 Hs)) as Hok.
  revert Hok. rewrite conversation_update_run.
  destruct (hd false (faults w)); [intros _; exact Hs|].
  cbn [snd fst store with_store after_await conversations metadata messages nextId].
  intros Hok. destruct Hs as (_ & Hu & Hp & Hpb & Hr).
  split; [exact Hok|]. split; [exact Hu|]. split; [exact Hp|].
  split; [|exact Hr].
  unfold previews_bounded in *. simpl. apply Forall_forall.
  intros c Hc. apply in_map_iff in Hc as (c0 & <- & Hin).
  rewrite Forall_forall in Hpb. specialize (Hpb c0 Hin).
  destruct (Nat.eqb _ _); [apply Hb|]; exact Hpb.
Qed.

Lemma sound_updateLastMessage (cid : nat) (preview : jsstring) (t : Z) :
  respects keeps_sound (ConversationRepository.updateLastMessage cid preview t).
Proof.
  unfold ConversationRepository.updateLastMessage.
  apply (respects_logged (R := keeps_sound)).
  apply sound_conversation_update.
  - intros c. repeat split.
  - intros c _. cbn [Conversation.lastMessagePreview]. apply substring0_length.
Qed.

Lemma sound_blockConversation (cid : nat) (u : jsstring) :
  respects keeps_sound (ConversationRepository.blockConversation cid u).
Proof.
  unfold ConversationRepository.blockConversation.
  apply (respects_logged (R := keeps_sound)).
  apply sound_conversation_update.
  - intros c. repeat split.
  - intros c H. exact H.
Qed.

Lemma sound_unblockConversation (cid : nat) :
  respects keeps_sound (ConversationRepository.unblockConversation cid).
Proof.
  unfold ConversationRepository.unblockConversation.
  apply (respects_logged (R := keeps_sound)).
  apply sound_conversation_update.
  - intros c. repeat split.
  - intros c H. exact H.
Qed.

(** The two writes of [createMessage], in their order: the row refers to
    the document written just before. *)
Lemma sound_createMessage (d : CreateMessageData.t) :
  respects keeps_sound (MessageRepository.createMessage d).
Proof.
  intros w Hs.
  pose proof (respects_createMessage keeps_ok_refl keeps_ok_trans
                keeps_ok_Message_save keeps_ok_metadata_save d w (proj1 Hs))
    as Hok.
  revert Hok. rewrite createMessage_run, Message_save_run.
  destruct (_ || _); [intros _; exact Hs|].
  destruct (hd false (faults w)); [intros _; exact Hs|].
  cbv beta iota zeta. rewrite metadata_save_run.
  cbn [faults with_store after_await store clock entropy nextId metadata
       messages conversations IMessage._id].
  destruct Hs as (Hok0 & Hu & Hp & Hb & Hr).
  destruct (hd false (tl (faults w)));
    cbn [snd fst store with_store after_await conversations metadata messages
         nextId]; intros Hok.
  - split; [exact Hok|]. split; [exact Hu|]. split; [|split; [exact Hb|]].
    + intros md Hmd. destruct (Hp md Hmd) as (m & Hm & E).
      exists m. split; [|exact E]. simpl. apply in_or_app. auto.
    + unfold payload_refs_fresh in *. simpl.
      eapply Forall_impl; [|exact Hr]. simpl. intros; lia.
  - split; [exact Hok|]. split; [|split; [|split; [exact Hb|]]].
    + unfold metadata_ids_unique in *. simpl. rewrite map_app. simpl.
      apply NoDup_app; repeat split; auto.
      * constructor; [simpl; tauto | constructor].
      * intros n Hn [<-|[]]. apply in_map_iff in Hn as (m & Hm & Hin).
        destruct Hok0 as (_ & _ & _ & Hfresh & _).
        unfold metadata_ids_fresh in Hfresh.
        rewrite Forall_forall in Hfresh. specialize (Hfresh m Hin). lia.
    + intros md Hmd. simpl in Hmd. apply in_app_or in Hmd as [Hmd|[<-|[]]].
      * destruct (Hp md Hmd) as (m & Hm & E).
        exists m. split; [|exact E]. simpl. apply in_or_app. auto.
      * eexists. split; [simpl; apply in_or_app; right; left; reflexivity|].
        reflexivity.
    + unfold payload_refs_fresh in *. simpl. apply Forall_app. split.
      * eapply Forall_impl; [|exact Hr]. simpl. intros; lia.
      * constructor; [simpl; lia | constructor].
Qed.

Lemma sound_metadata_update (ids : list nat)
  (f : MessageMetadata.t -> MessageMetadata.t) :
  (forall m, later_version m (f m)) ->
  respects keeps_sound (MessageRepository.metadata_update ids f).
Proof.
  intros Hf w Hs.
  pose proof (@keeps_ok_metadata_update ids f Hf w (proj1 Hs)) as Hok.
  revert Hok. rewrite metadata_update_run.
  destruct (hd false (faults w)); [intros _; exact Hs|].
  cbn [snd fst store with_store after_await conversations metadata messages nextId].
  intros Hok. destruct Hs as (_ & Hu & Hp & Hb & Hr).
  set (g := fun m => if existsb (Nat.eqb (MessageMetadata.id m)) ids
                     then f m else m).
  assert (Hg : forall m, later_version m (g m)).
  { intros m. unfold g. destruct (existsb _ _); [apply Hf|].
    repeat split; auto. }
  split; [exact Hok|]. split; [|split; [|split; [exact Hb|]]].
  - unfold metadata_ids_unique in *. simpl.
    replace (map MessageMetadata.id (map g (metadata (store w))))
      with (map MessageMetadata.id (metadata (store w))); [exact Hu|].
    rewrite map_map. apply map_ext. intros m. symmetry. apply (Hg m).
  - intros md Hmd. simpl in Hmd. apply in_map_iff in Hmd as (m0 & <- & Hin).
    destruct (Hp m0 Hin) as (m & Hm & E). exists m. split; [exact Hm|].
    destruct (Hg m0) as (_ & _ & -> & _). exact E.
  - unfold payload_refs_fresh in *. simpl. apply Forall_forall.
    intros md Hmd. apply in_map_iff in Hmd as (m0 & <- & Hin).
    rewrite Forall_forall in Hr. specialize (Hr m0 Hin).
    destruct (Hg m0) as (_ & _ & -> & _). exact Hr.
Qed.

Lemma sound_sendMessage {codec : AES} (key : jsstring)
  (params : SendMessageParams.t) :
  respects keeps_sound (ChatService.sendMessage key params).
Proof.
  unfold ChatService.sendMessage.
  apply (respects_logged (R := keeps_sound)).
  apply (respects_bind keeps_sound_trans); [apply sound_findOrCreate|].
  intros conversation.
  apply (respects_bind keeps_sound_trans);
    [apply (@respects_isConversationBlocked keeps_sound keeps_sound_refl keeps_sound_trans)|].
  intros [|]; [apply (@respects_throw keeps_sound keeps_sound_refl)|].
  apply (respects_bind keeps_sound_trans);
    [apply (@respects_encryptContent _ key keeps_sound keeps_sound_refl keeps_sound_trans)|].
  intros messageData.
  apply (respects_bind keeps_sound_trans); [apply sound_createMessage|].
  intros [message md].
  apply (respects_bind keeps_sound_trans); [apply sound_updateLastMessage|].
  intros _. apply (@respects_ret keeps_sound keeps_sound_refl).
Qed.

Lemma sound_exec {codec : AES} (key : jsstring) (c : Command) (w : World) :
  store_sound (store w) -> store_sound (store (exec key c w)).
Proof.
  destruct c; simpl.
  - apply sound_sendMessage.
  - unfold ChatService.markMessagesAsRead. rewrite logged_run.
    apply (respects_markAsRead keeps_sound_refl keeps_sound_trans
             sound_metadata_update).
  - unfold ChatService.markMessageAsDelivered. rewrite logged_run.
    apply (respects_markAsDelivered keeps_sound_refl keeps_sound_trans
             sound_metadata_update).
  - unfold ChatService.deleteMessage. rewrite logged_run.
    apply (respects_deleteMessage keeps_sound_refl keeps_sound_trans
             sound_metadata_update).
  - unfold ChatService.blockConversation. rewrite logged_run.
    apply sound_blockConversation.
  - unfold ChatService.unblockConversation. rewrite logged_run.
    apply sound_unblockConversation.
Qed.

Lemma run_keeps_sound {codec : AES} (key : jsstring) (cs : list (Env * Command))
  (w : World) :
  store_sound (store w) -> store_sound (store (run key cs w)).
Proof.
  revert w. induction cs as [|[e c] cs IH]; intros w H; simpl; [exact H|].
  apply IH. apply sound_exec. exact H.
Qed.

Lemma store_sound_empty : store_sound empty_store.
Proof.
  split; [exact store_ok_empty|].
  split; [constructor|]. split; [intros md []|]. split; constructor.
Qed.

Lemma reachable_store_sound {codec : AES} (key : jsstring) (w : World) :
  reachable key w -> store_sound (store w).
Proof.
  intros (cs & e & ->). simpl. apply run_keeps_sound. exact store_sound_empty.
Qed.

(** X7.  In every world the service can reach from empty stores, whatever
    calls were rejected on the way: no two metadata rows have the same
    identifier, every metadata row refers to a stored document, and no
    conversation shows a preview of more than 500 code units. *)
Theorem reachable_stores_are_sound :
  forall (codec : AES) (key : jsstring) (w : World),
    reachable key w ->
    NoDup (map MessageMetadata.id (metadata (store w)))
    /\ (forall md, In md (metadata (store w)) ->
          exists m, In m (messages (store w))
                    /\ IMessage._id m = MessageMetadata.mongoMessageId md)
    /\ (forall c p, In c (conversations (store w)) ->
          Conversation.lastMessagePreview c = Some p -> length p <= 500).
Proof.
  intros codec key w Hr.
  destruct (reachable_store_sound Hr) as (_ & Hu & Hp & Hb & _).
  split; [exact Hu|]. split; [exact Hp|].
  intros c p Hc E. unfold previews_bounded in Hb.
  rewrite Forall_forall in Hb. specialize (Hb c Hc). rewrite E in Hb. exact Hb.
Qed.

Lemma reachable_stores_are_sound_witness :
  NoDup (map MessageMetadata.id (metadata (store Scenario.after_reply)))
  /\ (forall md, In md (metadata (store Scenario.after_reply)) ->
        exists m, In m (messages (store Scenario.after_reply))
                  /\ IMessage._id m = MessageMetadata.mongoMessageId md)
  /\ (forall c p, In c (conversations (store Scenario.after_reply)) ->
        Conversation.lastMessagePreview c = Some p -> length p <= 500).
Proof.
  apply (@reachable_stores_are_sound XorCodec.codec XorCodec.key).
  exists [(Scenario.at_time 1000, SendMessage Scenario.hello);
          (Scenario.at_time 1100, SendMessage Scenario.reply)].
  exists (mkEnv 1100 [] []). vm_compute. reflexivity.
Defined.

(** ** A page of the history *)

Lemma insert_desc_length (m : MessageMetadata.t) (l : list MessageMetadata.t) :
  length (MessageRepository.insert_desc m l) = S (length l).
Proof.
  induction l as [|x l IH]; simpl; [reflexivity|].
  destruct (Z.leb _ _); simpl; [reflexivity | rewrite IH; reflexivity].
Qed.

Lemma order_createdAt_desc_length (l : list MessageMetadata.t) :
  length (MessageRepository.order_createdAt_desc l) = length l.
Proof.
  induction l as [|x l IH]; simpl; [reflexivity|].
  rewrite insert_desc_length, IH. reflexivity.
Qed.

Lemma newest_first_tail_bound (x : MessageMetadata.t) (l : list MessageMetadata.t)
  (b : Z) :
  newest_first (x :: l) -> (MessageMetadata.createdAt x <= b)%Z ->
  Forall (fun y => (MessageMetadata.createdAt y <= b)%Z) (x :: l).
Proof.
  intros [H _] Hx. constructor; [exact Hx|].
  eapply Forall_impl; [|exact H]. simpl. intros; lia.
Qed.

Lemma insert_desc_newest (m : MessageMetadata.t) (l : list MessageMetadata.t) :
  newest_first l -> newest_first (MessageRepository.insert_desc m l).
Proof.
  induction l as [|x l IH]; intros H; simpl; [split; [constructor | exact I]|].
  destruct (Z.leb_spec (MessageMetadata.createdAt x) (MessageMetadata.createdAt m)).
  - split; [|exact H]. apply newest_first_tail_bound; assumption.
  - destruct H as [Hx Hl]. split; [|apply IH; exact Hl].
    apply Forall_forall. intros y Hy. apply insert_desc_in in Hy as [->|Hy].
    + lia.
    + rewrite Forall_forall in Hx. auto.
Qed.

Lemma order_createdAt_desc_newest (l : list MessageMetadata.t) :
  newest_first (MessageRepository.order_createdAt_desc l).
Proof.
  induction l as [|x l IH]; simpl; [exact I | apply insert_desc_newest; exact IH].
Qed.

Lemma newest_first_skipn (n : nat) (l : list MessageMetadata.t) :
  newest_first l -> newest_first (skipn n l).
Proof.
  revert l. induction n as [|n IH]; intros [|x l] H; simpl; auto.
  apply IH. apply H.
Qed.

Lemma newest_first_firstn (n : nat) (l : list MessageMetadata.t) :
  newest_first l -> newest_first (firstn n l).
Proof.
  revert l. induction n as [|n IH]; intros [|x l] H; simpl; auto.
  destruct H as [Hx Hl]. split; [|apply IH; exact Hl].
  apply Forall_forall. intros y Hy. apply in_firstn in Hy.
  rewrite Forall_forall in Hx. auto.
Qed.

Lemma page_items_length (docs : list IMessage.t) (rows : list MessageMetadata.t) :
  length (page_items docs rows) <= length rows.
Proof.
  induction rows as [|md rows IH]; simpl; [lia|].
  rewrite length_app. destruct (find _ docs); simpl; lia.
Qed.

Lemma page_items_in (docs : list IMessage.t) (rows : list MessageMetadata.t)
  (md : MessageMetadata.t) :
  In md (map snd (page_items docs rows)) -> In md rows.
Proof.
  induction rows as [|x rows IH]; simpl; [tauto|].
  rewrite map_app, in_app_iff. intros [H|H]; [|right; apply IH; exact H].
  destruct (find _ docs); simpl in H; [|tauto].
  destruct H as [H|[]]. left. exact H.
Qed.

Lemma page_items_newest (docs : list IMessage.t) (rows : list MessageMetadata.t) :
  newest_first rows -> newest_first (map snd (page_items docs rows)).
Proof.
  induction rows as [|x rows IH]; simpl; [auto|].
  intros [Hx Hl]. rewrite map_app.
  destruct (find _ docs); simpl; [|apply IH; exact Hl].
  split; [|apply IH; exact Hl].
  apply Forall_forall. intros y Hy. apply page_items_in in Hy.
  rewrite Forall_forall in Hx. auto.
Qed.

Lemma page_items_complete (docs : list IMessage.t) (rows : list MessageMetadata.t) :
  (forall md, In md rows ->
     exists m, In m docs /\ IMessage._id m = MessageMetadata.mongoMessageId md) ->
  map snd (page_items docs rows) = rows.
Proof.
  induction rows as [|x rows IH]; simpl; intros H; [reflexivity|].
  rewrite map_app, IH by auto.
  destruct (H x (or_introl eq_refl)) as (m & Hm & E).
  destruct (find _ docs) eqn:F; [reflexivity|].
  pose proof (find_none _ _ F m Hm) as N. simpl in N.
  rewrite E, Nat.eqb_refl in N. discriminate.
Qed.

(** X8.  A page of [getMessagesByConversation], for a page number and a
    limit from 1 on: the stores are left as they are; the total is the number of rows
    of the conversation that are not deleted, whatever the page; the page
    has at most [limit] items, from the newest to the oldest; and when
    every row has its document, as in the stores the service reaches, the
    page is made of the rows from [(page - 1) * limit] on, [limit] of them
    or as many as are left. *)
Theorem history_page_shape :
  forall (conversationId page limit : nat) (w w' : World)
         (items : list (IMessage.t * MessageMetadata.t)) (total : nat),
    1 <= page -> 1 <= limit ->
    MessageRepository.getMessagesByConversation conversationId page limit w
    = (Ok (items, total), w') ->
    store w' = store w
    /\ total = length (filter (live_in conversationId) (metadata (store w)))
    /\ length items <= limit
    /\ newest_first (map snd items)
    /\ (payloads_present (store w) ->
        map snd items
        = firstn limit
            (skipn ((page - 1) * limit)
               (MessageRepository.order_createdAt_desc
                  (filter (live_in conversationId) (metadata (store w)))))
        /\ length items = Nat.min limit (total - (page - 1) * limit)).
Proof.
  intros cid page limit w w' items total _ _.
  rewrite getMessagesByConversation_run.
  destruct (hd false (faults w)); [discriminate|].
  destruct (hd false (faults (after_await w))); [discriminate|].
  cbv zeta. fold (live_in cid).
  set (rows := MessageRepository.order_createdAt_desc _).
  set (pagerows := firstn limit (skipn ((page - 1) * limit) rows)).
  set (docs := filter _ (messages (store w))).
  fold (page_items docs pagerows).
  intros H. inversion H; subst items total w'. clear H.
  split; [reflexivity|].
  split; [unfold rows; apply order_createdAt_desc_length|].
  assert (L : length pagerows <= limit).
  { unfold pagerows. rewrite length_firstn. lia. }
  split; [pose proof (page_items_length docs pagerows); lia|].
  split.
  { apply page_items_newest. unfold pagerows.
    apply newest_first_firstn, newest_first_skipn.
    apply order_createdAt_desc_newest. }
  intros Hp.
  assert (C : map snd (page_items docs pagerows) = pagerows).
  { apply page_items_complete. intros md Hmd.
    assert (Hin : In md (metadata (store w))).
    { unfold pagerows in Hmd. apply in_page in Hmd.
      unfold rows in Hmd. apply order_createdAt_desc_in in Hmd.
      apply filter_In in Hmd. apply Hmd. }
    destruct (Hp md Hin) as (m & Hm & E). exists m. split; [|exact E].
    unfold docs. apply filter_In. split; [exact Hm|].
    apply existsb_exists. exists (MessageMetadata.mongoMessageId md).
    split; [apply in_map; exact Hmd | rewrite E; apply Nat.eqb_refl]. }
  split; [exact C|].
  rewrite <- (length_map snd), C. unfold pagerows.
  rewrite length_firstn, length_skipn. reflexivity.
Qed.

Lemma history_page_shape_witness :
  exists items w',
    MessageRepository.getMessagesByConversation 0 1 1
      (enter (Scenario.at_time 3000) Scenario.after_reply)
    = (Ok (items, 2), w')
    /\ length items <= 1.
Proof.
  eexists. eexists. split; [vm_compute; reflexivity|].
  refine (proj1 (proj2 (proj2
    (@history_page_shape 0 1 1
       (enter (Scenario.at_time 3000) Scenario.after_reply) _ _ 2 _ _ _)))).
  - lia.
  - lia.
  - vm_compute. reflexivity.
Defined.

(** ** What a failed send has stored *)

Lemma createMessage_failure (d : CreateMessageData.t) (w w' : World) (e : Error) :
  MessageRepository.createMessage d w = (Throw e, w') ->
  metadata (store w') = metadata (store w)
  /\ ((messages (store w') = messages (store w)
       /\ (e = ValidationError \/ e = StorageError))
      \/ (e = StorageError
          /\ exists m, messages (store w') = messages (store w) ++ [m]
                       /\ IMessage._id m = nextId (store w)
                       /\ nextId (store w') = S (nextId (store w)))).
Proof.
  rewrite createMessage_run, Message_save_run.
  destruct (_ || _).
  { intros H; inversion H; subst. split; [reflexivity|]. left. auto. }
  destruct (hd false (faults w)).
  { intros H; inversion H; subst. split; [reflexivity|]. left. auto. }
  cbv beta iota zeta. rewrite metadata_save_run.
  destruct (hd false (faults _)); [|discriminate].
  intros H; inversion H; subst; clear H.
  split; [reflexivity|]. right. split; [reflexivity|].
  eexists. repeat split.
Qed.

(** X9.  A send that fails has written no metadata row and no document,
    or it failed on a rejected storage call and has written either the
    document alone, or the document and its row, unread, for the receiver:
    the rejected call was then the update of the conversation's preview.
    A send that fails for any other reason than a rejected storage call
    has written neither. *)
Theorem failed_send_traces :
  forall (codec : AES) (key : jsstring) (params : SendMessageParams.t)
         (w : World) (e : Error),
    fst (ChatService.sendMessage key params w) = Throw e ->
    (messages (store (snd (ChatService.sendMessage key params w)))
     = messages (store w)
     /\ metadata (store (snd (ChatService.sendMessage key params w)))
        = metadata (store w))
    \/ (e = StorageError
        /\ exists m : IMessage.t,
            messages (store (snd (ChatService.sendMessage key params w)))
            = messages (store w) ++ [m]
            /\ (metadata (store (snd (ChatService.sendMessage key params w)))
                = metadata (store w)
                \/ exists md : MessageMetadata.t,
                    metadata (store (snd (ChatService.sendMessage key params w)))
                    = metadata (store w) ++ [md]
                    /\ MessageMetadata.mongoMessageId md = IMessage._id m
                    /\ MessageMetadata.receiverId md
                       = SendMessageParams.receiverId params
                    /\ MessageMetadata.isRead md = false
                    /\ MessageMetadata.isDeleted md = false)).
Proof.
  intros codec key params w e. rewrite sendMessage_run.
  pose proof (findOrCreate_keeps_messages (SendMessageParams.senderId params)
                (SendMessageParams.receiverId params) w) as K1.
  destruct (ConversationRepository.findOrCreateConversation _ _ w)
    as [[c|e1] w1]; simpl in K1; [|intros _; left; exact K1].
  destruct K1 as [K1a K1b].
  pose proof (isConversationBlocked_keeps_store (Conversation.id c) w1) as K2.
  destruct (ConversationRepository.isConversationBlocked _ w1)
    as [[b|e2] w2]; simpl in K2;
    [|intros _; left; simpl; rewrite K2; auto].
  destruct b; [intros _; left; simpl; rewrite K2; auto|].
  pose proof (encryptContent_cases key params
                (ChatService.prepareMessageData params c) w2) as [K3 D].
  destruct (ChatService.encryptContent _ _ _ w2) as [[d|e3] w3];
    simpl in K3, D; [|intros _; left; simpl; rewrite K3, K2; auto].
  assert (Fd : CreateMessageData.receiverId d
               = SendMessageParams.receiverId params).
  { destruct D as [->|(_ & content & enc & _ & _ & ->)]; reflexivity. }
  destruct (MessageRepository.createMessage d w3) as [[[m md]|e4] w4] eqn:CM.
  - apply createMessage_success in CM as (C1 & C2 & _ & _ & Eid & Em & Emd).
    pose proof (updateLastMessage_keeps_messages (Conversation.id c)
                  (ChatService.generateMessagePreview params)
                  (MessageMetadata.createdAt md) w4) as K5.
    assert (E5 : fst (ConversationRepository.updateLastMessage (Conversation.id c)
                        (ChatService.generateMessagePreview params)
                        (MessageMetadata.createdAt md) w4) = Throw StorageError
                 \/ is_ok (fst (ConversationRepository.updateLastMessage
                                  (Conversation.id c)
                                  (ChatService.generateMessagePreview params)
                                  (MessageMetadata.createdAt md) w4)) = true).
    { unfold ConversationRepository.updateLastMessage.
      rewrite logged_run, conversation_update_run.
      destruct (hd false (faults w4)); simpl; auto. }
    destruct (ConversationRepository.updateLastMessage _ _ _ w4) as [[u|e5] w5];
      simpl in K5, E5; [discriminate|].
    destruct E5 as [E5|E5]; [|discriminate]. inversion E5; subst e5.
    simpl. intros H; inversion H; subst e; clear H.
    right. split; [reflexivity|]. exists m.
    destruct K5 as [K5a K5b].
    rewrite K5a, K5b, C1, C2, K3, K2, K1a, K1b.
    split; [reflexivity|]. right. exists md. split; [reflexivity|].
    rewrite Emd, Eid. simpl. rewrite Fd. repeat split.
  - apply createMessage_failure in CM as (C2 & [[C1 _]|(-> & m & C1 & _)]).
    + intros _. left. simpl. rewrite C1, C2, K3, K2. auto.
    + simpl. intros H; inversion H; subst e; clear H.
      right. split; [reflexivity|]. exists m.
      rewrite C1, C2, K3, K2, K1a, K1b. auto.
Qed.

Lemma failed_send_traces_witness :
  exists (m : IMessage.t) (md : MessageMetadata.t),
    let w := enter (mkEnv 1100 [false; false; false; false; true] [7; 9]%N)
               Scenario.after_hello in
    fst (ChatService.sendMessage (codec := XorCodec.codec) XorCodec.key
           Scenario.reply w) = Throw StorageError
    /\ messages (store (snd (ChatService.sendMessage (codec := XorCodec.codec)
                               XorCodec.key Scenario.reply w)))
       = messages (store w) ++ [m]
    /\ metadata (store (snd (ChatService.sendMessage (codec := XorCodec.codec)
                               XorCodec.key Scenario.reply w)))
       = metadata (store w) ++ [md].
Proof.
  destruct (@failed_send_traces XorCodec.codec XorCodec.key Scenario.reply
              (enter (mkEnv 1100 [false; false; false; false; true] [7; 9]%N)
                 Scenario.after_hello) StorageError)
    as [[_ H]|(_ & m & Hm & [H|(md & Hmd & _)])].
  - vm_compute. reflexivity.
  - exfalso. vm_compute in H. discriminate.
  - exfalso. vm_compute in H. discriminate.
  - exists m, md. cbv zeta. split; [vm_compute; reflexivity|].
    split; [exact Hm | exact Hmd].
Defined.

(** The document alone: the write of the row was rejected. *)
Example send_leaves_document_without_row :
  let w := enter (mkEnv 1100 [false; false; false; true] [7; 9]%N)
             Scenario.after_hello in
  let w' := snd (ChatService.sendMessage (codec := XorCodec.codec) XorCodec.key
                   Scenario.reply w) in
  fst (ChatService.sendMessage (codec := XorCodec.codec) XorCodec.key
         Scenario.reply w) = Throw StorageError
  /\ length (messages (store w')) = S (length (messages (store w)))
  /\ metadata (store w') = metadata (store w).
Proof. vm_compute. repeat split. Qed.

(** ** The [send_message] handler *)

(** X10.  The [send_message] handler of a socket: it pushes [new_message]
    exactly when it acknowledges a success, once, to the room of the
    receiver the payload names, and with the message it acknowledges; that
    message is stored, addressed to that receiver, and its sender is the
    user of the socket.  A payload without receiver or message type is
    refused before anything is done.  No failure pushes anything. *)
Theorem send_message_pushes_on_success_only :
  forall (codec : AES) (key : jsstring) (userId : jsstring)
         (data : ChatHandler.SendMessageData) (w : World),
    match ChatHandler.send_message key userId data w with
    | ((ChatHandler.Success message, pushes), w') =>
        exists receiver type md,
          ChatHandler.receiverId data = Some receiver
          /\ truthy receiver = true
          /\ ChatHandler.messageType data = Some type
          /\ pushes = [ChatHandler.new_message receiver message]
          /\ MessageWithMetadata.senderId message = userId
          /\ MessageWithMetadata.receiverId message = receiver
          /\ MessageWithMetadata.messageType message = type
          /\ metadata (store w') = metadata (store w) ++ [md]
          /\ MessageMetadata.id md = MessageWithMetadata.id message
    | ((ChatHandler.Failure reason, pushes), w') =>
        pushes = []
        /\ (reason = ChatHandler.FieldsRequired /\ w' = w
            /\ (truthy_opt (ChatHandler.receiverId data) = false
                \/ ChatHandler.messageType data = None)
            \/ exists e, reason = ChatHandler.Thrown e
                         /\ truthy_opt (ChatHandler.receiverId data) = true
                         /\ ChatHandler.messageType data <> None)
    end.
Proof.
  intros codec key userId data w. unfold ChatHandler.send_message.
  destruct (ChatHandler.receiverId data) as [receiver|];
    [|split; [reflexivity | left; auto]].
  destruct (ChatHandler.messageType data) as [type|];
    [|split; [reflexivity | left; auto]].
  simpl truthy_opt. destruct (truthy receiver) eqn:T;
    [|split; [reflexivity | left; auto]].
  set (params := SendMessageParams.mk _ _ _ _ _ _ _ _ _ _).
  pose proof (@send_success_shape codec key params w) as S.
  destruct (ChatService.sendMessage key params w) as [[message|e] w'].
  - destruct (S message eq_refl)
      as (c & m & md & _ & _ & Hmd & -> & _ & _ & _ & _ & Hs & Hr & Ht & _).
    exists receiver, type, md. simpl in *.
    repeat split; auto.
  - split; [reflexivity|]. right. exists e. repeat split. discriminate.
Qed.

(** ** Blocking and unblocking *)





(** ** The list of conversations of a user *)

Lemma insert_latest_in (x c : Conversation.t) (l : list Conversation.t) :
  In x (ConversationRepository.insert_latest c l) -> x = c \/ In x l.
Proof.
  induction l as [|y l IH]; simpl.
  - intros [<-|[]]. auto.
  - destruct (ConversationRepository.date_le _ _); simpl.
    + intros [<-|H]; auto.
    + intros [<-|H]; auto. destruct (IH H); auto.
Qed.

Lemma order_lastMessageAt_desc_in (x : Conversation.t) (l : list Conversation.t) :
  In x (ConversationRepository.order_lastMessageAt_desc l) -> In x l.
Proof.
  induction l as [|c l IH]; simpl; [tauto|].
  intros H. apply insert_latest_in in H as [->|H]; auto.
Qed.

Lemma insert_latest_length (c : Conversation.t) (l : list Conversation.t) :
  length (ConversationRepository.insert_latest c l) = S (length l).
Proof.
  induction l as [|x l IH]; simpl; [reflexivity|].
  destruct (ConversationRepository.date_le _ _); simpl;
    [reflexivity | rewrite IH; reflexivity].
Qed.

Lemma order_lastMessageAt_desc_length (l : list Conversation.t) :
  length (ConversationRepository.order_lastMessageAt_desc l) = length l.
Proof.
  induction l as [|x l IH]; simpl; [reflexivity|].
  rewrite insert_latest_length, IH. reflexivity.
Qed.

Lemma answered_le (m n : nat) (w : World) :
  m <= n -> answered n w -> answered m w.
Proof.
  unfold answered. generalize (faults w) as l. revert n.
  induction m as [|m IH]; intros n l Hle H; [reflexivity|].
  destruct n as [|n]; [lia|]. destruct l as [|b l]; [reflexivity|].
  simpl in *. apply andb_true_iff in H as [Hb H].
  rewrite Hb. simpl. apply (IH n); [lia | exact H].
Qed.

Lemma conversation_findAndCount_run (p : Conversation.t -> bool) (skip take : nat)
  (w : World) :
  ConversationRepository.findAndCount p skip take w =
  (if hd false (faults w) then Throw StorageError
   else
     Ok (firstn take
           (skipn skip
              (ConversationRepository.order_lastMessageAt_desc
                 (filter p (conversations (store w))))),
         length (ConversationRepository.order_lastMessageAt_desc
                   (filter p (conversations (store w))))),
   after_await w).
Proof.
  unfold ConversationRepository.findAndCount, bind, await_storage, get_store, ret.
  destruct (hd false (faults w)); reflexivity.
Qed.

Lemma conversation_getUserConversations_run (userId : jsstring) (page limit : nat)
  (w : World) :
  ConversationRepository.getUserConversations userId page limit w =
  ConversationRepository.findAndCount
    (fun c => str_eqb (Conversation.participant1Id c) userId
              || str_eqb (Conversation.participant2Id c) userId)
    ((page - 1) * limit) limit w.
Proof.
  unfold ConversationRepository.getUserConversations.
  rewrite logged_run. unfold bind.
  destruct (ConversationRepository.findAndCount _ _ _ w) as [[[cs n]|e] w'];
    reflexivity.
Qed.

(** The counts of the entries: each is the count of its conversation, or
    0 when its query was rejected; none makes the list fail. *)
Lemma unread_counts_run (userId : jsstring) (rows : list Conversation.t)
  (w : World) :
  exists entries w',
    ChatService.Promise_all_map (fun conv =>
        unreadCount <-
          MessageRepository.getUnreadCount userId (Some (Conversation.id conv)) ;;
        ret (ChatService.mkConversationWithUnread
               (Conversation.id conv)
               (Conversation.participant1Id conv)
               (Conversation.participant2Id conv)
               (Conversation.lastMessageAt conv)
               (Conversation.lastMessagePreview conv)
               (Conversation.isBlocked conv)
               unreadCount)) rows w
    = (Ok entries, w')
    /\ store w' = store w
    /\ Forall2 (fun c x => x = with_unread c 0
                           \/ x = with_unread c (unread_in userId (store w) c))
         rows entries
    /\ (answered (length rows) w ->
        entries = map (fun c => with_unread c (unread_in userId (store w) c)) rows).
Proof.
  revert w. induction rows as [|c rows IH]; intros w.
  - exists [], w. simpl. unfold ret. repeat split. constructor.
  - simpl. unfold bind at 1. unfold bind at 1.
    rewrite getUnreadCount_run. unfold ret at 1.
    destruct (IH (after_await w)) as (entries & w' & E & S & F & A).
    unfold bind at 1. rewrite E. unfold ret.
    eexists. eexists. split; [reflexivity|].
    split; [exact S|]. split.
    + constructor; [|exact F].
      destruct (hd false (faults w)); [left | right]; reflexivity.
    + intros Ha. apply answered_next in Ha as [H0 Ha]. rewrite H0.
      rewrite (A Ha). reflexivity.
Qed.

Lemma getUserConversations_run (userId : jsstring) (page limit : nat)
  (w : World) :
  ChatService.getUserConversations userId page limit w =
  if hd false (faults w) then (Throw StorageError, after_await w)
  else
    let sorted :=
      ConversationRepository.order_lastMessageAt_desc
        (filter (fun c => str_eqb (Conversation.participant1Id c) userId
                          || str_eqb (Conversation.participant2Id c) userId)
           (conversations (store w))) in
    match ChatService.Promise_all_map (fun conv =>
              unreadCount <-
                MessageRepository.getUnreadCount userId
                  (Some (Conversation.id conv)) ;;
              ret (ChatService.mkConversationWithUnread
                     (Conversation.id conv)
                     (Conversation.participant1Id conv)
                     (Conversation.participant2Id conv)
                     (Conversation.lastMessageAt conv)
                     (Conversation.lastMessagePreview conv)
                     (Conversation.isBlocked conv)
                     unreadCount))
            (firstn limit (skipn ((page - 1) * limit) sorted))
            (after_await w) with
    | (Ok entries, w') => (Ok (entries, length sorted), w')
    | (Throw e, w') => (Throw e, w')
    end.
Proof.
  unfold ChatService.getUserConversations. rewrite logged_run.
  unfold bind at 1. rewrite conversation_getUserConversations_run,
    conversation_findAndCount_run.
  destruct (hd false (faults w)); [reflexivity|].
  cbv zeta. unfold bind at 1.
  destruct (ChatService.Promise_all_map _ _ _) as [[entries|e] w'];
    reflexivity.
Qed.

(** X12.  [ChatService.getUserConversations], for a page number and a
    limit from 1 on: it leaves the stores as they are and fails only when
    the query of the conversations is rejected.  Otherwise the total is
    the number of conversations the user takes part in, and the entries
    are, row for row, at most [limit] of these conversations, each with
    its number of unread messages for the user, or with 0 when the count
    of that conversation was rejected. *)
Theorem conversation_list_entries :
  forall (userId : jsstring) (page limit : nat) (w : World),
    1 <= page -> 1 <= limit ->
    store (snd (ChatService.getUserConversations userId page limit w)) = store w
    /\ (hd false (faults w) = true ->
        fst (ChatService.getUserConversations userId page limit w)
        = Throw StorageError)
    /\ (hd false (faults w) = false ->
        exists (rows : list Conversation.t)
               (entries : list ChatService.ConversationWithUnread),
          fst (ChatService.getUserConversations userId page limit w)
          = Ok (entries,
                length (filter (fun c =>
                            str_eqb (Conversation.participant1Id c) userId
                            || str_eqb (Conversation.participant2Id c) userId)
                          (conversations (store w))))
          /\ length rows <= limit
          /\ (forall c, In c rows ->
                In c (conversations (store w)) /\ participant userId c)
          /\ Forall2 (fun c x =>
                 x = with_unread c 0
                 \/ x = with_unread c (unread_in userId (store w) c))
               rows entries
          /\ (answered (S limit) w ->
              entries
              = map (fun c => with_unread c (unread_in userId (store w) c)) rows)).
Proof.
  intros userId page limit w _ _.
  rewrite getUserConversations_run.
  destruct (hd false (faults w)) eqn:H0.
  { split; [reflexivity|]. split; [reflexivity | discriminate]. }
  cbv zeta.
  set (p := fun c => _ || _).
  set (rows := firstn limit _).
  destruct (unread_counts_run userId rows (after_await w))
    as (entries & w' & E & S & F & A).
  rewrite E.
  split; [exact S|]. split; [discriminate|]. intros _.
  exists rows, entries. cbn [fst].
  rewrite order_lastMessageAt_desc_length.
  split; [reflexivity|].
  assert (L : length rows <= limit).
  { unfold rows. rewrite length_firstn. lia. }
  split; [exact L|]. split; [|split; [exact F|]].
  - intros c Hc. unfold rows in Hc. apply in_page in Hc.
    apply order_lastMessageAt_desc_in in Hc. apply filter_In in Hc as [Hin Hp].
    split; [exact Hin|]. unfold p in Hp. apply orb_true_iff in Hp.
    unfold participant. rewrite <- !str_eqb_eq. exact Hp.
  - intros Ha. apply answered_next in Ha as [_ Ha].
    apply A. apply (answered_le L Ha).
Qed.

Lemma conversation_list_entries_witness :
  exists entries,
    fst (ChatService.getUserConversations Scenario.bob 1 20
           (enter (Scenario.at_time 2000) Scenario.after_hello))
    = Ok (entries, 1)
    /\ map ChatService.cu_unreadCount entries = [1].
Proof.
  destruct (proj2 (proj2 (@conversation_list_entries Scenario.bob 1 20
                            (enter (Scenario.at_time 2000) Scenario.after_hello)
                            (le_n 1) (proj1 (Nat.leb_le 1 20) eq_refl))) eq_refl)
    as (rows & entries & E & _).
  exists entries. split; [exact E|].
  vm_compute in E. inversion E. reflexivity.
Defined.

(** ** What a deletion takes out of the counts *)




(** ** The cache: presence and typing indicators *)

Lemma find_without_same (key : jsstring) (l : list (jsstring * Redis.Entry)) :
  find (fun kv => str_eqb (fst kv) key) (Redis.without key l) = None.
Proof.
  induction l as [|[k e] l IH]; simpl; [reflexivity|].
  destruct (str_eqb k key) eqn:E; simpl; [exact IH|].
  rewrite E. exact IH.
Qed.

Lemma find_without_other (key key' : jsstring) (l : list (jsstring * Redis.Entry)) :
  key' <> key ->
  find (fun kv => str_eqb (fst kv) key') (Redis.without key l)
  = find (fun kv => str_eqb (fst kv) key') l.
Proof.
  intros Hne. induction l as [|[k e] l IH]; simpl; [reflexivity|].
  destruct (str_eqb k key) eqn:E; simpl.
  - apply str_eqb_eq in E. subst k.
    destruct (str_eqb key key') eqn:E'; [|exact IH].
    apply str_eqb_eq in E'. congruence.
  - destruct (str_eqb k key'); [reflexivity | exact IH].
Qed.

(** What [setex] leaves in the cache when the command is not rejected:
    the key holds the value until its time to live is over; the other
    keys hold what they held. *)
Lemma lookup_after_setex (key : jsstring) (seconds : Z) (v : jsstring)
  (r : Redis.t) (now : Z) (rs : list bool) (key' : jsstring) :
  hd false (Redis.rejections r) = false ->
  Redis.lookup key' (Redis.at_time now rs (snd (Redis.setex key seconds v r)))
  = if str_eqb key key' then
      if Z.leb now (Redis.time r + seconds * 1000)
      then Some (Redis.mkEntry v (Redis.time r + seconds * 1000))
      else None
    else Redis.lookup key' (Redis.at_time now rs r).
Proof.
  intros H. unfold Redis.setex. rewrite H. unfold Redis.lookup. simpl.
  destruct (str_eqb key key') eqn:E; [reflexivity|].
  rewrite find_without_other; [reflexivity|].
  intros ->. rewrite str_eqb_refl in E. discriminate.
Qed.

Lemma lookup_after_del (key : jsstring) (r : Redis.t) (now : Z) (rs : list bool) :
  hd false (Redis.rejections r) = false ->
  Redis.lookup key (Redis.at_time now rs (snd (Redis.del key r))) = None.
Proof.
  intros H. unfold Redis.del. rewrite H. unfold Redis.lookup. simpl.
  rewrite find_without_same. reflexivity.
Qed.

Lemma status_key_inj (u v : jsstring) :
  StatusHandler.status_key u = StatusHandler.status_key v -> u = v.
Proof. unfold StatusHandler.status_key. apply app_inv_head. Qed.

Lemma getUserStatus_run {json : StatusHandler.JSON} (userId : jsstring)
  (r : Redis.t) :
  fst (StatusHandler.getUserStatus userId r)
  = if hd false (Redis.rejections r) then None
    else match Redis.lookup (StatusHandler.status_key userId) r with
         | Some e =>
             if truthy (Redis.value e) then StatusHandler.parse (Redis.value e)
             else None
         | None => None
         end.
Proof.
  unfold StatusHandler.getUserStatus, Redis.get.
  destruct (hd false (Redis.rejections r)); [reflexivity|].
  destruct (Redis.lookup _ r) as [e|]; simpl; [|reflexivity].
  destruct (truthy (Redis.value e)); reflexivity.
Qed.

(** X14.  Presence: once [setUserOnline] has stored the status of a user
    (its command not rejected), [getUserStatus], when answered, returns
    that status, online, with the socket and the time of the connection,
    for less than 300 seconds, and nothing after more than 300 seconds;
    the same holds for [setUserOffline], with the status offline and no
    socket.  Neither changes what [getUserStatus] returns for another
    user, and a rejected command changes nothing for anyone. *)
Theorem presence_lasts_five_minutes :
  forall (json : StatusHandler.JSON) (lawful : StatusHandler.JSONCorrect json)
         (userId socketId : jsstring) (r : Redis.t) (t t' : Z),
    let online := StatusHandler.setUserOnline userId socketId
                    (Redis.at_time t [] r) in
    let offline := StatusHandler.setUserOffline userId (Redis.at_time t [] r) in
    ((t' < t + 300000)%Z ->
     fst (StatusHandler.getUserStatus userId (Redis.at_time t' [] online))
     = Some (StatusHandler.mkUserStatus true t socketId)
     /\ fst (StatusHandler.getUserStatus userId (Redis.at_time t' [] offline))
        = Some (StatusHandler.mkUserStatus false t []))
    /\ ((t + 300000 < t')%Z ->
        fst (StatusHandler.getUserStatus userId (Redis.at_time t' [] online))
        = None
        /\ fst (StatusHandler.getUserStatus userId (Redis.at_time t' [] offline))
           = None)
    /\ (forall (other : jsstring) (rs : list bool),
          other <> userId ->
          fst (StatusHandler.getUserStatus other (Redis.at_time t' rs online))
          = fst (StatusHandler.getUserStatus other (Redis.at_time t' rs r))
          /\ fst (StatusHandler.getUserStatus other (Redis.at_time t' rs offline))
             = fst (StatusHandler.getUserStatus other (Redis.at_time t' rs r)))
    /\ (forall rs : list bool,
          Redis.entries
            (StatusHandler.setUserOnline userId socketId
               (Redis.at_time t (true :: rs) r)) = Redis.entries r
          /\ Redis.entries
               (StatusHandler.setUserOffline userId
                  (Redis.at_time t (true :: rs) r)) = Redis.entries r).
Proof.
  intros json lawful u sid r t t'. cbv zeta.
  unfold StatusHandler.setUserOnline, StatusHandler.setUserOffline.
  cbv zeta. rewrite !getUserStatus_run.
  cbn [Redis.at_time Redis.rejections hd].
  rewrite !lookup_after_setex by reflexivity.
  rewrite !str_eqb_refl. cbn [Redis.at_time Redis.time].
  unfold StatusHandler.USER_STATUS_TTL.
  split; [|split; [|split]].
  - intros H. destruct (Z.leb_spec t' (t + 300 * 1000)); [|lia].
    cbn [Redis.value].
    rewrite !StatusHandler.stringify_truthy, !StatusHandler.parse_stringify.
    auto.
  - intros H. destruct (Z.leb_spec t' (t + 300 * 1000)); [lia|]. auto.
  - intros other rs Hne. rewrite !getUserStatus_run.
    cbn [Redis.at_time Redis.rejections].
    rewrite !lookup_after_setex by reflexivity.
    assert (E : str_eqb (StatusHandler.status_key u)
                  (StatusHandler.status_key other) = false).
    { apply str_eqb_neq. intros H. apply status_key_inj in H. congruence. }
    rewrite E. auto.
  - intros rs. split; reflexivity.
Qed.

Lemma FlatJSON_lawful : StatusHandler.JSONCorrect FlatJSON.json.
Proof.
  split.
  - intros [o t sid]. simpl.
    destruct o, (Z.ltb_spec t 0); simpl; rewrite N2Z.inj_abs_N;
      f_equal; f_equal; lia.
  - intros s. reflexivity.
Qed.

Lemma presence_lasts_five_minutes_witness :
  fst (StatusHandler.getUserStatus (json := FlatJSON.json) Scenario.alice
         (Redis.at_time 2000 []
            (StatusHandler.setUserOnline (json := FlatJSON.json) Scenario.alice
               (js "socket-1") (Redis.at_time 1000 [] Redis.empty))))
  = Some (StatusHandler.mkUserStatus true 1000 (js "socket-1")).
Proof.
  refine (proj1 (proj1 (@presence_lasts_five_minutes FlatJSON.json
                          FlatJSON_lawful Scenario.alice (js "socket-1")
                          Redis.empty 1000 2000) _)).
  reflexivity.
Defined.

Lemma getUserStatus_world {json : StatusHandler.JSON} (userId : jsstring)
  (r : Redis.t) :
  snd (StatusHandler.getUserStatus userId r) = Redis.after_command r.
Proof.
  unfold StatusHandler.getUserStatus, Redis.get.
  destruct (hd false (Redis.rejections r)); [reflexivity|].
  destruct (Redis.lookup _ r) as [e|]; simpl; [|reflexivity].
  destruct (truthy (Redis.value e)); reflexivity.
Qed.

(** X15.  [refreshUserStatus] writes nothing when [getUserStatus] returns
    no status for the user or a status that is offline: an expired or
    offline user is not brought back.  When the status is online and no
    command is rejected, the user is then online for less than 300 seconds
    from the refresh, with the same socket and the time of the refresh,
    and the status of every other user is as before. *)
Theorem refresh_extends_online_only :
  forall (json : StatusHandler.JSON) (lawful : StatusHandler.JSONCorrect json)
         (userId : jsstring) (r : Redis.t) (t : Z),
    (forall rs : list bool,
        match fst (StatusHandler.getUserStatus userId (Redis.at_time t rs r)) with
        | Some status =>
            StatusHandler.online status = false ->
            Redis.entries
              (StatusHandler.refreshUserStatus userId (Redis.at_time t rs r))
            = Redis.entries r
        | None =>
            Redis.entries
              (StatusHandler.refreshUserStatus userId (Redis.at_time t rs r))
            = Redis.entries r
        end)
    /\ (forall status : StatusHandler.UserStatus,
          fst (StatusHandler.getUserStatus userId (Redis.at_time t [] r))
          = Some status ->
          StatusHandler.online status = true ->
          forall t' : Z,
            ((t' < t + 300000)%Z ->
             fst (StatusHandler.getUserStatus userId
                    (Redis.at_time t' []
                       (StatusHandler.refreshUserStatus userId
                          (Redis.at_time t [] r))))
             = Some (StatusHandler.mkUserStatus true t
                       (StatusHandler.socketId status)))
            /\ (forall (other : jsstring) (rs : list bool),
                  other <> userId ->
                  fst (StatusHandler.getUserStatus other
                         (Redis.at_time t' rs
                            (StatusHandler.refreshUserStatus userId
                               (Redis.at_time t [] r))))
                  = fst (StatusHandler.getUserStatus other
                           (Redis.at_time t' rs r)))).
Proof.
  intros json lawful u r t. split.
  - intros rs. unfold StatusHandler.refreshUserStatus.
    pose proof (getUserStatus_world u (Redis.at_time t rs r)) as W.
    destruct (StatusHandler.getUserStatus u (Redis.at_time t rs r))
      as [[status|] r']; simpl in W; subst r'; simpl; [|reflexivity].
    intros ->. reflexivity.
  - intros status G On t'. unfold StatusHandler.refreshUserStatus.
    pose proof (getUserStatus_world u (Redis.at_time t [] r)) as W.
    destruct (StatusHandler.getUserStatus u (Redis.at_time t [] r))
      as [[status'|] r']; simpl in W, G; [|discriminate].
    inversion G; subst status' r'. rewrite On.
    split.
    + intros H. rewrite getUserStatus_run.
      cbn [Redis.at_time Redis.rejections hd].
      rewrite lookup_after_setex by reflexivity.
      rewrite str_eqb_refl.
      cbn [Redis.at_time Redis.time Redis.after_command].
      unfold StatusHandler.USER_STATUS_TTL.
      destruct (Z.leb_spec t' (t + 300 * 1000)); [|lia].
      cbn [Redis.value].
      rewrite StatusHandler.stringify_truthy, StatusHandler.parse_stringify.
      reflexivity.
    + intros other rs Hne. rewrite !getUserStatus_run.
      cbn [Redis.at_time Redis.rejections].
      rewrite lookup_after_setex by reflexivity.
      assert (E : str_eqb (StatusHandler.status_key u)
                    (StatusHandler.status_key other) = false).
      { apply str_eqb_neq. intros H. apply status_key_inj in H. congruence. }
      rewrite E. reflexivity.
Qed.

Lemma refresh_extends_online_only_witness :
  fst (StatusHandler.getUserStatus (json := FlatJSON.json) Scenario.alice
         (Redis.at_time 350000%Z []
            (StatusHandler.refreshUserStatus (json := FlatJSON.json)
               Scenario.alice
               (Redis.at_time 60000%Z []
                  (StatusHandler.setUserOnline (json := FlatJSON.json)
                     Scenario.alice (js "socket-1")
                     (Redis.at_time 1000 [] Redis.empty))))))
  = Some (StatusHandler.mkUserStatus true 60000%Z (js "socket-1")).
Proof.
  refine (proj1 (proj2 (@refresh_extends_online_only FlatJSON.json
                          FlatJSON_lawful Scenario.alice
                          (StatusHandler.setUserOnline (json := FlatJSON.json)
                             Scenario.alice (js "socket-1")
                             (Redis.at_time 1000 [] Redis.empty))
                          60000%Z)
                   (StatusHandler.mkUserStatus true 1000%Z (js "socket-1"))
                   _ _ 350000%Z) _); reflexivity.
Defined.

(** X16.  Typing indicators: [typing_start], its command not rejected,
    pushes [user_typing] to the room of the receiver, and [check_typing]
    for that user and conversation then answers [true] for less than 5
    seconds and [false] after more than 5 seconds; after [typing_stop],
    which pushes [user_stopped_typing], it answers [false] at once.  A
    start or a stop whose command is rejected pushes nothing. *)
Theorem typing_indicator_round_trip :
  forall (userId conversationId receiverId : jsstring) (r : Redis.t) (t t' : Z),
    let started := TypingHandler.typing_start userId conversationId receiverId
                     (Redis.at_time t [] r) in
    let stopped := TypingHandler.typing_stop userId conversationId receiverId
                     (Redis.at_time t' [] (snd started)) in
    fst started = [TypingHandler.user_typing receiverId conversationId userId t]
    /\ ((t' < t + 5000)%Z ->
        fst (TypingHandler.check_typing conversationId userId
               (Redis.at_time t' [] (snd started))) = Ok true)
    /\ ((t + 5000 < t')%Z ->
        fst (TypingHandler.check_typing conversationId userId
               (Redis.at_time t' [] (snd started))) = Ok false)
    /\ fst stopped
       = [TypingHandler.user_stopped_typing receiverId conversationId userId t']
    /\ (forall t'' : Z,
          fst (TypingHandler.check_typing conversationId userId
                 (Redis.at_time t'' [] (snd stopped))) = Ok false)
    /\ (forall rs : list bool,
          fst (TypingHandler.typing_start userId conversationId receiverId
                 (Redis.at_time t (true :: rs) r)) = []
          /\ fst (TypingHandler.typing_stop userId conversationId receiverId
                    (Redis.at_time t (true :: rs) r)) = []).
Proof.
  intros u c recv r t t'. cbv zeta.
  assert (C : forall r0 now,
             fst (TypingHandler.check_typing c u (Redis.at_time now [] r0))
             = Ok (match Redis.lookup (TypingHandler.typing_key c u)
                           (Redis.at_time now [] r0) with
                   | Some _ => true
                   | None => false
                   end)).
  { intros r0 now. unfold TypingHandler.check_typing, Redis.exists_. simpl.
    destruct (Redis.lookup _ _); reflexivity. }
  assert (S1 : snd (TypingHandler.typing_start u c recv (Redis.at_time t [] r))
               = snd (Redis.setex (TypingHandler.typing_key c u)
                        TypingHandler.TYPING_TTL (js "1")
                        (Redis.at_time t [] r))) by reflexivity.
  assert (S2 : forall r0,
             snd (TypingHandler.typing_stop u c recv (Redis.at_time t' [] r0))
             = snd (Redis.del (TypingHandler.typing_key c u)
                      (Redis.at_time t' [] r0))) by reflexivity.
  split; [reflexivity|].
  rewrite !C, S2, S1.
  rewrite lookup_after_setex by reflexivity. rewrite str_eqb_refl.
  cbn [Redis.at_time Redis.time]. unfold TypingHandler.TYPING_TTL.
  split; [|split; [|split; [|split]]].
  - intros H. destruct (Z.leb_spec t' (t + 5 * 1000)); [reflexivity | lia].
  - intros H. destruct (Z.leb_spec t' (t + 5 * 1000)); [lia | reflexivity].
  - reflexivity.
  - intros t''. rewrite C, lookup_after_del by reflexivity. reflexivity.
  - intros rs. split; reflexivity.
Qed.

Lemma typing_indicator_round_trip_witness :
  fst (TypingHandler.check_typing (js "c1") Scenario.alice
         (Redis.at_time 3000 []
            (snd (TypingHandler.typing_start Scenario.alice (js "c1")
                    Scenario.bob (Redis.at_time 1000 [] Redis.empty)))))
  = Ok true.
Proof.
  refine (proj1 (proj2 (@typing_indicator_round_trip Scenario.alice (js "c1")
                          Scenario.bob Redis.empty 1000 3000)) _).
  reflexivity.
Defined.

(** ** The other handlers of a socket *)

(** X17.  The [get_unread_count] handler always acknowledges a success:
    with the count of the unread messages of the user of the socket over
    all conversations when the query is answered, and with 0 when the
    query is rejected.  It changes nothing in the stores. *)
Theorem get_unread_count_always_succeeds :
  forall (userId : jsstring) (w : World),
    fst (ChatHandler.get_unread_count userId w)
    = ChatHandler.Success
        (if hd false (faults w) then 0
         else length (filter (fun m =>
                          str_eqb (MessageMetadata.receiverId m) userId
                          && negb (MessageMetadata.isRead m)
                          && negb (MessageMetadata.isDeleted m))
                        (metadata (store w))))
    /\ store (snd (ChatHandler.get_unread_count userId w)) = store w.
Proof.
  intros userId w. unfold ChatHandler.get_unread_count, ChatService.getUnreadCount,
    try_catch.
  rewrite getUnreadCount_run. cbn [fst snd]. split; [|reflexivity].
  f_equal. destruct (hd false (faults w)); [reflexivity|].
  f_equal. apply filter_ext. intros m.
  unfold MessageRepository.unread_where. apply andb_true_r.
Qed.


(** ** A message sent is a message of the history *)

Lemma keeps_documents_refl (s : Store) : keeps_documents s s.
Proof. intros H; exact H. Qed.

Lemma keeps_documents_trans (s1 s2 s3 : Store) :
  keeps_documents s1 s2 -> keeps_documents s2 s3 -> keeps_documents s1 s3.
Proof. unfold keeps_documents; auto. Qed.

(** Steps that leave the collection and draw identifiers at most. *)
Lemma documents_unique_next (s : Store) (cs : list Conversation.t)
  (mds : list MessageMetadata.t) (n : nat) :
  nextId s <= n -> documents_unique s ->
  documents_unique (mkStore cs mds (messages s) n).
Proof.
  intros Hn [Hu Hf]. split; [exact Hu|]. simpl.
  eapply Forall_impl; [|exact Hf]. simpl. intros; lia.
Qed.

Lemma documents_findOrCreate (a b : jsstring) :
  respects keeps_documents (ConversationRepository.findOrCreateConversation a b).
Proof.
  intros w. rewrite findOrCreateConversation_run.
  destruct (hd false (faults w)); [apply keeps_documents_refl|].
  destruct (find _ _); [apply keeps_documents_refl|].
  rewrite conversation_save_run.
  destruct (hd false (faults (after_await w))); [apply keeps_documents_refl|].
  destruct (existsb _ _); [apply keeps_documents_refl|].
  cbn [snd fst store with_store after_await conversations metadata messages nextId].
  intros H. apply documents_unique_next; [simpl; lia | exact H].
Qed.

Lemma documents_conversation_update (cid : nat)
  (f : Conversation.t -> Conversation.t) :
  (forall c, same_conversation c (f c)) ->
  respects keeps_documents (ConversationRepository.update cid f).
Proof.
  intros _ w. rewrite conversation_update_run.
  destruct (hd false (faults w)); [apply keeps_documents_refl|].
  cbn [snd fst store with_store after_await conversations metadata messages nextId].
  intros H. apply documents_unique_next; [simpl; lia | exact H].
Qed.

Lemma documents_Message_save (d : CreateMessageData.t) :
  respects keeps_documents (MessageRepository.Message_save d).
Proof.
  intros w. rewrite Message_save_run.
  destruct (_ || _); [apply keeps_documents_refl|].
  destruct (hd false (faults w)); [apply keeps_documents_refl|].
  cbv zeta.
  cbn [snd fst store with_store after_await conversations metadata messages nextId].
  intros [Hu Hf]. split; simpl.
  - rewrite map_app. simpl. apply NoDup_app; repeat split; auto.
    + constructor; [simpl; tauto | constructor].
    + intros n Hn [<-|[]]. apply in_map_iff in Hn as (m & Hm & Hin).
      rewrite Forall_forall in Hf. specialize (Hf m Hin). lia.
  - apply Forall_app. split.
    + eapply Forall_impl; [|exact Hf]. simpl. intros; lia.
    + constructor; [simpl; lia | constructor].
Qed.

Lemma documents_metadata_save c i s r t :
  respects keeps_documents (MessageRepository.metadata_save c i s r t).
Proof.
  intros w. rewrite metadata_save_run.
  destruct (hd false (faults w)); [apply keeps_documents_refl|].
  cbv zeta.
  cbn [snd fst store with_store after_await conversations metadata messages nextId].
  intros H. apply documents_unique_next; [simpl; lia | exact H].
Qed.

Lemma documents_metadata_update (ids : list nat)
  (f : MessageMetadata.t -> MessageMetadata.t) :
  (forall m, later_version m (f m)) ->
  respects keeps_documents (MessageRepository.metadata_update ids f).
Proof.
  intros _ w. rewrite metadata_update_run.
  destruct (hd false (faults w)); [apply keeps_documents_refl|].
  cbn [snd fst store with_store after_await conversations metadata messages nextId].
  intros H. apply documents_unique_next; [simpl; lia | exact H].
Qed.

Lemma reachable_documents_unique {codec : AES} (key : jsstring) (w : World) :
  reachable key w -> documents_unique (store w).
Proof.
  intros (cs & e & ->). simpl.
  apply (run_steps key keeps_documents_refl keeps_documents_trans
           documents_findOrCreate documents_conversation_update
           documents_Message_save documents_metadata_save
           documents_metadata_update).
  split; constructor.
Qed.

Lemma insert_desc_has (x m : MessageMetadata.t) (l : list MessageMetadata.t) :
  x = m \/ In x l -> In x (MessageRepository.insert_desc m l).
Proof.
  induction l as [|y l IH]; simpl.
  - intros [->|[]]. auto.
  - destruct (Z.leb _ _); simpl.
    + intros [->|H]; auto.
    + intros [->|[->|H]]; auto.
Qed.

Lemma order_createdAt_desc_has (x : MessageMetadata.t) (l : list MessageMetadata.t) :
  In x l -> In x (MessageRepository.order_createdAt_desc l).
Proof.
  induction l as [|m l IH]; simpl; [tauto|].
  intros [->|H]; apply insert_desc_has; auto.
Qed.

(** Every element of a list is on one of its pages. *)
Lemma in_some_page {A} (x : A) (limit : nat) (l : list A) :
  1 <= limit -> In x l ->
  exists page, 1 <= page
               /\ In x (firstn limit (skipn ((page - 1) * limit) l)).
Proof.
  intros Hl Hin. apply In_nth_error in Hin as [k Hk].
  exists (S (k / limit)). split; [lia|].
  apply (nth_error_In _ (k mod limit)).
  rewrite nth_error_firstn.
  pose proof (Nat.mod_upper_bound k limit ltac:(lia)) as Hm.
  apply Nat.ltb_lt in Hm. rewrite Hm.
  rewrite nth_error_skipn.
  replace ((S (k / limit) - 1) * limit + k mod limit) with k; [exact Hk|].
  pose proof (Nat.div_mod_eq k limit). nia.
Qed.

Lemma same_key_same_element {A} (f : A -> nat) (l : list A) (a b : A) :
  NoDup (map f l) -> In a l -> In b l -> f a = f b -> a = b.
Proof.
  induction l as [|x l IH]; simpl; [tauto|].
  intros Hnd Ha Hb E. inversion Hnd as [|? ? Hx Hnd']; subst.
  destruct Ha as [->|Ha], Hb as [->|Hb]; auto.
  - exfalso. apply Hx. rewrite E. apply in_map. exact Hb.
  - exfalso. apply Hx. rewrite <- E. apply in_map. exact Ha.
Qed.

Lemma page_items_has (docs : list IMessage.t) (rows : list MessageMetadata.t)
  (m : IMessage.t) (md : MessageMetadata.t) :
  In md rows ->
  find (fun x => Nat.eqb (IMessage._id x) (MessageMetadata.mongoMessageId md))
    docs = Some m ->
  In (m, md) (page_items docs rows).
Proof.
  intros Hin F. unfold page_items. apply in_flat_map. exists md.
  split; [exact Hin|]. rewrite F. left. reflexivity.
Qed.

(** X19.  In a world the service can reach, a message that [sendMessage]
    has returned is on a page of the history of its conversation, as
    returned: for every limit from 1 on there is a page of
    [getConversationHistory] that, whenever its two queries are answered,
    lists the message with the content, the flags and the dates the send
    returned. *)
Theorem sent_message_is_in_the_history :
  forall (codec : AES) (key : jsstring) (params : SendMessageParams.t)
         (w : World) (r : MessageWithMetadata.t) (limit : nat),
    reachable key w ->
    fst (ChatService.sendMessage key params w) = Ok r ->
    1 <= limit ->
    exists page : nat,
      1 <= page
      /\ forall e : Env,
          answered 2 (enter e (snd (ChatService.sendMessage key params w))) ->
          exists items total,
            fst (ChatService.getConversationHistory key
                   (MessageWithMetadata.conversationId r) page limit
                   (enter e (snd (ChatService.sendMessage key params w))))
            = Ok (items, total)
            /\ In r items.
Proof.
  intros codec key params w r limit Hr Hs Hl.
  pose proof (respects_sendMessage key keeps_documents_refl keeps_documents_trans
                documents_findOrCreate documents_conversation_update
                documents_Message_save documents_metadata_save params w
                (reachable_documents_unique Hr)) as [Hnd _].
  destruct (send_success_shape key params w Hs)
    as (c & m & md & _ & Hm & Hmd & -> & _ & _ & Hc & Href & _ & _ & _ & _ & _
        & Hdel).
  set (w' := snd (ChatService.sendMessage key params w)) in *.
  set (cid := MessageWithMetadata.conversationId
                (ChatService.formatMessage key m md)).
  assert (Hrow : In md (MessageRepository.order_createdAt_desc
                          (filter (live_in cid) (metadata (store w'))))).
  { apply order_createdAt_desc_has. apply filter_In. split.
    - rewrite Hmd. apply in_or_app. right. left. reflexivity.
    - unfold live_in, cid. simpl. rewrite Nat.eqb_refl, Hdel. reflexivity. }
  destruct (in_some_page md _ Hl Hrow) as (page & Hp & Hpage).
  exists page. split; [exact Hp|]. intros e A.
  apply answered_next in A as [A0 A]. apply answered_next in A as [A1 _].
  rewrite getConversationHistory_run, getMessagesByConversation_run, A0, A1.
  cbv zeta. fold (live_in cid).
  cbn [store enter with_env].
  set (rows := MessageRepository.order_createdAt_desc _) in *.
  set (pagerows := firstn limit (skipn ((page - 1) * limit) rows)) in *.
  set (docs := filter _ (messages (store w'))).
  fold (page_items docs pagerows).
  do 2 eexists. split; [reflexivity|].
  apply in_map_iff. exists (m, md). split; [reflexivity|].
  apply page_items_has; [exact Hpage|].
  assert (Hin : In m (messages (store w'))).
  { rewrite Hm. apply in_or_app. right. left. reflexivity. }
  assert (Hd : In m docs).
  { unfold docs. apply filter_In. split; [exact Hin|].
    apply existsb_exists. exists (MessageMetadata.mongoMessageId md).
    split; [apply in_map; exact Hpage | rewrite Href; apply Nat.eqb_refl]. }
  destruct (find (fun x => Nat.eqb (IMessage._id x)
                             (MessageMetadata.mongoMessageId md)) docs)
    as [m'|] eqn:F.
  - apply find_some in F as [Hm' E]. apply Nat.eqb_eq in E.
    unfold docs in Hm'. apply filter_In in Hm' as [Hm' _].
    f_equal. apply (same_key_same_element IMessage._id _ _ _ Hnd Hm' Hin).
    congruence.
  - pose proof (find_none _ _ F m Hd) as N. simpl in N.
    rewrite Href, Nat.eqb_refl in N. discriminate.
Qed.

Lemma sent_message_is_in_the_history_witness :
  match fst (ChatService.sendMessage (codec := XorCodec.codec) XorCodec.key
               Scenario.reply
               (enter (Scenario.at_time 1100) Scenario.after_hello)) with
  | Ok r =>
      exists page : nat,
        1 <= page
        /\ forall e : Env,
            answered 2
              (enter e (snd (ChatService.sendMessage (codec := XorCodec.codec)
                               XorCodec.key Scenario.reply
                               (enter (Scenario.at_time 1100)
                                  Scenario.after_hello)))) ->
            exists items total,
              fst (ChatService.getConversationHistory (codec := XorCodec.codec)
                     XorCodec.key (MessageWithMetadata.conversationId r) page 1
                     (enter e (snd (ChatService.sendMessage
                                      (codec := XorCodec.codec) XorCodec.key
                                      Scenario.reply
                                      (enter (Scenario.at_time 1100)
                                         Scenario.after_hello)))))
              = Ok (items, total)
              /\ In r items
  | Throw _ => False
  end.
Proof.
  destruct (fst (ChatService.sendMessage (codec := XorCodec.codec) XorCodec.key
                   Scenario.reply
                   (enter (Scenario.at_time 1100) Scenario.after_hello)))
    as [r|err] eqn:E.
  - apply (@sent_message_is_in_the_history XorCodec.codec XorCodec.key
             Scenario.reply (enter (Scenario.at_time 1100) Scenario.after_hello)
             r 1).
    + exists [(Scenario.at_time 1000, SendMessage Scenario.hello)].
      exists (Scenario.at_time 1100). reflexivity.
    + exact E.
    + apply le_n.
  - vm_compute in E. discriminate.
Defined.

(** ** A message sent shows in the lists of conversations *)

Lemma findOrCreateConversation_in (a b : jsstring) (w w1 : World)
  (c : Conversation.t) :
  ConversationRepository.findOrCreateConversation a b w = (Ok c, w1) ->
  In c (conversations (store w1)).
Proof.
  rewrite findOrCreateConversation_run.
  destruct (hd false (faults w)); [discriminate|].
  destruct (find _ (conversations (store w))) as [c0|] eqn:F.
  - intros H; inversion H; subst. apply find_some in F as [F _]. exact F.
  - rewrite conversation_save_run.
    destruct (hd false (faults (after_await w))); [discriminate|].
    destruct (existsb _ _); [discriminate|].
    cbv zeta. intros H; inversion H; subst. simpl.
    apply in_or_app. right. left. reflexivity.
Qed.

Lemma Forall2_In_left {A B} (R : A -> B -> Prop) (l : list A) (l' : list B)
  (a : A) :
  Forall2 R l l' -> In a l -> exists b, In b l' /\ R a b.
Proof.
  induction 1 as [|x y l l' Hxy _ IH]; simpl; [tauto|].
  intros [->|H]; [exists y; auto|].
  destruct (IH H) as (b' & Hb & Hr). exists b'. auto.
Qed.

Lemma insert_latest_has (x c : Conversation.t) (l : list Conversation.t) :
  x = c \/ In x l -> In x (ConversationRepository.insert_latest c l).
Proof.
  induction l as [|y l IH]; simpl.
  - intros [->|[]]. auto.
  - destruct (ConversationRepository.date_le _ _); simpl.
    + intros [->|H]; auto.
    + intros [->|[->|H]]; auto.
Qed.

Lemma order_lastMessageAt_desc_has (x : Conversation.t) (l : list Conversation.t) :
  In x l -> In x (ConversationRepository.order_lastMessageAt_desc l).
Proof.
  induction l as [|c l IH]; simpl; [tauto|].
  intros [->|H]; apply insert_latest_has; auto.
Qed.

(** The conversation row a successful send leaves. *)
Lemma send_success_conversation {codec : AES} (key : jsstring)
  (params : SendMessageParams.t) (w : World) (r : MessageWithMetadata.t) :
  fst (ChatService.sendMessage key params w) = Ok r ->
  exists c : Conversation.t,
    In c (conversations (store (snd (ChatService.sendMessage key params w))))
    /\ Conversation.id c = MessageWithMetadata.conversationId r
    /\ ConversationRepository.pair_matches (SendMessageParams.senderId params)
         (SendMessageParams.receiverId params) c = true
    /\ Conversation.lastMessageAt c = Some (MessageWithMetadata.createdAt r)
    /\ Conversation.lastMessagePreview c
       = Some (substring0 500 (ChatService.generateMessagePreview params)).
Proof.
  rewrite sendMessage_run.
  pose proof (findOrCreateConversation_same_rows
                (SendMessageParams.senderId params)
                (SendMessageParams.receiverId params) w) as P1.
  pose proof (@findOrCreateConversation_in
                (SendMessageParams.senderId params)
                (SendMessageParams.receiverId params) w) as I1.
  destruct (ConversationRepository.findOrCreateConversation _ _ w)
    as [[c|e1] w1]; [|discriminate].
  specialize (P1 c w1 eq_refl). specialize (I1 w1 c eq_refl).
  pose proof (isConversationBlocked_keeps_store (Conversation.id c) w1) as K2.
  destruct (ConversationRepository.isConversationBlocked _ w1)
    as [[b|e2] w2]; simpl in K2; [|discriminate].
  destruct b; [discriminate|].
  pose proof (encryptContent_cases key params
                (ChatService.prepareMessageData params c) w2) as [K3 D].
  destruct (ChatService.encryptContent _ _ _ w2) as [[d|e3] w3];
    simpl in K3, D; [|discriminate].
  assert (Fd : CreateMessageData.conversationId d = Conversation.id c).
  { destruct D as [->|(_ & content & enc & _ & _ & ->)]; reflexivity. }
  destruct (MessageRepository.createMessage d w3) as [[[m md]|e4] w4] eqn:CM;
    [|discriminate].
  apply createMessage_success in CM as (_ & _ & C3 & _ & _ & _ & Emd).
  unfold ConversationRepository.updateLastMessage.
  rewrite logged_run, conversation_update_run.
  destruct (hd false (faults w4)); [discriminate|].
  cbn [fst snd store with_store conversations].
  intros H; inversion H; subst r; clear H.
  rewrite C3, K3, K2.
  eexists. split.
  - apply in_map_iff. exists c. split; [reflexivity | exact I1].
  - rewrite Nat.eqb_refl. cbn. rewrite Emd. cbn. rewrite Fd.
    unfold ConversationRepository.pair_matches in *. cbn.
    repeat split. exact P1.
Qed.

(** X20.  After a send that succeeds, the conversation of the message is
    in the list of conversations of the sender and in that of the
    receiver: for every limit from 1 on there is a page of
    [getUserConversations] that, when its query is answered, has an entry
    for the conversation of the message, with the date of the message and
    its preview, cut at 500 code units; when the counts are answered too,
    the entry of the receiver counts at least one unread message. *)
Theorem sent_message_shows_in_conversation_lists :
  forall (codec : AES) (key : jsstring) (params : SendMessageParams.t)
         (w : World) (r : MessageWithMetadata.t) (userId : jsstring)
         (limit : nat),
    fst (ChatService.sendMessage key params w) = Ok r ->
    userId = SendMessageParams.senderId params
    \/ userId = SendMessageParams.receiverId params ->
    1 <= limit ->
    exists page : nat,
      1 <= page
      /\ forall e : Env,
          answered 1 (enter e (snd (ChatService.sendMessage key params w))) ->
          exists entries total x,
            fst (ChatService.getUserConversations userId page limit
                   (enter e (snd (ChatService.sendMessage key params w))))
            = Ok (entries, total)
            /\ In x entries
            /\ ChatService.cu_id x = MessageWithMetadata.conversationId r
            /\ ChatService.cu_lastMessageAt x
               = Some (MessageWithMetadata.createdAt r)
            /\ ChatService.cu_lastMessagePreview x
               = Some (substring0 500 (ChatService.generateMessagePreview params))
            /\ (answered (S limit)
                  (enter e (snd (ChatService.sendMessage key params w))) ->
                userId = SendMessageParams.receiverId params ->
                1 <= ChatService.cu_unreadCount x).
Proof.
  intros codec key params w r u limit Hs Hu Hl.
  destruct (send_success_conversation key params w Hs)
    as (c & Hc & Hid & Hpm & Hat & Hpv).
  destruct (send_success_shape key params w Hs)
    as (c0 & m & md & _ & _ & Hmd & Er & _ & _ & Hmc & _ & _ & Hrecv & _ & _
        & Hread & Hdel).
  set (w' := snd (ChatService.sendMessage key params w)) in *.
  set (p := fun c : Conversation.t =>
              str_eqb (Conversation.participant1Id c) u
              || str_eqb (Conversation.participant2Id c) u).
  assert (Hp : p c = true).
  { unfold p. unfold ConversationRepository.pair_matches in Hpm.
    apply orb_true_iff in Hpm as [H|H]; apply andb_true_iff in H as [H1 H2];
      apply str_eqb_eq in H1, H2; destruct Hu as [->| ->];
      rewrite <- ?H1, <- ?H2, str_eqb_refl; auto using orb_true_r. }
  assert (Hrow : In c (ConversationRepository.order_lastMessageAt_desc
                         (filter p (conversations (store w'))))).
  { apply order_lastMessageAt_desc_has. apply filter_In. auto. }
  destruct (in_some_page c _ Hl Hrow) as (page & Hpg & Hpage).
  exists page. split; [exact Hpg|]. intros e A.
  apply answered_next in A as [A0 _].
  rewrite getUserConversations_run, A0. cbv zeta. fold p.
  cbn [store enter with_env].
  set (rows := firstn limit _) in *.
  destruct (unread_counts_run u rows (after_await (enter e w')))
    as (entries & w'' & E & _ & F & Ex).
  rewrite E. cbn [fst].
  destruct (Forall2_In_left c F Hpage) as (x & Hx & Rx).
  exists entries, (length (ConversationRepository.order_lastMessageAt_desc
                             (filter p (conversations (store w'))))), x.
  split; [reflexivity|]. split; [exact Hx|].
  assert (Fx : ChatService.cu_id x = Conversation.id c
               /\ ChatService.cu_lastMessageAt x = Conversation.lastMessageAt c
               /\ ChatService.cu_lastMessagePreview x
                  = Conversation.lastMessagePreview c).
  { destruct Rx as [->| ->]; repeat split. }
  destruct Fx as (F1 & F2 & F3). rewrite F1, F2, F3.
  split; [exact Hid|]. split; [exact Hat|]. split; [exact Hpv|].
  intros Aall Hrc. apply answered_next in Aall as [_ Aall].
  assert (L' : length rows <= limit).
  { unfold rows. rewrite length_firstn. lia. }
  specialize (Ex (answered_le L' Aall)). subst entries.
  apply in_map_iff in Hx as (c' & <- & Hc').
  cbn [ChatService.cu_unreadCount with_unread].
  cbn [ChatService.cu_id with_unread] in F1.
  unfold unread_in. cbn [store after_await enter with_env].
  fold w'. rewrite Hmd, filter_app, length_app. simpl.
  assert (U : MessageRepository.unread_where u (Some (Conversation.id c')) md
              = true).
  { unfold MessageRepository.unread_where.
    rewrite Hrecv, Hrc, str_eqb_refl, Hread, Hdel, F1, Hid, Er. simpl.
    apply Nat.eqb_refl. }
  rewrite U. simpl. lia.
Qed.

Lemma sent_message_shows_in_conversation_lists_witness :
  match fst (ChatService.sendMessage (codec := XorCodec.codec) XorCodec.key
               Scenario.reply
               (enter (Scenario.at_time 1100) Scenario.after_hello)) with
  | Ok r =>
      exists page : nat,
        1 <= page
        /\ forall e : Env,
            answered 1
              (enter e (snd (ChatService.sendMessage (codec := XorCodec.codec)
                               XorCodec.key Scenario.reply
                               (enter (Scenario.at_time 1100)
                                  Scenario.after_hello)))) ->
            exists entries total x,
              fst (ChatService.getUserConversations Scenario.alice page 20
                     (enter e (snd (ChatService.sendMessage
                                      (codec := XorCodec.codec) XorCodec.key
                                      Scenario.reply
                                      (enter (Scenario.at_time 1100)
                                         Scenario.after_hello)))))
              = Ok (entries, total)
              /\ In x entries
              /\ ChatService.cu_id x = MessageWithMetadata.conversationId r
              /\ ChatService.cu_lastMessageAt x
                 = Some (MessageWithMetadata.createdAt r)
              /\ ChatService.cu_lastMessagePreview x
                 = Some (substring0 500
                           (ChatService.generateMessagePreview Scenario.reply))
              /\ (answered 21
                    (enter e (snd (ChatService.sendMessage
                                     (codec := XorCodec.codec) XorCodec.key
                                     Scenario.reply
                                     (enter (Scenario.at_time 1100)
                                        Scenario.after_hello)))) ->
                  Scenario.alice = SendMessageParams.receiverId Scenario.reply ->
                  1 <= ChatService.cu_unreadCount x)
  | Throw _ => False
  end.
Proof.
  destruct (fst (ChatService.sendMessage (codec := XorCodec.codec) XorCodec.key
                   Scenario.reply
                   (enter (Scenario.at_time 1100) Scenario.after_hello)))
    as [r|err] eqn:E.
  - apply (@sent_message_shows_in_conversation_lists XorCodec.codec XorCodec.key
             Scenario.reply (enter (Scenario.at_time 1100) Scenario.after_hello)
             r Scenario.alice 20).
    + exact E.
    + right. reflexivity.
    + apply Nat.leb_le. reflexivity.
  - vm_compute in E. discriminate.
Defined.

(** ** Looking a conversation up by its identifier *)

Lemma getConversationById_run (cid : nat) (w : World) :
  ConversationRepository.getConversationById cid w =
  (if hd false (faults w) then Throw StorageError
   else Ok (find (fun c => Nat.eqb (Conversation.id c) cid)
              (conversations (store w))),
   after_await w).
Proof.
  unfold ConversationRepository.getConversationById.
  rewrite logged_run. apply conversation_findOne_run.
Qed.

(** X21.  [getConversationById] returns the conversation that
    [findOrCreateConversation] has returned, when asked for its
    identifier in stores that were as the databases guarantee, and
    nothing for an identifier no row has; unlike the block check, it
    fails when its query is rejected.  It leaves the stores as they
    are. *)
Theorem getConversationById_finds_resolved :
  forall (user1Id user2Id : jsstring) (w w1 : World) (c : Conversation.t),
    store_ok (store w) ->
    ConversationRepository.findOrCreateConversation user1Id user2Id w
    = (Ok c, w1) ->
    forall e : Env,
      (answered 1 (enter e w1) ->
       fst (ConversationRepository.getConversationById (Conversation.id c)
              (enter e w1)) = Ok (Some c))
      /\ (forall conversationId : nat,
            answered 1 (enter e w1) ->
            (forall c', In c' (conversations (store w1)) ->
                        Conversation.id c' <> conversationId) ->
            fst (ConversationRepository.getConversationById conversationId
                   (enter e w1)) = Ok None)
      /\ (forall conversationId : nat,
            hd false (faults (enter e w1)) = true ->
            fst (ConversationRepository.getConversationById conversationId
                   (enter e w1)) = Throw StorageError)
      /\ (forall conversationId : nat,
            store (snd (ConversationRepository.getConversationById
                          conversationId (enter e w1))) = store w1).
Proof.
  intros a b w w1 c Hok F e.
  pose proof (keeps_ok_findOrCreate a b w Hok) as Hok1.
  rewrite F in Hok1. simpl in Hok1.
  pose proof (findOrCreateConversation_in _ _ _ F) as Hin.
  split; [|split; [|split]].
  - intros A. apply answered_next in A as [A0 _].
    rewrite getConversationById_run, A0. cbn [fst store enter with_env].
    f_equal. apply find_by_id; [apply Hok1 | exact Hin].
  - intros cid A Hno. apply answered_next in A as [A0 _].
    rewrite getConversationById_run, A0. cbn [fst store enter with_env].
    f_equal.
    destruct (find _ (conversations (store w1))) as [c'|] eqn:E; [|reflexivity].
    apply find_some in E as [Hc' E]. apply Nat.eqb_eq in E.
    exfalso. exact (Hno c' Hc' E).
  - intros cid H. rewrite getConversationById_run, H. reflexivity.
  - intros cid. rewrite getConversationById_run. reflexivity.
Qed.

Lemma getConversationById_finds_resolved_witness :
  fst (ConversationRepository.getConversationById 0
         (enter (Scenario.at_time 3000)
            (snd (ConversationRepository.findOrCreateConversation
                    Scenario.bob Scenario.alice
                    (enter (Scenario.at_time 2000) Scenario.after_hello)))))
  = Ok (Some (Conversation.mk 0 Scenario.alice Scenario.bob (Some 1000%Z)
                (Some (js "Hello")) false None)).
Proof.
  refine (proj1 (@getConversationById_finds_resolved Scenario.bob Scenario.alice
                   (enter (Scenario.at_time 2000) Scenario.after_hello)
                   (snd (ConversationRepository.findOrCreateConversation
                           Scenario.bob Scenario.alice
                           (enter (Scenario.at_time 2000) Scenario.after_hello)))
                   (Conversation.mk 0 Scenario.alice Scenario.bob (Some 1000%Z)
                      (Some (js "Hello")) false None)
                   _ _ (Scenario.at_time 3000)) _).
  - apply (@reachable_store_ok XorCodec.codec XorCodec.key).
    exists [(Scenario.at_time 1000, SendMessage Scenario.hello)].
    exists (Scenario.at_time 2000). reflexivity.
  - vm_compute. reflexivity.
  - reflexivity.
Defined.

(** ** The total of unread messages and the counts of the conversations *)

Lemma conversations_kept_refl (s : Store) : conversations_kept s s.
Proof. intros c Hc. exists c. split; [exact Hc | repeat split]. Qed.

Lemma conversations_kept_trans (s1 s2 s3 : Store) :
  conversations_kept s1 s2 -> conversations_kept s2 s3 ->
  conversations_kept s1 s3.
Proof.
  intros H12 H23 c Hc. destruct (H12 c Hc) as (c2 & Hc2 & (E1 & E2 & E3)).
  destruct (H23 c2 Hc2) as (c3 & Hc3 & (F1 & F2 & F3)).
  exists c3. split; [exact Hc3|]. repeat split; congruence.
Qed.

Lemma conversations_kept_same (s s' : Store) :
  conversations s' = conversations s -> conversations_kept s s'.
Proof. intros E c Hc. exists c. rewrite E. split; [exact Hc | repeat split]. Qed.

Lemma kept_findOrCreate (a b : jsstring) :
  respects conversations_kept
    (ConversationRepository.findOrCreateConversation a b).
Proof.
  intros w. rewrite findOrCreateConversation_run.
  destruct (hd false (faults w)); [apply conversations_kept_refl|].
  destruct (find _ _); [apply conversations_kept_refl|].
  rewrite conversation_save_run.
  destruct (hd false (faults (after_await w))); [apply conversations_kept_refl|].
  destruct (existsb _ _); [apply conversations_kept_refl|].
  intros c Hc. exists c. split; [|repeat split].
  simpl. apply in_or_app. left. exact Hc.
Qed.

Lemma kept_conversation_update (cid : nat) (f : Conversation.t -> Conversation.t) :
  (forall c, same_conversation c (f c)) ->
  respects conversations_kept (ConversationRepository.update cid f).
Proof.
  intros Hf w. rewrite conversation_update_run.
  destruct (hd false (faults w)); [apply conversations_kept_refl|].
  intros c Hc.
  exists (if Nat.eqb (Conversation.id c) cid then f c else c). split.
  - simpl. apply in_map_iff. exists c. auto.
  - destruct (Nat.eqb _ _); [apply Hf | repeat split].
Qed.

Lemma kept_Message_save (d : CreateMessageData.t) :
  respects conversations_kept (MessageRepository.Message_save d).
Proof.
  intros w. apply conversations_kept_same. rewrite Message_save_run.
  destruct (_ || _); [reflexivity|].
  destruct (hd false (faults w)); reflexivity.
Qed.

Lemma kept_metadata_save c i s r t :
  respects conversations_kept (MessageRepository.metadata_save c i s r t).
Proof.
  intros w. apply conversations_kept_same. rewrite metadata_save_run.
  destruct (hd false (faults w)); reflexivity.
Qed.

Lemma kept_metadata_update (ids : list nat)
  (f : MessageMetadata.t -> MessageMetadata.t) :
  (forall m, later_version m (f m)) ->
  respects conversations_kept (MessageRepository.metadata_update ids f).
Proof.
  intros _ w. apply conversations_kept_same. rewrite metadata_update_run.
  destruct (hd false (faults w)); reflexivity.
Qed.

Lemma pair_matches_same_conversation (a b : jsstring) (c c' : Conversation.t) :
  same_conversation c c' ->
  ConversationRepository.pair_matches a b c'
  = ConversationRepository.pair_matches a b c.
Proof.
  intros (_ & E1 & E2). unfold ConversationRepository.pair_matches.
  rewrite E1, E2. reflexivity.
Qed.

(** The rows of metadata after a send, whatever its outcome: those there
    were, and at most one more, of the conversation of the pair. *)
Lemma send_rows {codec : AES} (key : jsstring) (params : SendMessageParams.t)
  (w : World) (md' : MessageMetadata.t) :
  In md' (metadata (store (snd (ChatService.sendMessage key params w)))) ->
  In md' (metadata (store w))
  \/ exists c,
      In c (conversations (store (snd (ChatService.sendMessage key params w))))
      /\ Conversation.id c = MessageMetadata.conversationId md'
      /\ ConversationRepository.pair_matches (MessageMetadata.senderId md')
           (MessageMetadata.receiverId md') c = true.
Proof.
  rewrite sendMessage_run.
  pose proof (findOrCreate_keeps_messages (SendMessageParams.senderId params)
                (SendMessageParams.receiverId params) w) as K1.
  pose proof (findOrCreateConversation_same_rows
                (SendMessageParams.senderId params)
                (SendMessageParams.receiverId params) w) as P1.
  pose proof (@findOrCreateConversation_in
                (SendMessageParams.senderId params)
                (SendMessageParams.receiverId params) w) as I1.
  destruct (ConversationRepository.findOrCreateConversation _ _ w)
    as [[c|e1] w1]; simpl in K1; destruct K1 as [_ K1];
    [|simpl; rewrite K1; auto].
  specialize (P1 c w1 eq_refl). specialize (I1 w1 c eq_refl).
  pose proof (isConversationBlocked_keeps_store (Conversation.id c) w1) as K2.
  destruct (ConversationRepository.isConversationBlocked _ w1)
    as [[b|e2] w2]; simpl in K2; [|simpl; rewrite K2, K1; auto].
  destruct b; [simpl; rewrite K2, K1; auto|].
  pose proof (encryptContent_cases key params
                (ChatService.prepareMessageData params c) w2) as [K3 D].
  destruct (ChatService.encryptContent _ _ _ w2) as [[d|e3] w3];
    simpl in K3, D; [|simpl; rewrite K3, K2, K1; auto].
  assert (Fd : CreateMessageData.conversationId d = Conversation.id c
               /\ CreateMessageData.senderId d = SendMessageParams.senderId params
               /\ CreateMessageData.receiverId d
                  = SendMessageParams.receiverId params).
  { destruct D as [->|(_ & content & enc & _ & _ & ->)]; repeat split. }
  destruct Fd as (F1 & F2 & F3).
  destruct (MessageRepository.createMessage d w3) as [[[m md]|e4] w4] eqn:CM.
  - apply createMessage_success in CM as (_ & C2 & C3 & _ & _ & _ & Emd).
    pose proof (updateLastMessage_keeps_messages (Conversation.id c)
                  (ChatService.generateMessagePreview params)
                  (MessageMetadata.createdAt md) w4) as K5.
    pose proof (@respects_updateLastMessage conversations_kept
                  kept_conversation_update (Conversation.id c)
                  (ChatService.generateMessagePreview params)
                  (MessageMetadata.createdAt md) w4) as R5.
    assert (S5 : forall r5 w5,
               ConversationRepository.updateLastMessage (Conversation.id c)
                 (ChatService.generateMessagePreview params)
                 (MessageMetadata.createdAt md) w4 = (r5, w5) ->
               In md' (metadata (store w5)) ->
               In md' (metadata (store w))
               \/ exists c0,
                   In c0 (conversations (store w5))
                   /\ Conversation.id c0 = MessageMetadata.conversationId md'
                   /\ ConversationRepository.pair_matches
                        (MessageMetadata.senderId md')
                        (MessageMetadata.receiverId md') c0 = true).
    { intros r5 w5 E5. rewrite E5 in K5, R5. simpl in K5, R5.
      destruct K5 as [_ K5]. rewrite K5, C2, K3, K2, K1.
      intros Hin. apply in_app_or in Hin as [Hin|[<-|[]]]; [left; exact Hin|].
      right. destruct (R5 c) as (c0 & Hc0 & Hsame).
      { rewrite C3, K3, K2. exact I1. }
      exists c0. split; [exact Hc0|].
      rewrite (pair_matches_same_conversation _ _ Hsame).
      destruct Hsame as (-> & _). rewrite Emd. simpl.
      rewrite F1, F2, F3. auto. }
    destruct (ConversationRepository.updateLastMessage _ _ _ w4)
      as [[u|e5] w5]; simpl; eapply S5; reflexivity.
  - assert (C2 : metadata (store w4) = metadata (store w3)).
    { revert CM. rewrite createMessage_run, Message_save_run.
      destruct (_ || _); [intros H; inversion H; reflexivity|].
      destruct (hd false (faults w3)); [intros H; inversion H; reflexivity|].
      cbv beta iota zeta. rewrite metadata_save_run.
      destruct (hd false (faults _)); [|discriminate].
      intros H; inversion H; reflexivity. }
    simpl. rewrite C2, K3, K2, K1. auto.
Qed.

Lemma rows_step (s s' : Store) :
  conversations_kept s s' ->
  (forall md', In md' (metadata s') ->
     (exists md, In md (metadata s) /\ later_version md md')
     \/ exists c, In c (conversations s')
                  /\ Conversation.id c = MessageMetadata.conversationId md'
                  /\ ConversationRepository.pair_matches
                       (MessageMetadata.senderId md')
                       (MessageMetadata.receiverId md') c = true) ->
  rows_have_conversation s -> rows_have_conversation s'.
Proof.
  intros Hk Hrows Hinv md' Hmd'.
  destruct (Hrows md' Hmd') as [(md & Hmd & L)|H]; [|exact H].
  destruct (Hinv md Hmd) as (c & Hc & Hid & Hpm).
  destruct (Hk c Hc) as (c' & Hc' & Hsame).
  exists c'. split; [exact Hc'|].
  rewrite (pair_matches_same_conversation _ _ Hsame).
  destruct Hsame as (-> & _).
  destruct L as (_ & -> & _ & -> & -> & _). auto.
Qed.

Lemma rows_after_update (ids : list nat)
  (f : MessageMetadata.t -> MessageMetadata.t) (w : World)
  (md' : MessageMetadata.t) :
  (forall m, later_version m (f m)) ->
  In md' (metadata (store (snd (MessageRepository.metadata_update ids f w)))) ->
  exists md, In md (metadata (store w)) /\ later_version md md'.
Proof.
  intros Hf. rewrite metadata_update_run.
  destruct (hd false (faults w)); simpl.
  - intros H. exists md'. split; [exact H | apply later_version_refl].
  - intros H. apply in_map_iff in H as (md & <- & Hmd).
    exists md. split; [exact Hmd|].
    destruct (existsb _ _); [apply Hf | apply later_version_refl].
Qed.

Lemma rows_exec {codec : AES} (key : jsstring) (c : Command) (w : World) :
  rows_have_conversation (store w) ->
  rows_have_conversation (store (exec key c w)).
Proof.
  apply rows_step.
  - exact (respects_exec key conversations_kept_refl conversations_kept_trans
             kept_findOrCreate kept_conversation_update kept_Message_save
             kept_metadata_save kept_metadata_update c w).
  - intros md' Hmd'. destruct c; simpl in Hmd'.
    + apply send_rows in Hmd' as [H|H]; [left | right; exact H].
      exists md'. split; [exact H | apply later_version_refl].
    + left. revert Hmd'. unfold ChatService.markMessagesAsRead.
      rewrite logged_run, markAsRead_run. apply rows_after_update.
      intros m. repeat split; auto.
    + left. revert Hmd'. unfold ChatService.markMessageAsDelivered.
      rewrite logged_run, markAsDelivered_run. apply rows_after_update.
      intros m. repeat split; auto.
    + left. revert Hmd'. unfold ChatService.deleteMessage.
      rewrite logged_run, deleteMessage_run.
      destruct (hd false (faults w));
        [intros H; exists md'; split; [exact H | apply later_version_refl]|].
      destruct (find _ _) as [m0|];
        [|intros H; exists md'; split; [exact H | apply later_version_refl]].
      destruct (negb _);
        [intros H; exists md'; split; [exact H | apply later_version_refl]|].
      intros H. apply rows_after_update in H.
      * exact H.
      * intros m. repeat split; auto.
    + left. revert Hmd'. unfold ChatService.blockConversation,
        ConversationRepository.blockConversation.
      rewrite !logged_run, conversation_update_run.
      destruct (hd false (faults w)); simpl; intros H;
        exists md'; (split; [exact H | apply later_version_refl]).
    + left. revert Hmd'. unfold ChatService.unblockConversation,
        ConversationRepository.unblockConversation.
      rewrite !logged_run, conversation_update_run.
      destruct (hd false (faults w)); simpl; intros H;
        exists md'; (split; [exact H | apply later_version_refl]).
Qed.

Lemma reachable_rows_have_conversation {codec : AES} (key : jsstring)
  (w : World) :
  reachable key w -> rows_have_conversation (store w).
Proof.
  intros (cs & e & ->). simpl.
  assert (H : forall w0, rows_have_conversation (store w0) ->
                         rows_have_conversation (store (run key cs w0))).
  { induction cs as [|[e0 c] cs IH]; intros w0 H0; simpl; [exact H0|].
    apply IH. apply rows_exec. exact H0. }
  apply H. intros md [].
Qed.

Lemma list_sum_add {A} (f g : A -> nat) (l : list A) :
  list_sum (map (fun x => f x + g x) l)
  = list_sum (map f l) + list_sum (map g l).
Proof. induction l as [|x l IH]; simpl; [reflexivity | rewrite IH; lia]. Qed.

Lemma list_sum_zero {A} (f : A -> nat) (l : list A) :
  (forall x, In x l -> f x = 0) -> list_sum (map f l) = 0.
Proof.
  induction l as [|x l IH]; simpl; intros H; [reflexivity|].
  rewrite (H x), IH by auto. reflexivity.
Qed.

(** Among rows of distinct identifiers, one has the identifier of [c]. *)
Lemma one_with_id (rows : list Conversation.t) (c : Conversation.t) :
  NoDup (map Conversation.id rows) -> In c rows ->
  list_sum (map (fun c' => if Nat.eqb (Conversation.id c) (Conversation.id c')
                           then 1 else 0) rows) = 1.
Proof.
  induction rows as [|x rows IH]; simpl; [tauto|].
  intros Hnd Hin. inversion Hnd as [|? ? Hx Hnd']; subst.
  destruct Hin as [->|Hin].
  - rewrite Nat.eqb_refl. rewrite list_sum_zero; [reflexivity|].
    intros c' Hc'. destruct (Nat.eqb_spec (Conversation.id c) (Conversation.id c'));
      [|reflexivity].
    exfalso. apply Hx. rewrite e. apply in_map. exact Hc'.
  - destruct (Nat.eqb_spec (Conversation.id c) (Conversation.id x)).
    + exfalso. apply Hx. rewrite <- e. apply in_map. exact Hin.
    + simpl. apply IH; assumption.
Qed.

Lemma NoDup_map_filter {A} (f : A -> nat) (p : A -> bool) (l : list A) :
  NoDup (map f l) -> NoDup (map f (filter p l)).
Proof.
  induction l as [|x l IH]; simpl; intros H; [constructor|].
  inversion H as [|? ? Hx Hnd]; subst.
  destruct (p x); simpl; [|apply IH; exact Hnd].
  constructor; [|apply IH; exact Hnd].
  intros Hin. apply Hx. apply in_map_iff in Hin as (y & E & Hy).
  apply filter_In in Hy as [Hy _]. rewrite <- E. apply in_map. exact Hy.
Qed.

Lemma unread_where_split (userId : jsstring) (k : nat) (md : MessageMetadata.t) :
  MessageRepository.unread_where userId (Some k) md
  = MessageRepository.unread_where userId None md
    && Nat.eqb (MessageMetadata.conversationId md) k.
Proof.
  unfold MessageRepository.unread_where. rewrite andb_true_r. reflexivity.
Qed.

(** Unread rows counted at once, and conversation by conversation. *)
Lemma unread_total_is_sum (userId : jsstring) (rows : list Conversation.t)
  (mds : list MessageMetadata.t) :
  NoDup (map Conversation.id rows) ->
  (forall md, In md mds ->
     MessageRepository.unread_where userId None md = true ->
     exists c, In c rows
               /\ Conversation.id c = MessageMetadata.conversationId md) ->
  length (filter (MessageRepository.unread_where userId None) mds)
  = list_sum
      (map (fun c =>
              length (filter (MessageRepository.unread_where userId
                                (Some (Conversation.id c))) mds)) rows).
Proof.
  intros Hnd. induction mds as [|md mds IH]; intros H.
  - simpl. symmetry. apply list_sum_zero. reflexivity.
  - assert (E : forall c,
               length (filter (MessageRepository.unread_where userId
                                 (Some (Conversation.id c))) (md :: mds))
               = (if MessageRepository.unread_where userId None md
                     && Nat.eqb (MessageMetadata.conversationId md)
                          (Conversation.id c)
                  then 1 else 0)
                 + length (filter (MessageRepository.unread_where userId
                                     (Some (Conversation.id c))) mds)).
    { intros c. simpl. rewrite unread_where_split.
      destruct (_ && _); reflexivity. }
    rewrite (map_ext _ _ E), list_sum_add, <- IH by (intros; apply H; simpl; auto).
    simpl. destruct (MessageRepository.unread_where userId None md) eqn:U.
    + destruct (H md (or_introl eq_refl) U) as (c & Hc & Hid).
      simpl. rewrite <- Hid. rewrite (@one_with_id rows c Hnd Hc). reflexivity.
    + simpl. rewrite list_sum_zero; reflexivity.
Qed.

Lemma sum_insert_latest (f : Conversation.t -> nat) (c : Conversation.t)
  (l : list Conversation.t) :
  list_sum (map f (ConversationRepository.insert_latest c l))
  = f c + list_sum (map f l).
Proof.
  induction l as [|x l IH]; simpl; [reflexivity|].
  destruct (ConversationRepository.date_le _ _); simpl; [reflexivity|].
  rewrite IH. lia.
Qed.

Lemma sum_order_lastMessageAt_desc (f : Conversation.t -> nat)
  (l : list Conversation.t) :
  list_sum (map f (ConversationRepository.order_lastMessageAt_desc l))
  = list_sum (map f l).
Proof.
  induction l as [|x l IH]; simpl; [reflexivity|].
  rewrite sum_insert_latest, IH. reflexivity.
Qed.

(** X22.  In a world the service can reach, the total of unread messages
    that [ChatService.getUnreadCount] returns for a user is the sum of the
    unread counts of the entries of the list of the conversations of the
    user, when all queries are answered and the list has them all on its
    first page. *)
Theorem unread_total_is_the_sum_of_the_list :
  forall (codec : AES) (key : jsstring) (w : World) (userId : jsstring)
         (limit : nat) (e1 e2 : Env),
    reachable key w ->
    1 <= limit ->
    answered 1 (enter e1 w) ->
    answered (S limit) (enter e2 w) ->
    exists (n : nat) (entries : list ChatService.ConversationWithUnread)
           (total : nat),
      fst (ChatService.getUnreadCount userId (enter e1 w)) = Ok n
      /\ fst (ChatService.getUserConversations userId 1 limit (enter e2 w))
         = Ok (entries, total)
      /\ (total <= limit ->
          list_sum (map ChatService.cu_unreadCount entries) = n).
Proof.
  intros codec key w u limit e1 e2 Hr Hl A1 A2.
  pose proof (reachable_store_ok Hr) as (_ & Hnd & _).
  pose proof (reachable_rows_have_conversation Hr) as Hinv.
  apply answered_next in A1 as [A1 _]. apply answered_next in A2 as [A2 Arest].
  unfold ChatService.getUnreadCount, try_catch.
  rewrite getUnreadCount_run, A1, getUserConversations_run, A2.
  cbv zeta. cbn [fst store enter with_env after_await].
  set (p := fun c : Conversation.t =>
              str_eqb (Conversation.participant1Id c) u
              || str_eqb (Conversation.participant2Id c) u).
  set (sorted := ConversationRepository.order_lastMessageAt_desc
                   (filter p (conversations (store w)))).
  set (rows := firstn limit (skipn ((1 - 1) * limit) sorted)).
  destruct (unread_counts_run u rows (after_await (enter e2 w)))
    as (entries & w' & E & _ & _ & Ex).
  rewrite E. cbn [fst].
  assert (L : length rows <= limit).
  { unfold rows. rewrite length_firstn. lia. }
  specialize (Ex (answered_le L Arest)).
  do 3 eexists. split; [reflexivity|]. split; [reflexivity|].
  intros Ht. rewrite Ex, map_map.
  cbn [ChatService.cu_unreadCount with_unread store after_await enter with_env].
  assert (R : rows = sorted).
  { unfold rows. simpl. apply firstn_all2. exact Ht. }
  rewrite R. unfold sorted. rewrite sum_order_lastMessageAt_desc.
  unfold unread_in. symmetry. apply unread_total_is_sum.
  - apply NoDup_map_filter. exact Hnd.
  - intros md Hmd U. destruct (Hinv md Hmd) as (c & Hc & Hid & Hpm).
    exists c. split; [|exact Hid]. apply filter_In. split; [exact Hc|].
    unfold MessageRepository.unread_where in U.
    rewrite !andb_true_iff in U. destruct U as (((U & _) & _) & _).
    apply str_eqb_eq in U. unfold p.
    unfold ConversationRepository.pair_matches in Hpm. rewrite U in Hpm.
    apply orb_true_iff in Hpm as [H|H]; apply andb_true_iff in H as [H1 H2];
      [rewrite H2 | rewrite H1]; auto using orb_true_r.
Qed.

Lemma unread_total_is_the_sum_of_the_list_witness :
  exists (entries : list ChatService.ConversationWithUnread),
    fst (ChatService.getUnreadCount Scenario.bob
           (enter (Scenario.at_time 2000) Scenario.after_hello)) = Ok 1
    /\ fst (ChatService.getUserConversations Scenario.bob 1 20
              (enter (Scenario.at_time 2000) Scenario.after_hello))
       = Ok (entries, 1)
    /\ list_sum (map ChatService.cu_unreadCount entries) = 1.
Proof.
  destruct (@unread_total_is_the_sum_of_the_list XorCodec.codec XorCodec.key
              Scenario.after_hello Scenario.bob 20
              (Scenario.at_time 2000) (Scenario.at_time 2000))
    as (n & entries & total & E1 & E2 & S).
  - exists [(Scenario.at_time 1000, SendMessage Scenario.hello)].
    exists (mkEnv 1000 [] []). vm_compute. reflexivity.
  - apply Nat.leb_le. reflexivity.
  - reflexivity.
  - reflexivity.
  - vm_compute in E1. inversion E1; subst n.
    vm_compute in E2. inversion E2; subst entries total.
    exists [ChatService.mkConversationWithUnread 0 Scenario.alice Scenario.bob
              (Some 1000%Z) (Some (js "Hello")) false 1].
    split; [vm_compute; reflexivity|]. split; [vm_compute; reflexivity|].
    reflexivity.
Defined.
